(** * AliOpenKG-Tools: the extraction-and-sampling pipeline

    A shallow embedding of [src/process_large_rar.py] (N-Triples sampler,
    tokenizer, entity resolver, relationship extractor, tabular writer) and of
    [src/process_tbox_jsonld.py] (JSON-LD samplers and class resolver),
    with the archive extraction of
    [ecommerce_kg_system/utils/rar_processor.py], followed by the
    properties of the specification that concern them and by further
    properties of the code.

    Conventions of the embedding.
    - A Python [str] is a [string]; characters are [ascii], and the string
      operations below agree with Python's on 7-bit text (code points above
      127 are kept as they are and are neither white space nor letters).
    - Python's unbounded [int] is [Z] for the run parameters and the loop
      counters, [nat] for the per-type entity counters, which start at 0 and
      are only incremented.
    - A Python [dict] is an association list in insertion order with unique
      keys; a [list] is a [list]; item assignment [l[j] = x] is stdpp's
      [<[j:=x]>].
    - Mutation of the shared containers is explicit state passing.
    - Randomness is an oracle argument. *)

From Stdlib Require Import Arith ZArith List String Ascii Bool Lia.
From Stdlib Require Import DecimalString DecimalNat.
From stdpp Require Import base decidable list.
Import ListNotations.

Local Open Scope string_scope.
Local Open Scope Z_scope.

(** ** Python string operations *)

Module PyStr.

(** [str.isspace] on one 7-bit character: TAB..CR, FS..US and the blank. *)
Definition is_space (c : ascii) : bool :=
  let n := nat_of_ascii c in
  ((9 <=? n)%nat && (n <=? 13)%nat) || ((28 <=? n)%nat && (n <=? 32)%nat).

Definition is_empty (s : string) : bool :=
  match s with EmptyString => true | String _ _ => false end.

Fixpoint lstrip_by (p : ascii -> bool) (s : string) : string :=
  match s with
  | EmptyString => EmptyString
  | String c s' => if p c then lstrip_by p s' else s
  end.

Fixpoint rstrip_by (p : ascii -> bool) (s : string) : string :=
  match s with
  | EmptyString => EmptyString
  | String c s' =>
      let r := rstrip_by p s' in
      if is_empty r && p c then EmptyString else String c r
  end.

Definition strip_by (p : ascii -> bool) (s : string) : string :=
  rstrip_by p (lstrip_by p s).

(** [s.strip()] *)
Definition strip (s : string) : string := strip_by is_space s.

Fixpoint mem_char (c : ascii) (s : string) : bool :=
  match s with
  | EmptyString => false
  | String d s' => Ascii.eqb c d || mem_char c s'
  end.

(** [s.strip(chars)] and [s.rstrip(chars)] *)
Definition strip_chars (chars s : string) : string :=
  strip_by (fun c => mem_char c chars) s.
Definition rstrip_chars (chars s : string) : string :=
  rstrip_by (fun c => mem_char c chars) s.

(** [s.startswith(p)] *)
Definition startswith (p s : string) : bool := String.prefix p s.

(** [s.endswith(p)] *)
Fixpoint endswith (p s : string) : bool :=
  String.eqb s p
  || match s with
     | EmptyString => false
     | String _ s' => endswith p s'
     end.

(** [sub in s] *)
Fixpoint contains (sub s : string) : bool :=
  String.prefix sub s
  || match s with
     | EmptyString => false
     | String _ s' => contains sub s'
     end.

(** [s.split(sep)[-1]] for a one-character separator: what follows the
    last occurrence of [sep], the whole string when there is none. *)
Fixpoint after_last (sep : ascii) (s : string) : string :=
  match s with
  | EmptyString => EmptyString
  | String c s' =>
      if mem_char sep s' then after_last sep s'
      else if Ascii.eqb c sep then s' else s
  end.

Definition upper_char (c : ascii) : ascii :=
  let n := nat_of_ascii c in
  if (97 <=? n)%nat && (n <=? 122)%nat then ascii_of_nat (n - 32) else c.

(** [s.upper()] *)
Fixpoint upper (s : string) : string :=
  match s with
  | EmptyString => EmptyString
  | String c s' => String (upper_char c) (upper s')
  end.

Fixpoint drop_last (s : string) : string :=
  match s with
  | EmptyString => EmptyString
  | String c EmptyString => EmptyString
  | String c s' => String c (drop_last s')
  end.

(** [s[1:-1]] *)
Definition slice_1_m1 (s : string) : string :=
  match s with
  | EmptyString => EmptyString
  | String _ s' => drop_last s'
  end.

(** [s[2:]] *)
Definition slice_2 (s : string) : string :=
  match s with
  | String _ (String _ s') => s'
  | _ => EmptyString
  end.

Fixpoint take (n : nat) (s : string) : string :=
  match n, s with
  | S n', String c s' => String c (take n' s')
  | _, _ => EmptyString
  end.

Fixpoint drop (n : nat) (s : string) : string :=
  match n, s with
  | S n', String _ s' => drop n' s'
  | _, _ => s
  end.

(** Number of leading characters that satisfy [p]. *)
Fixpoint span_len (p : ascii -> bool) (s : string) : nat :=
  match s with
  | EmptyString => O
  | String c s' => if p c then S (span_len p s') else O
  end.

(** [str(n)] for a natural number. *)
Definition of_nat (n : nat) : string :=
  NilZero.string_of_uint (Nat.to_uint n).

(** The double-quote character. *)
Definition dq : string := String (ascii_of_nat 34) EmptyString.

End PyStr.

(** ** Python dictionaries keyed by strings *)

Module Dict.

(** An insertion-ordered dictionary: [d[k] = v] keeps the position of a key
    that is present and appends a new one. *)
Definition t (A : Type) : Type := list (string * A).

Fixpoint get {A} (k : string) (d : t A) : option A :=
  match d with
  | [] => None
  | (k', v) :: d' => if String.eqb k' k then Some v else get k d'
  end.

(** [k in d] *)
Definition mem {A} (k : string) (d : t A) : bool :=
  match get k d with Some _ => true | None => false end.

Fixpoint set {A} (k : string) (v : A) (d : t A) : t A :=
  match d with
  | [] => [(k, v)]
  | (k', v') :: d' =>
      if String.eqb k' k then (k, v) :: d' else (k', v') :: set k v d'
  end.

(** [d.items()], [d.keys()], [d.values()] are the list itself and its
    projections. *)
Definition keys {A} (d : t A) : list string := map fst d.
Definition values {A} (d : t A) : list A := map snd d.

End Dict.

(** ** The N-Triples pipeline ([src/process_large_rar.py]) *)

Module NT.

(** The ten entity types; [kinds] lists them in the order in which
    [entity_map] and [entity_counts] are created, which is the order
    [entity_map.items()] yields. *)
Inductive kind : Type :=
| User | Product | Category | Brand | Scene
| Crowd | Time | Theme | Market | PlaceOfOrigin.

#[export] Instance kind_eq_dec : EqDecision kind.
Proof. solve_decision. Defined.

Definition kinds : list kind :=
  [User; Product; Category; Brand; Scene; Crowd; Time; Theme; Market;
   PlaceOfOrigin].

(** Key of the type in [entity_map]. *)
Definition map_key (k : kind) : string :=
  match k with
  | User => "users" | Product => "products" | Category => "categories"
  | Brand => "brands" | Scene => "scenes" | Crowd => "crowds"
  | Time => "times" | Theme => "themes" | Market => "markets"
  | PlaceOfOrigin => "placeOfOrigins"
  end.

(** Key of the type in [entity_counts]. *)
Definition count_key (k : kind) : string :=
  match k with
  | User => "user" | Product => "product" | Category => "category"
  | Brand => "brand" | Scene => "scene" | Crowd => "crowd"
  | Time => "time" | Theme => "theme" | Market => "market"
  | PlaceOfOrigin => "placeOfOrigin"
  end.

(** A dictionary with exactly the ten keys above. *)
Record per_kind (A : Type) : Type := PerKind {
  of_user : A; of_product : A; of_category : A; of_brand : A; of_scene : A;
  of_crowd : A; of_time : A; of_theme : A; of_market : A;
  of_placeOfOrigin : A }.
Arguments PerKind {A}.

Definition pk_get {A} (k : kind) (m : per_kind A) : A :=
  match k with
  | User => of_user A m | Product => of_product A m
  | Category => of_category A m | Brand => of_brand A m
  | Scene => of_scene A m | Crowd => of_crowd A m | Time => of_time A m
  | Theme => of_theme A m | Market => of_market A m
  | PlaceOfOrigin => of_placeOfOrigin A m
  end.

Definition pk_set {A} (k : kind) (v : A) (m : per_kind A) : per_kind A :=
  let f k' := if decide (k' = k) then v else pk_get k' m in
  PerKind (f User) (f Product) (f Category) (f Brand) (f Scene) (f Crowd)
          (f Time) (f Theme) (f Market) (f PlaceOfOrigin).

Definition pk_const {A} (v : A) : per_kind A :=
  PerKind v v v v v v v v v v.

(** [m.items()] *)
Definition pk_items {A} (m : per_kind A) : list (kind * A) :=
  map (fun k => (k, pk_get k m)) kinds.

(** An entity record.  The source creates it as [{'id': .., 'label': ..}];
    [properties] holds what attribute triples add to it (see
    [add_property]) and is empty at creation. *)
Record entity : Type := Entity {
  id : string;
  label : string;
  properties : Dict.t string }.

Record relationship : Type := Relationship {
  from_id : string;
  to_id : string;
  type : string }.

(** The three containers that [process_chunk] and the functions below it
    share and mutate. *)
Record store : Type := Store {
  entity_map : per_kind (Dict.t entity);
  entity_counts : per_kind nat;
  relationships : list relationship }.

Definition init_store : store :=
  Store (pk_const []) (pk_const 0%nat) [].

(** [label = uri.split('/')[-1]; if '#' in label: label = label.split('#')[-1]]:
    the local name of a URI. *)
Definition local_name (uri : string) : string :=
  let label := PyStr.after_last "/" uri in
  if PyStr.mem_char "#" label then PyStr.after_last "#" label else label.

(** The body shared by the entity functions: register [uri] under type [k]
    with the id [prefix ++ str(count)] unless it is registered already. *)
Definition create_entity (k : kind) (prefix uri : string) (st : store)
  : store :=
  if Dict.mem uri (pk_get k (entity_map st)) then st
  else
    let new_id := prefix ++ PyStr.of_nat (pk_get k (entity_counts st)) in
    let counts :=
      pk_set k (S (pk_get k (entity_counts st))) (entity_counts st) in
    let label := local_name uri in
    Store (pk_set k (Dict.set uri (Entity new_id label [])
                              (pk_get k (entity_map st)))
                  (entity_map st))
          counts (relationships st).

Definition process_user_entity (uri : string) (st : store) : store :=
  if Dict.mem uri (pk_get User (entity_map st)) then st
  else
    let user_id := "user_" ++ PyStr.of_nat (pk_get User (entity_counts st)) in
    let counts :=
      pk_set User (S (pk_get User (entity_counts st))) (entity_counts st) in
    let label := PyStr.after_last "/" uri in
    let label :=
      if PyStr.mem_char "#" label then PyStr.after_last "#" label
      else label in
    Store (pk_set User (Dict.set uri (Entity user_id label [])
                                 (pk_get User (entity_map st)))
                  (entity_map st))
          counts (relationships st).

Definition process_product_entity (uri : string) (st : store) : store :=
  if Dict.mem uri (pk_get Product (entity_map st)) then st
  else
    let product_id :=
      "product_" ++ PyStr.of_nat (pk_get Product (entity_counts st)) in
    let counts :=
      pk_set Product (S (pk_get Product (entity_counts st)))
             (entity_counts st) in
    let label := PyStr.after_last "/" uri in
    let label :=
      if PyStr.mem_char "#" label then PyStr.after_last "#" label
      else label in
    Store (pk_set Product (Dict.set uri (Entity product_id label [])
                                    (pk_get Product (entity_map st)))
                  (entity_map st))
          counts (relationships st).

(** Modelled from the spec: [process_category_entity] is called by
    [process_triple] but defined in no file under src/, and so are the seven
    functions after it.  The specification (4.5) has each of them create or
    confirm the EntityRecord of the subject for its type, under the dedup
    rule of the two functions above; each is modelled as the body of those
    two, with the key of its counter as the id prefix. *)
Definition process_category_entity := create_entity Category "category_".

(** Modelled from the spec: [process_brand_entity], as
    [process_category_entity]. *)
Definition process_brand_entity := create_entity Brand "brand_".

(** Modelled from the spec: [process_scene_entity], as
    [process_category_entity]. *)
Definition process_scene_entity := create_entity Scene "scene_".

(** Modelled from the spec: [process_crowd_entity], as
    [process_category_entity]. *)
Definition process_crowd_entity := create_entity Crowd "crowd_".

(** Modelled from the spec: [process_time_entity], as
    [process_category_entity]. *)
Definition process_time_entity := create_entity Time "time_".

(** Modelled from the spec: [process_theme_entity], as
    [process_category_entity]. *)
Definition process_theme_entity := create_entity Theme "theme_".

(** Modelled from the spec: [process_market_entity], as
    [process_category_entity]. *)
Definition process_market_entity := create_entity Market "market_".

(** Modelled from the spec: [process_placeoforigin_entity], as
    [process_category_entity]. *)
Definition process_placeoforigin_entity :=
  create_entity PlaceOfOrigin "placeOfOrigin_".

(** First entity type, in [entity_map.items()] order, whose dictionary
    holds [uri], with the record found there. *)
Fixpoint find_entity (uri : string) (items : list (kind * Dict.t entity))
  : option (kind * entity) :=
  match items with
  | [] => None
  | (k, entities) :: rest =>
      match Dict.get uri entities with
      | Some e => Some (k, e)
      | None => find_entity uri rest
      end
  end.

(** Modelled from the spec: [add_property] is called by [process_triple]
    but defined in no file under src/.  The specification (4.5) makes a
    literal-valued triple an attribute update on the subject's existing
    EntityRecord, a no-op when there is none, and (3, 8) stores attributes
    in [properties] under the predicate's local name (the property [name]
    with the value [Alice] for the predicate [http://ex/name]).  The record
    updated is the first one that holds the subject, as in the lookup of
    [add_relationship]. *)
Definition add_property (subject predicate obj : string) (st : store)
  : store :=
  match find_entity subject (pk_items (entity_map st)) with
  | None => st
  | Some (k, e) =>
      let e' :=
        Entity (id e) (label e)
               (Dict.set (local_name predicate) obj (properties e)) in
      Store (pk_set k (Dict.set subject e' (pk_get k (entity_map st)))
                    (entity_map st))
            (entity_counts st) (relationships st)
  end.

Definition rel_mapping : Dict.t string :=
  [("hasCategory", "BELONGS_TO_CATEGORY");
   ("hasBrand", "HAS_BRAND");
   ("belongsTo", "BELONGS_TO");
   ("appliesTo", "APPLIES_TO");
   ("suitable_for_crowd", "SUITABLE_FOR_CROWD");
   ("suitable_for_scene", "SUITABLE_FOR_SCENE");
   ("suitable_for_time", "SUITABLE_FOR_TIME");
   ("hasTheme", "HAS_THEME");
   ("inMarket", "IN_MARKET")].

(** [rel_mapping.get(rel_type, rel_type.upper())] on the predicate's local
    name. *)
Definition rel_type_of (predicate : string) : string :=
  let rel_type := PyStr.after_last "/" predicate in
  let rel_type :=
    if PyStr.mem_char "#" rel_type then PyStr.after_last "#" rel_type
    else rel_type in
  match Dict.get rel_type rel_mapping with
  | Some mapped => mapped
  | None => PyStr.upper rel_type
  end.

(** The two lookup loops of [add_relationship]: [None] when no dictionary
    holds the URI, the [id] of the first record found otherwise. *)
Definition lookup_id (uri : string) (em : per_kind (Dict.t entity))
  : option string :=
  match find_entity uri (pk_items em) with
  | Some (_, e) => Some (id e)
  | None => None
  end.

(** Truth value of an optional string: [None] and [''] are false. *)
Definition truthy (o : option string) : bool :=
  match o with
  | Some s => negb (PyStr.is_empty s)
  | None => false
  end.

Definition add_relationship (subject_uri object_uri predicate : string)
    (st : store) : store :=
  let rel_type := rel_type_of predicate in
  let from_id := lookup_id subject_uri (entity_map st) in
  let to_id := lookup_id object_uri (entity_map st) in
  if truthy from_id && truthy to_id then
    match from_id, to_id with
    | Some f, Some t =>
        Store (entity_map st) (entity_counts st)
              (relationships st ++ [Relationship f t rel_type])
    | _, _ => st
    end
  else st.

Definition relation_keywords : list string :=
  ["hasCategory"; "hasBrand"; "belongsTo"; "appliesTo"].

Definition process_triple (subject predicate obj : string) (is_uri : bool)
    (st : store) : store :=
  if PyStr.endswith "type" predicate then
    if PyStr.contains "User" obj then process_user_entity subject st
    else if PyStr.contains "Product" obj then
      process_product_entity subject st
    else if PyStr.contains "Category" obj then
      process_category_entity subject st
    else if PyStr.contains "Brand" obj then process_brand_entity subject st
    else if PyStr.contains "Scene" obj then process_scene_entity subject st
    else if PyStr.contains "Crowd" obj then process_crowd_entity subject st
    else if PyStr.contains "Time" obj then process_time_entity subject st
    else if PyStr.contains "Theme" obj then process_theme_entity subject st
    else if PyStr.contains "Market" obj then
      process_market_entity subject st
    else if PyStr.contains "PlaceOfOrigin" obj then
      process_placeoforigin_entity subject st
    else st
  else if is_uri
          && existsb (fun rel => PyStr.contains rel predicate)
                     relation_keywords then
    add_relationship subject obj predicate st
  else if negb is_uri then add_property subject predicate obj st
  else st.

(** *** The triple tokenizer *)

(** [<([^>]+)>] at the head of [s]: the bracketed text and what follows the
    closing bracket. *)
Fixpoint until_gt (s : string) : option (string * string) :=
  match s with
  | EmptyString => None
  | String c s' =>
      if Ascii.eqb c ">" then Some (EmptyString, s')
      else match until_gt s' with
           | Some (body, rest) => Some (String c body, rest)
           | None => None
           end
  end.

Definition match_angle (s : string) : option (string * string) :=
  match s with
  | String c s' =>
      if Ascii.eqb c "<" then
        match until_gt s' with
        | Some (body, rest) =>
            if PyStr.is_empty body then None else Some (body, rest)
        | None => None
        end
      else None
  | EmptyString => None
  end.

(** [\s+\.] at the head of [s]. *)
Definition match_ws_dot (s : string) : bool :=
  let n := PyStr.span_len PyStr.is_space s in
  (0 <? n)%nat && PyStr.startswith "." (PyStr.drop n s).

Definition not_newline (c : ascii) : bool := negb (Ascii.eqb c "010").

(** [(.+)\s+\.] at the head of [s], the group tried from [n] characters
    down to one (the regex engine's greedy search, longest first). *)
Fixpoint match_dots (n : nat) (s : string) : option string :=
  match n with
  | O => None
  | S n' =>
      if match_ws_dot (PyStr.drop n s) then Some (PyStr.take n s)
      else match_dots n' s
  end.

(** [\s+(.+)\s+\.] at the head of [s], the leading white space tried from
    [w] characters down to one. *)
Fixpoint match_tail (w : nat) (s : string) : option string :=
  match w with
  | O => None
  | S w' =>
      let r := PyStr.drop w s in
      match match_dots (PyStr.span_len not_newline r) r with
      | Some obj => Some obj
      | None => match_tail w' s
      end
  end.

(** [triple_pattern.match(line)] for
    [<([^>]+)>\s+<([^>]+)>\s+(.+)\s+\.]: the three groups. *)
Definition triple_pattern (line : string)
  : option (string * string * string) :=
  match match_angle line with
  | None => None
  | Some (subject, r1) =>
      let n1 := PyStr.span_len PyStr.is_space r1 in
      if (n1 =? 0)%nat then None
      else
        match match_angle (PyStr.drop n1 r1) with
        | None => None
        | Some (predicate, r2) =>
            match match_tail (PyStr.span_len PyStr.is_space r2) r2 with
            | None => None
            | Some obj => Some (subject, predicate, obj)
            end
        end
  end.

(** The literal pattern of [process_chunk], matched at the head of [obj]:
    a double quote, the group [[^dq]*], a double quote, then an optional
    datatype ([^^<..>]) or language ([@..]) suffix.  The optional suffix
    never makes the match fail and only the first group is used, so the
    result is that group when the pattern matches. *)
Fixpoint until_dq (s : string) : option string :=
  match s with
  | EmptyString => None
  | String c s' =>
      if Ascii.eqb c (ascii_of_nat 34) then Some EmptyString
      else match until_dq s' with
           | Some v => Some (String c v)
           | None => None
           end
  end.

Definition literal_value (obj : string) : option string :=
  match obj with
  | String c s' =>
      if Ascii.eqb c (ascii_of_nat 34) then until_dq s' else None
  | EmptyString => None
  end.

(** One iteration of the loop of [process_chunk]. *)
Definition process_line (line : string) (st : store) : store :=
  match triple_pattern line with
  | None => st
  | Some (subject, predicate, obj) =>
      let '(obj, is_uri) :=
        if PyStr.startswith "<" obj && PyStr.endswith ">" obj then
          (PyStr.slice_1_m1 obj, true)
        else
          match literal_value obj with
          | Some value => (value, false)
          | None => (obj, false)
          end in
      let subject := PyStr.strip_chars "<>" subject in
      let predicate := PyStr.strip_chars "<>" predicate in
      process_triple subject predicate obj is_uri st
  end.

Definition process_chunk (chunk : list string) (st : store) : store :=
  fold_left (fun st line => process_line line st) chunk st.

(** *** The tabular writer *)

(** [os.path.join(sample_dir, name)] for a relative file name. *)
Definition path_join (dir name : string) : string :=
  if PyStr.is_empty dir then name
  else if PyStr.endswith "/" dir then dir ++ name
  else dir ++ "/" ++ name.

(** What [save_to_neo4j_format] has produced so far: the files written,
    each as its path and the rows written to it in order (every row is
    written with a final newline), and the dictionary [neo4j_files]. *)
Record written : Type := Written {
  files : list (string * list string);
  neo4j_files : Dict.t string }.

(** One [if entity_map[key]: ...] block of [save_to_neo4j_format]. *)
Definition save_entities (sample_dir : string) (k : kind)
    (file_name header : string) (row : entity -> string)
    (em : per_kind (Dict.t entity)) (w : written) : written :=
  match pk_get k em with
  | [] => w
  | entities =>
      let path := path_join sample_dir file_name in
      Written (files w ++ [(path, header :: map row (Dict.values entities))])
              (Dict.set (map_key k) path (neo4j_files w))
  end.

Definition user_row (user : entity) : string :=
  id user ++ "," ++ label user ++ ",,,,User".
Definition node_row (label_name : string) (e : entity) : string :=
  id e ++ "," ++ label e ++ "," ++ label_name.
Definition rel_row (rel : relationship) : string :=
  from_id rel ++ "," ++ to_id rel ++ "," ++ type rel.

Definition save_relationships (sample_dir : string)
    (rels : list relationship) (w : written) : written :=
  match rels with
  | [] => w
  | _ =>
      let path := path_join sample_dir "relationships.csv" in
      Written (files w ++ [(path, ":START_ID,:END_ID,:TYPE" :: map rel_row rels)])
              (Dict.set "relationships" path (neo4j_files w))
  end.

(** [sample_dir] is [DATA_PATHS.get('sample_dir', './samples')], which the
    configuration takes from the environment. *)
Definition save_to_neo4j_format (sample_dir : string)
    (em : per_kind (Dict.t entity)) (rels : list relationship) : written :=
  let w := Written [] [] in
  let w := save_entities sample_dir User "users.csv"
             "id:ID,label,views,purchases,follows,:LABEL" user_row em w in
  let w := save_entities sample_dir Product "products.csv"
             "id:ID,label,:LABEL" (node_row "Product") em w in
  let w := save_entities sample_dir Category "categories.csv"
             "id:ID,label,:LABEL" (node_row "Category") em w in
  let w := save_entities sample_dir Brand "brands.csv"
             "id:ID,label,:LABEL" (node_row "Brand") em w in
  let w := save_entities sample_dir Scene "scenes.csv"
             "id:ID,label,:LABEL" (node_row "Scene") em w in
  save_relationships sample_dir rels w.

(** *** The sampling loop of [process_large_nt_file] *)

(** The local variables of the loop. *)
Record loop_state : Type := LoopState {
  line_count : Z;
  valid_line_count : Z;
  chunk_count : Z;
  chunk_line_count : Z;
  sampled_triples : list string;
  current_chunk : list string;
  graph : store }.

Definition init_loop : loop_state := LoopState 0 0 0 0 [] [] init_store.

Section Run.

Variables (chunk_size sample_size : Z) (random_sample : bool).

(** The random source: [randint n] is the value that
    [random.randint(0, n - 1)] returns while the [n]-th valid line is
    processed (the call is made at most once per valid line, with
    [n = valid_line_count]); it lies between [0] and [n - 1]. *)
Variable randint : Z -> Z.

(** [sampled_triples.append(line); current_chunk.append(line);
    chunk_line_count += 1], after [valid_line_count += 1]. *)
Definition sample_append (line : string) (ls : loop_state) : loop_state :=
  LoopState (line_count ls) (valid_line_count ls) (chunk_count ls)
            (chunk_line_count ls + 1)
            (sampled_triples ls ++ [line]) (current_chunk ls ++ [line])
            (graph ls).

(** [sampled_triples[j] = line; current_chunk.append(line);
    chunk_line_count += 1] *)
Definition sample_replace (j : Z) (line : string) (ls : loop_state)
  : loop_state :=
  LoopState (line_count ls) (valid_line_count ls) (chunk_count ls)
            (chunk_line_count ls + 1)
            (<[Z.to_nat j := line]> (sampled_triples ls))
            (current_chunk ls ++ [line]) (graph ls).

(** The end of the loop body: process the chunk once it is full. *)
Definition flush_chunk (ls : loop_state) : loop_state :=
  if chunk_line_count ls >=? chunk_size then
    LoopState (line_count ls) (valid_line_count ls) (chunk_count ls + 1) 0
              (sampled_triples ls) []
              (process_chunk (current_chunk ls) (graph ls))
  else ls.

(** One iteration on the raw line [raw]; the boolean is [true] when the
    iteration leaves the loop by [break]. *)
Definition loop_body (raw : string) (ls0 : loop_state)
  : loop_state * bool :=
  let ls :=
    LoopState (line_count ls0 + 1) (valid_line_count ls0) (chunk_count ls0)
              (chunk_line_count ls0) (sampled_triples ls0)
              (current_chunk ls0) (graph ls0) in
  let line := PyStr.strip raw in
  if PyStr.is_empty line || PyStr.startswith "#" line then (ls, false)
  else
    let ls :=
      LoopState (line_count ls) (valid_line_count ls + 1) (chunk_count ls)
                (chunk_line_count ls) (sampled_triples ls)
                (current_chunk ls) (graph ls) in
    if random_sample then
      if Z.of_nat (length (sampled_triples ls)) <? sample_size then
        (flush_chunk (sample_append line ls), false)
      else
        let j := randint (valid_line_count ls) in
        let ls := if j <? sample_size then sample_replace j line ls
                  else ls in
        if valid_line_count ls >=? sample_size * 10 then (ls, true)
        else (flush_chunk ls, false)
    else
      if Z.of_nat (length (sampled_triples ls)) <? sample_size then
        (flush_chunk (sample_append line ls), false)
      else (ls, true).

(** [for line in f: ...] *)
Fixpoint run_loop (lines : list string) (ls : loop_state) : loop_state :=
  match lines with
  | [] => ls
  | raw :: rest =>
      let '(ls', stop) := loop_body raw ls in
      if stop then ls' else run_loop rest ls'
  end.

(** The last, incomplete chunk. *)
Definition last_chunk (ls : loop_state) : loop_state :=
  match current_chunk ls with
  | [] => ls
  | chunk =>
      LoopState (line_count ls) (valid_line_count ls) (chunk_count ls + 1)
                (chunk_line_count ls) (sampled_triples ls) chunk
                (process_chunk chunk (graph ls))
  end.

(** What a run leaves behind: the lines written to [output_file], the
    files of [save_to_neo4j_format] and the final value of the loop
    variables. *)
Record result : Type := Result {
  output_lines : list string;
  neo4j : written;
  final : loop_state }.

(** [process_large_nt_file] on a file that holds [lines].  Opening and
    writing files do not fail in the model, so the [except] branch of the
    function is not reached. *)
Definition process_large_nt_file (sample_dir : string)
    (lines : list string) : result :=
  let ls := last_chunk (run_loop lines init_loop) in
  Result (sampled_triples ls)
         (save_to_neo4j_format sample_dir (entity_map (graph ls))
                               (relationships (graph ls)))
         ls.

End Run.

End NT.

(** ** The JSON-LD pipeline ([src/process_tbox_jsonld.py]) *)

Module TBox.

(** A value produced by [json.load] / [json.loads].  Numbers are the
    integers (floating-point numbers are not modelled); a JSON object is an
    association list with unique keys. *)
#[warnings="-register-all"] Inductive json : Type :=
| JNull
| JBool (b : bool)
| JNum (z : Z)
| JStr (s : string)
| JArr (items : list json)
| JObj (members : list (string * json)).

Inductive exn : Type :=
| TypeError | AttributeError | ValueError | ZeroDivisionError
| JSONDecodeError | OtherError (msg : string).

(** [bool(v)] *)
Definition truthy (v : json) : bool :=
  match v with
  | JNull => false
  | JBool b => b
  | JNum z => negb (z =? 0)
  | JStr s => negb (PyStr.is_empty s)
  | JArr l => match l with [] => false | _ => true end
  | JObj l => match l with [] => false | _ => true end
  end.

(** Lists and dictionaries cannot be hashed: using one as a set element or
    a dictionary key raises [TypeError]. *)
Definition hashable (v : json) : bool :=
  match v with JArr _ | JObj _ => false | _ => true end.

(** [a == b] on hashable values ([True == 1] and [False == 0]). *)
Definition key_eqb (a b : json) : bool :=
  let num v := match v with
               | JBool b => Some (if b then 1 else 0)
               | JNum z => Some z
               | _ => None
               end in
  match a, b with
  | JNull, JNull => true
  | JStr x, JStr y => String.eqb x y
  | _, _ => match num a, num b with
            | Some x, Some y => x =? y
            | _, _ => false
            end
  end.

(** [item.get(key)] and [key in item] on the members of an object. *)
Definition member (key : string) (members : list (string * json))
  : option json := Dict.get key members.

(** A dictionary keyed by URIs as they come out of the document. *)
Definition jdict (A : Type) : Type := list (json * A).

Fixpoint jget {A} (k : json) (d : jdict A) : option A :=
  match d with
  | [] => None
  | (k', v) :: d' => if key_eqb k' k then Some v else jget k d'
  end.

Fixpoint jset {A} (k : json) (v : A) (d : jdict A) : jdict A :=
  match d with
  | [] => [(k, v)]
  | (k', v') :: d' =>
      if key_eqb k' k then (k', v) :: d' else (k', v') :: jset k v d'
  end.

(** An entry of [entity_mapping]; [property_type] is present on properties
    only. *)
Record node_info : Type := NodeInfo {
  id : string;
  uri : json;
  name : json;
  label : json;
  description : json;
  property_type : option json }.

Record relationship : Type := Relationship {
  from_id : string;
  to_id : string;
  type : string;
  rel_uri : option string }.

Record counts : Type := Counts {
  class : nat; concept : nat; property : nat;
  subclass_relation : nat; broader_relation : nat;
  subproperty_relation : nat; other_relation : nat }.

Record mapping : Type := Mapping {
  classes : jdict node_info;
  concepts : jdict node_info;
  properties : jdict node_info }.

(** The attributes of a [TBoxProcessor] that processing mutates;
    [processed_uris] is a set, kept as the list of its elements. *)
Record processor : Type := Processor {
  entity_counts : counts;
  entity_mapping : mapping;
  relationships : list relationship;
  processed_uris : list json }.

Definition init : processor :=
  Processor (Counts 0 0 0 0 0 0 0) (Mapping [] [] []) [] [].

(** *** Methods as state transformers that may raise *)

Inductive outcome (A : Type) : Type :=
| Ok (a : A)
| Raise (e : exn).
Arguments Ok {A}.
Arguments Raise {A}.

(** A method body: it returns or raises, and in both cases leaves the
    processor as mutated so far. *)
Definition M (A : Type) : Type := processor -> outcome A * processor.

Definition ret {A} (a : A) : M A := fun p => (Ok a, p).
Definition raise {A} (e : exn) : M A := fun p => (Raise e, p).
Definition bind {A B} (m : M A) (f : A -> M B) : M B :=
  fun p => match m p with
           | (Ok a, p') => f a p'
           | (Raise e, p') => (Raise e, p')
           end.
Definition get : M processor := fun p => (Ok p, p).
Definition put (p : processor) : M unit := fun _ => (Ok tt, p).

(** [try: m except Exception: pass] *)
Definition try_ (m : M unit) : M unit :=
  fun p => match m p with
           | (Ok _, p') => (Ok tt, p')
           | (Raise _, p') => (Ok tt, p')
           end.

#[export] Instance M_ret : MRet M := @ret.
#[export] Instance M_bind : MBind M := fun A B f m => bind m f.

(** [for x in l: body(x)] *)
Fixpoint for_each {A} (body : A -> M unit) (l : list A) : M unit :=
  match l with
  | [] => ret tt
  | x :: rest => body x ;; for_each body rest
  end.

(** The value looked up under the first key of [keys] that [item] has:
    [v['@value']] when it is an object with that member, [v] when it is a
    string, [None] otherwise (the loops over [label_key] and [desc_key]). *)
Fixpoint first_text (keys : list string) (item : list (string * json))
  : json :=
  match keys with
  | [] => JNull
  | key :: rest =>
      match member key item with
      | Some (JObj m) =>
          match member "@value" m with Some v => v | None => JNull end
      | Some (JStr s) => JStr s
      | Some _ => JNull
      | None => first_text rest item
      end
  end.

(** [any(t in names for t in types)]; iterating over [None], a boolean or a
    number raises [TypeError], iterating over an object yields its keys. *)
Definition any_type_in (names : list string) (types : json) : M bool :=
  let is_name (t : json) :=
    match t with
    | JStr s => existsb (String.eqb s) names
    | _ => false
    end in
  match types with
  | JArr l => ret (existsb is_name l)
  | JObj m => ret (existsb (fun kv => existsb (String.eqb (fst kv)) names) m)
  | JStr s => ret (existsb (fun c => existsb (String.eqb (String c EmptyString)) names)
                           (list_ascii_of_string s))
  | _ => raise TypeError
  end.

Definition _process_class (uri : json) (item : list (string * json))
    (label : json) : M string :=
  p ← get;
  if negb (hashable uri) then raise TypeError else
  match jget uri (classes (entity_mapping p)) with
  | Some info => ret (id info)
  | None =>
      let class_id := "class_" ++ PyStr.of_nat (class (entity_counts p)) in
      let c := entity_counts p in
      let p1 :=
        Processor (Counts (S (class c)) (concept c) (property c)
                          (subclass_relation c) (broader_relation c)
                          (subproperty_relation c) (other_relation c))
                  (entity_mapping p) (relationships p) (processed_uris p) in
      put p1;;
      let description :=
        first_text ["rdfs:comment";
                    "http://www.w3.org/2000/01/rdf-schema#comment"] item in
      class_name ←
        (if truthy label then ret label
         else match uri with
              | JStr u =>
                  let class_name := PyStr.after_last "/" u in
                  ret (JStr (if PyStr.mem_char "#" class_name
                             then PyStr.after_last "#" class_name
                             else class_name))
              | _ => raise AttributeError
              end);
      let m := entity_mapping p1 in
      put (Processor (entity_counts p1)
                     (Mapping (jset uri (NodeInfo class_id uri class_name
                                                  label description None)
                                    (classes m))
                              (concepts m) (properties m))
                     (relationships p1) (processed_uris p1));;
      ret class_id
  end.

Section Processor.

(** The three methods that [_process_jsonld_item] calls and that no file
    under src/ defines.  They are parameters of the model: each may
    mutate the processor in any way and may raise. *)
Variable _process_concept : json -> list (string * json) -> json -> M unit.
Variable _process_property : json -> list (string * json) -> json -> M unit.
Variable _process_relationships : json -> list (string * json) -> M unit.

Definition class_types : list string :=
  ["owl:Class"; "http://www.w3.org/2002/07/owl#Class"].
Definition concept_types : list string :=
  ["skos:Concept"; "http://www.w3.org/2004/02/skos/core#Concept"].
Definition property_types : list string :=
  ["rdf:Property"; "owl:ObjectProperty"; "owl:DatatypeProperty"].
Definition label_keys : list string :=
  ["rdfs:label"; "http://www.w3.org/2000/01/rdf-schema#label";
   "skos:prefLabel"].

Definition _process_jsonld_item (item : json) : M unit :=
  match item with
  | JObj members =>
      let uri := match member "@id" members with
                 | Some v => v
                 | None => JNull
                 end in
      if negb (truthy uri) then ret tt
      else if negb (hashable uri) then raise TypeError
      else
        p ← get;
        if existsb (key_eqb uri) (processed_uris p) then ret tt
        else
          put (Processor (entity_counts p) (entity_mapping p)
                         (relationships p) (processed_uris p ++ [uri]));;
          let types := match member "@type" members with
                       | Some v => v
                       | None => JArr []
                       end in
          let types := match types with
                       | JStr s => JArr [JStr s]
                       | _ => types
                       end in
          let label := first_text label_keys members in
          is_class ← any_type_in class_types types;
          (if is_class : bool then
             _process_class uri members label;; ret tt
           else
             is_concept ← any_type_in concept_types types;
             if is_concept : bool then
               _process_concept uri members label
             else
               is_property ← any_type_in property_types types;
               if is_property : bool then
                 _process_property uri members label
               else ret tt);;
          _process_relationships uri members
  | _ => ret tt
  end.

(** *** Vocabulary of a whole document *)

(** [random.sample(population, k)] for [0 <= k <= len(population)]; the
    library returns [k] elements of the population. *)
Variable random_sample_of : list json -> nat -> list json.

(** The sampling step of [_process_jsonld_graph]: the items that the
    loop [for item in graph_data] will visit.  [random.sample] raises
    [ValueError] on a negative sample size. *)
Definition sample_graph (graph_data : list json) (sample_size : Z)
    (random_sample : bool) : outcome (list json) :=
  let len := Z.of_nat (length graph_data) in
  if random_sample then
    if len >? sample_size then
      if sample_size <? 0 then Raise ValueError
      else Ok (random_sample_of graph_data (Z.to_nat sample_size))
    else Ok graph_data
  else if (sample_size >? 0) && (len >? sample_size) then
    Ok (firstn (Z.to_nat sample_size) graph_data)
  else Ok graph_data.

Definition _process_jsonld_graph (graph_data : list json)
    (sample_size : Z) (random_sample : bool) : M unit :=
  match graph_data with
  | [] => ret tt
  | _ =>
      match sample_graph graph_data sample_size random_sample with
      | Raise e => raise e
      | Ok graph_data => for_each _process_jsonld_item graph_data
      end
  end.

(** *** Vocabulary during line reconstruction *)

(** [json.loads]: [None] when it raises. *)
Variable json_loads : string -> option json.

(** The random source of [random.random()]: the draw made while the
    [n]-th reconstructed item is considered is [random_bits n / 2^53].
    The comparison with [sample_size / (item_count + sample_size)] is
    made on the exact quotient (the rounding of the division to a float
    is not modelled). *)
Variable random_bits : Z -> Z.

Definition random_below (n sample_size : Z) : outcome bool :=
  let d := n + sample_size in
  if d =? 0 then Raise ZeroDivisionError
  else if d >? 0 then Ok (random_bits n * d <? sample_size * 2 ^ 53)
  else Ok (random_bits n * d >? sample_size * 2 ^ 53).

(** The local variables of [_process_large_jsonld_file], with the
    processor. *)
Record scan : Type := Scan {
  in_graph : bool;
  current_item : string;
  item_count : Z;
  sampled_count : Z;
  self : processor }.

Definition init_scan (p : processor) : scan := Scan false "" 0 0 p.

(** The body of the two [try] blocks: parse the accumulated text, count
    the item and pass it to [_process_jsonld_item] if it is sampled.  An
    exception leaves the block; what was assigned before stays.  (The
    progress message of the second block, which only logs, is left
    out.) *)
Definition try_item (sample_size : Z) (random_sample : bool) (sc : scan)
  : scan :=
  match json_loads ("{" ++ PyStr.rstrip_chars "," (current_item sc) ++ "}")
  with
  | None => sc
  | Some item_json =>
      let n := item_count sc + 1 in
      let sc := Scan (in_graph sc) (current_item sc) n (sampled_count sc)
                     (self sc) in
      let sampled :=
        if random_sample then random_below n sample_size
        else Ok (sampled_count sc <? sample_size) in
      match sampled with
      | Raise _ => sc
      | Ok false => sc
      | Ok true =>
          match _process_jsonld_item item_json (self sc) with
          | (Ok _, p) =>
              Scan (in_graph sc) (current_item sc) n (sampled_count sc + 1)
                   p
          | (Raise _, p) =>
              Scan (in_graph sc) (current_item sc) n (sampled_count sc) p
          end
      end
  end.

Definition graph_start : string := PyStr.dq ++ "@graph" ++ PyStr.dq ++ " : [".

Definition set_item (text : string) (sc : scan) : scan :=
  Scan (in_graph sc) text (item_count sc) (sampled_count sc) (self sc).

(** One iteration of the loop over the lines of the file. *)
Definition scan_line (sample_size : Z) (random_sample : bool)
    (raw : string) (sc : scan) : scan :=
  let line := PyStr.strip raw in
  if PyStr.contains graph_start line then
    Scan true (current_item sc) (item_count sc) (sampled_count sc) (self sc)
  else if in_graph sc && String.eqb line "]" then
    let sc := Scan false (current_item sc) (item_count sc)
                   (sampled_count sc) (self sc) in
    if PyStr.is_empty (current_item sc) then sc
    else set_item "" (try_item sample_size random_sample sc)
  else if in_graph sc then
    if PyStr.startswith "  {" line then
      let sc := if PyStr.is_empty (current_item sc) then sc
                else set_item "" (try_item sample_size random_sample sc) in
      set_item (PyStr.slice_2 line) sc
    else set_item (current_item sc ++ line) sc
  else sc.

Definition _process_large_jsonld_file (sample_size : Z)
    (random_sample : bool) (lines : list string) (p : processor) : scan :=
  fold_left (fun sc raw => scan_line sample_size random_sample raw sc)
            lines (init_scan p).

(** *** The writer and the entry point *)

(** [v or ''] *)
Definition or_empty (v : json) : json :=
  if truthy v then v else JStr "".

(** A file written through [csv.writer]: its rows as lists of fields (the
    quoting of the fields is not modelled). *)
Definition csv_file : Type := string * list (list json).

Definition node_rows (with_type : bool) (label_name : string)
    (d : jdict node_info) : list (list json) :=
  map (fun kv : json * node_info =>
         let info := snd kv in
         ([JStr (id info); uri info; name info; or_empty (label info);
           or_empty (description info)]
          ++ (if with_type
              then [match property_type info with
                    | Some t => t
                    | None => JStr ""
                    end]
              else [])
          ++ [JStr label_name])%list) d.

Definition node_header (with_type : bool) : list json :=
  map JStr (["id:ID"; "uri"; "name"; "label"; "description"]
            ++ (if with_type then ["property_type"] else [])
            ++ [":LABEL"])%list.

Definition save_nodes (output_dir file_name key label_name : string)
    (with_type : bool) (d : jdict node_info)
    (w : list csv_file * Dict.t string) : list csv_file * Dict.t string :=
  match d with
  | [] => w
  | _ =>
      let path := NT.path_join output_dir file_name in
      ((fst w ++ [(path, node_header with_type
                           :: node_rows with_type label_name d)])%list,
       Dict.set key path (snd w))
  end.

Definition _save_to_csv (output_dir : string) (p : processor)
  : list csv_file * Dict.t string :=
  let w := ([], []) in
  let w := save_nodes output_dir "tbox_classes.csv" "classes" "Class" false
             (classes (entity_mapping p)) w in
  let w := save_nodes output_dir "tbox_brands.csv" "concepts" "Concept"
             false (concepts (entity_mapping p)) w in
  let w := save_nodes output_dir "tbox_properties.csv" "properties"
             "Property" true (properties (entity_mapping p)) w in
  match relationships p with
  | [] => w
  | rels =>
      let path := NT.path_join output_dir "tbox_relationships.csv" in
      ((fst w ++ [(path,
                   map JStr [":START_ID"; ":END_ID"; ":TYPE"; "uri"]
                   :: map (fun rel =>
                             map JStr [from_id rel; to_id rel; type rel;
                                       match rel_uri rel with
                                       | Some u => u
                                       | None => ""
                                       end]) rels)])%list,
       Dict.set "relationships" path (snd w))
  end.

(** The document handed to [process_jsonld_file]: below the size
    threshold it is parsed at once, and is a JSON object whose [@graph]
    member, when present, is an array; above it the file is scanned line
    by line. *)
Inductive document : Type :=
| Whole (graph : option (list json))
| Lines (lines : list string).

(** [process_jsonld_file] returns [(output_file, neo4j_files)] after
    writing the files, or [(None, {})], with nothing written, when an
    exception reaches its [except] clause. *)
Definition process_jsonld_file (output_dir : string) (doc : document)
    (sample_size : Z) (random_sample : bool) (p : processor)
  : option (list csv_file * Dict.t string) * processor :=
  let '(res, p') :=
    match doc with
    | Whole (Some graph_data) =>
        _process_jsonld_graph graph_data sample_size random_sample p
    | Whole None => (Ok tt, p)
    | Lines lines =>
        (Ok tt,
         self (_process_large_jsonld_file sample_size random_sample lines p))
    end in
  match res with
  | Ok _ => (Some (_save_to_csv output_dir p'), p')
  | Raise _ => (None, p')
  end.

End Processor.

End TBox.

(** ** Vocabulary of the statements *)

Module Vocabulary.

Import NT.

(** A line reaches the sampler when, once stripped, it is neither empty
    nor a comment. *)
Definition is_valid (line : string) : bool :=
  negb (PyStr.is_empty line || PyStr.startswith "#" line).

(** The valid lines of a file, stripped, in stream order. *)
Definition valid_lines (lines : list string) : list string :=
  List.filter is_valid (map PyStr.strip lines).

(** [x in l] *)
Definition mem (x : string) (l : list string) : bool :=
  existsb (String.eqb x) l.

(** Number of elements of [l] that satisfy [p]. *)
Definition count {A} (p : A -> bool) (l : list A) : nat :=
  length (List.filter p l).

(** The reservoir as a function of the valid lines alone: [n] valid lines
    have been seen and [r] is the reservoir; the early stop is left out. *)
Fixpoint reservoir (k : Z) (randint : Z -> Z) (n : Z) (vs r : list string)
  : list string :=
  match vs with
  | [] => r
  | v :: vs' =>
      if Z.of_nat (length r) <? k then
        reservoir k randint (n + 1) vs' (r ++ [v])
      else
        let j := randint (n + 1) in
        reservoir k randint (n + 1) vs'
                  (if j <? k then <[Z.to_nat j := v]> r else r)
  end.

(** All the sequences of draws that a run can make on the valid lines
    [k + 1 .. k + m]: the draw for line [n] ranges over [0 .. n - 1]. *)
Fixpoint all_draws (k m : nat) : list (list Z) :=
  match m with
  | O => [[]]
  | S m' =>
      flat_map (fun ds => map (fun j => (ds ++ [Z.of_nat j])%list)
                              (seq 0 (k + m' + 1)))
               (all_draws k m')
  end.

(** The random source that makes the draws [ds], in order, from valid
    line [k + 1] on (no draw is made before). *)
Definition draws_oracle (k : Z) (ds : list Z) : Z -> Z :=
  fun n => if n <=? k then 0 else nth (Z.to_nat (n - k - 1)) ds 0.

(** The entity type that the chain of tests of [process_triple] selects
    for the object of a typing triple. *)
Definition classify (obj : string) : option (kind * string) :=
  if PyStr.contains "User" obj then Some (User, "user_")
  else if PyStr.contains "Product" obj then Some (Product, "product_")
  else if PyStr.contains "Category" obj then Some (Category, "category_")
  else if PyStr.contains "Brand" obj then Some (Brand, "brand_")
  else if PyStr.contains "Scene" obj then Some (Scene, "scene_")
  else if PyStr.contains "Crowd" obj then Some (Crowd, "crowd_")
  else if PyStr.contains "Time" obj then Some (Time, "time_")
  else if PyStr.contains "Theme" obj then Some (Theme, "theme_")
  else if PyStr.contains "Market" obj then Some (Market, "market_")
  else if PyStr.contains "PlaceOfOrigin" obj then
    Some (PlaceOfOrigin, "placeOfOrigin_")
  else None.

(** Some record of the entity map has the identifier [i]. *)
Definition has_id (i : string) (em : per_kind (Dict.t entity)) : Prop :=
  exists k uri e,
    Dict.get uri (pk_get k em) = Some e /\ NT.id e = i.

(** Every relationship of the store joins two identifiers of its entity
    map. *)
Definition rels_resolved (st : store) : Prop :=
  forall r, In r (relationships st) ->
    has_id (from_id r) (entity_map st) /\ has_id (to_id r) (entity_map st).

(** One step of [reservoir] on a full reservoir of [kn] lines. *)
Definition replace_step (kn j : nat) (v : string) (r : list string)
  : list string :=
  if (j <? kn)%nat then <[j := v]> r else r.

(** The lines handed to [process_chunk] so far, chunk after chunk, are the
    sampled lines. *)
Definition chunks_are_sample (ls : loop_state) : Prop :=
  process_chunk (current_chunk ls) (graph ls)
  = process_chunk (sampled_triples ls) init_store.

End Vocabulary.

(** ** Stand-ins used by the closed examples *)

Module Demo.

Import TBox.

(** The three methods that src/ does not define, as methods that do
    nothing. *)
Definition no_node : json -> list (string * json) -> json -> M unit :=
  fun _ _ _ => ret tt.
Definition no_relationships : json -> list (string * json) -> M unit :=
  fun _ _ => ret tt.

(** A [random.sample] that picks the first [n] elements. *)
Definition first_n (population : list json) (n : nat) : list json :=
  firstn n population.

(** The text of a member [key : 1] between the lines that open and close
    the graph array, and [json.loads] on the one object the examples
    parse. *)
Definition member_line : string := PyStr.dq ++ "a" ++ PyStr.dq ++ " : 1".
Definition loads (text : string) : option json :=
  if String.eqb text ("{" ++ member_line ++ "}")
  then Some (JObj [("a", JNum 1)]) else None.

(** A random source whose every draw is [0.0]. *)
Definition zero_bits : Z -> Z := fun _ => 0.

(** The two lines of scenario A. *)
Definition user_line : string :=
  "<http://ex/u1> <http://ex/type> <http://schema/User> .".
Definition name_line : string :=
  "<http://ex/u1> <http://ex/name> " ++ PyStr.dq ++ "Alice" ++ PyStr.dq
  ++ " .".

(** Items whose [@type] is [null], the text of one between the lines
    that open and close the graph array, [json.loads] on the three objects
    that the example parses, and a file with three graph arrays of one
    such item each. *)
Definition null_item (uri : string) : json :=
  JObj [("@id", JStr uri); ("@type", JNull)].
Definition null_line (uri : string) : string :=
  PyStr.dq ++ "@id" ++ PyStr.dq ++ " : " ++ PyStr.dq ++ uri ++ PyStr.dq
  ++ ", " ++ PyStr.dq ++ "@type" ++ PyStr.dq ++ " : null".
Definition loads_null (text : string) : option json :=
  if String.eqb text ("{" ++ null_line "http://ex/a1" ++ "}")
  then Some (null_item "http://ex/a1")
  else if String.eqb text ("{" ++ null_line "http://ex/a2" ++ "}")
  then Some (null_item "http://ex/a2")
  else if String.eqb text ("{" ++ null_line "http://ex/a3" ++ "}")
  then Some (null_item "http://ex/a3")
  else None.
Definition null_file : list string :=
  [graph_start; null_line "http://ex/a1"; "]";
   graph_start; null_line "http://ex/a2"; "]";
   graph_start; null_line "http://ex/a3"; "]"].

End Demo.

(** ** Archive extraction ([ecommerce_kg_system/utils/rar_processor.py]
    and the stand-in class of [src/process_large_rar.py]) *)

Module Rar.

Section Archive.

(** The open archive: [namelist] is what [rf.namelist()] returns and
    [extract_ok file] tells whether [rf.extract(file, output_dir)] returns
    ([true]) or raises. *)
Variable namelist : list string.
Variable extract_ok : string -> bool.

(** [specific_files if specific_files else all_files], where [None] and
    the empty list are false, then the filter [f in all_files]. *)
Definition files_to_extract (specific_files : option (list string))
  : list string :=
  let all_files := namelist in
  let files :=
    match specific_files with
    | Some (f :: rest) => f :: rest
    | _ => all_files
    end in
  List.filter (fun f => Vocabulary.mem f all_files) files.

(** The loop of [RarProcessor.extract_rar] in the utility module: a file
    whose extraction raises is logged and the loop goes on.  The function
    returns [output_dir] in every case; the value here is its effect, the
    list of the files extracted, in order. *)
Definition extract_rar (specific_files : option (list string))
  : list string :=
  List.filter extract_ok (files_to_extract specific_files).

(** A loop of extractions without [try]: [None] when one of them raises. *)
Fixpoint extract_each (files : list string) : option (list string) :=
  match files with
  | [] => Some []
  | f :: rest =>
      if extract_ok f then
        match extract_each rest with
        | Some done => Some (f :: done)
        | None => None
        end
      else None
  end.

(** [extract_rar] of the stand-in class, defined when the package cannot
    be imported: the members among [specific_files] when that argument is
    true, [rf.extractall] (every member, in archive order) otherwise.  No
    exception is caught. *)
Definition fallback_extract_rar (specific_files : option (list string))
  : option (list string) :=
  match specific_files with
  | Some (f :: rest) =>
      extract_each (List.filter (fun f => Vocabulary.mem f namelist)
                                (f :: rest))
  | _ => extract_each namelist
  end.

End Archive.

End Rar.

(** ** Vocabulary of the further statements *)

Module Text.

(** Every character of [s] satisfies [p]. *)
Fixpoint all_chars (p : ascii -> bool) (s : string) : bool :=
  match s with
  | EmptyString => true
  | String c s' => p c && all_chars p s'
  end.

(** A character that is white space but not a line feed. *)
Definition is_blank (c : ascii) : bool :=
  PyStr.is_space c && NT.not_newline c.

End Text.

Module Lines.

(** The text of a triple line: subject and predicate in angle brackets and
    the object text [obj], separated by the white space [w1] and [w2], then
    one white-space character [c] and the final dot. *)
Definition triple_line (s w1 p w2 obj : string) (c : ascii) : string :=
  "<" ++ s ++ ">" ++ w1 ++ "<" ++ p ++ ">" ++ w2 ++ obj ++ String c ".".

(** A URI object, and a quoted literal followed by [suffix]. *)
Definition uri_object (o : string) : string := "<" ++ o ++ ">".
Definition literal_object (v suffix : string) : string :=
  PyStr.dq ++ v ++ PyStr.dq ++ suffix.

End Lines.

Module Runs.

Import NT.

(** Two states of the loop that differ at most in how the lines kept so
    far are split between the chunks already processed and the current
    chunk. *)
Definition same_progress (a b : loop_state) : Prop :=
  line_count a = line_count b
  /\ valid_line_count a = valid_line_count b
  /\ sampled_triples a = sampled_triples b
  /\ process_chunk (current_chunk a) (graph a)
     = process_chunk (current_chunk b) (graph b).

(** Once the current chunk is processed the graph is the graph of the
    lines [fed], and every sampled line is one of them. *)
Definition sample_processed (ls : loop_state) : Prop :=
  exists fed : list string,
    process_chunk (current_chunk ls) (graph ls)
    = process_chunk fed init_store
    /\ forall x, In x (sampled_triples ls) -> In x fed.

(** The counters agree with what they count, [n] lines into the file. *)
Definition counters_ok (n : nat) (ls : loop_state) : Prop :=
  0 <= valid_line_count ls
  /\ valid_line_count ls <= line_count ls
  /\ line_count ls <= Z.of_nat n
  /\ Z.of_nat (length (sampled_triples ls)) <= valid_line_count ls.

(** The number of valid lines after which a run has left the loop. *)
Definition read_bound (sample_size : Z) (random_sample : bool) : Z :=
  if random_sample then Z.max 1 (10 * sample_size)
  else Z.max 0 sample_size + 1.

(** What holds of the counters while the loop goes on. *)
Definition reading (sample_size : Z) (random_sample : bool)
    (ls : loop_state) : Prop :=
  0 <= valid_line_count ls
  /\ (if random_sample
      then (valid_line_count ls = 0
            \/ valid_line_count ls < 10 * sample_size)
           /\ (Z.of_nat (length (sampled_triples ls)) < sample_size ->
               valid_line_count ls
               <= Z.of_nat (length (sampled_triples ls)))
      else valid_line_count ls <= Z.of_nat (length (sampled_triples ls))
           /\ Z.of_nat (length (sampled_triples ls))
              <= Z.max 0 sample_size).

End Runs.

Module Numbering.

Import NT.

(** The records of type [k], in insertion order, carry the identifiers
    [prefix0], [prefix1], ... up to the counter of the type. *)
Definition numbered (k : kind) (prefix : string) (st : store) : Prop :=
  map NT.id (Dict.values (pk_get k (entity_map st)))
  = map (fun i => prefix ++ PyStr.of_nat i)
        (seq 0 (pk_get k (entity_counts st))).

End Numbering.

Module Ontology.

Import TBox.

(** [isinstance(v, str)] *)
Definition is_text (v : json) : bool :=
  match v with JStr _ => true | _ => false end.

(** The class records, in insertion order, carry the identifiers
    [class_0], [class_1], ... up to the class counter. *)
Definition classes_numbered (p : processor) : Prop :=
  map (fun kv : json * node_info => TBox.id (snd kv))
      (classes (entity_mapping p))
  = map (fun i => "class_" ++ PyStr.of_nat i)
        (seq 0 (class (entity_counts p))).

(** A line that opens the graph array. *)
Definition opens_graph (raw : string) : bool :=
  PyStr.contains (PyStr.dq ++ "@graph" ++ PyStr.dq ++ " : [")
                 (PyStr.strip raw).

(** What holds of the counters of the line scanner after [n] lines that
    open the graph array. *)
Definition scan_ok (n : nat) (sc : scan) : Prop :=
  0 <= sampled_count sc
  /\ sampled_count sc <= item_count sc
  /\ item_count sc + (if in_graph sc then 1 else 0) <= Z.of_nat n.

(** Every row of the file has as many fields as its first row, the
    header. *)
Definition rectangular (f : csv_file) : Prop :=
  Forall (fun row => length row = length (hd [] (snd f))) (snd f).

End Ontology.

(** ** The reservoir by position *)

Module Positions.

(** The reservoir by position: the steps of [Vocabulary.reservoir] on a
    stream of any type, used below on the positions [0 .. n-1] of the
    valid lines instead of their text. *)
Fixpoint reservoir_on {A} (k : Z) (randint : Z -> Z) (n : Z) (vs r : list A)
  : list A :=
  match vs with
  | [] => r
  | v :: vs' =>
      if Z.of_nat (length r) <? k then
        reservoir_on k randint (n + 1) vs' (r ++ [v])%list
      else
        let j := randint (n + 1) in
        reservoir_on k randint (n + 1) vs'
                     (if j <? k then <[Z.to_nat j := v]> r else r)
  end.

(** The positions, among [n] valid lines, of the lines that the slots of
    the reservoir hold at the end. *)
Definition positions (k : Z) (randint : Z -> Z) (n : nat) : list nat :=
  reservoir_on k randint 0 (seq 0 n) [].

(** Position [i] is held by some slot. *)
Definition holds (i : nat) (slots : list nat) : bool :=
  existsb (Nat.eqb i) slots.

End Positions.

(** ** The items handed to [_process_jsonld_item] by the line scanner *)

Module Handover.

Import TBox.

Section Log.

Variable _process_concept : json -> list (string * json) -> json -> M unit.
Variable _process_property : json -> list (string * json) -> json -> M unit.
Variable _process_relationships : json -> list (string * json) -> M unit.
Variable json_loads : string -> option json.
Variable random_bits : Z -> Z.

(** The call [self._process_jsonld_item(item_json)] that the body of a
    [try] block makes from the state [sc], if it makes one: the item, and
    [true] when the call returns, [false] when it raises. *)
Definition handed (sample_size : Z) (random_sample : bool) (sc : scan)
  : option (json * bool) :=
  match json_loads ("{" ++ PyStr.rstrip_chars "," (current_item sc) ++ "}")
  with
  | None => None
  | Some item_json =>
      let n := item_count sc + 1 in
      let sampled :=
        if random_sample then random_below random_bits n sample_size
        else Ok (sampled_count sc <? sample_size) in
      match sampled with
      | Ok true =>
          Some (item_json,
                match _process_jsonld_item _process_concept _process_property
                        _process_relationships item_json (self sc) with
                | (Ok _, _) => true
                | (Raise _, _) => false
                end)
      | _ => None
      end
  end.

(** The call that one iteration of the loop over the lines makes, if
    any: the [try] blocks are entered at the closing bracket and at the
    start of an item, with a non-empty [current_item]. *)
Definition handed_on_line (sample_size : Z) (random_sample : bool)
    (raw : string) (sc : scan) : option (json * bool) :=
  let line := PyStr.strip raw in
  if PyStr.contains graph_start line then None
  else if in_graph sc && String.eqb line "]" then
    if PyStr.is_empty (current_item sc) then None
    else handed sample_size random_sample
                (Scan false (current_item sc) (item_count sc)
                      (sampled_count sc) (self sc))
  else if in_graph sc then
    if PyStr.startswith "  {" line then
      if PyStr.is_empty (current_item sc) then None
      else handed sample_size random_sample sc
    else None
  else None.

(** The calls of [_process_jsonld_item] that a run of the line scanner
    makes, in order. *)
Fixpoint handed_items (sample_size : Z) (random_sample : bool)
    (lines : list string) (sc : scan) : list (json * bool) :=
  match lines with
  | [] => []
  | raw :: rest =>
      (match handed_on_line sample_size random_sample raw sc with
       | Some h => [h]
       | None => []
       end
       ++ handed_items sample_size random_sample rest
            (scan_line _process_concept _process_property
                       _process_relationships json_loads random_bits
                       sample_size random_sample raw sc))%list
  end.

(** What a call leaves of the processor, and what it adds to
    [sampled_count]. *)
Definition after (h : option (json * bool)) (p : processor) : processor :=
  match h with
  | Some (item, _) =>
      snd (_process_jsonld_item _process_concept _process_property
             _process_relationships item p)
  | None => p
  end.

Definition returned (h : option (json * bool)) : Z :=
  match h with
  | Some (_, true) => 1
  | _ => 0
  end.

Definition apply_item (p : processor) (h : json * bool) : processor :=
  snd (_process_jsonld_item _process_concept _process_property
         _process_relationships (fst h) p).

End Log.

End Handover.

(** ** Class items *)

Module Items.
Import TBox.

(** An item typed as a class: its [@type] is one of [class_types], or a
    list that holds one of them. *)
Definition is_class_item (members : list (string * json)) : bool :=
  let is_class (t : json) :=
    match t with
    | JStr s => existsb (String.eqb s) class_types
    | _ => false
    end in
  match member "@type" members with
  | Some (JStr s) => is_class (JStr s)
  | Some (JArr l) => existsb is_class l
  | _ => false
  end.

End Items.

(** * Properties *)

Module TextFacts.

Import PyStr Text.
Local Open Scope string_scope.

Lemma append_assoc (a b c : string) : (a ++ b) ++ c = a ++ (b ++ c).
Proof. induction a as [|x a IH]; simpl; [reflexivity | now rewrite IH]. Qed.

Lemma is_empty_false (s : string) : is_empty s = false -> s <> "".
Proof. now destruct s. Qed.

Lemma take_append (a b : string) : take (String.length a) (a ++ b) = a.
Proof. induction a as [|x a IH]; simpl; [now destruct b | now rewrite IH]. Qed.

Lemma drop_append (a b : string) (k : nat) :
  drop (String.length a + k) (a ++ b) = drop k b.
Proof. induction a as [|x a IH]; simpl; [reflexivity | exact IH]. Qed.

Lemma drop_append_0 (a b : string) : drop (String.length a) (a ++ b) = b.
Proof.
  rewrite <- (Nat.add_0_r (String.length a)), drop_append. now destruct b.
Qed.

Lemma take_drop (n : nat) (s : string) : take n s ++ drop n s = s.
Proof.
  revert s. induction n as [|n IH]; intros [|c s]; simpl; try reflexivity.
  now rewrite IH.
Qed.

Lemma span_len_append (p : ascii -> bool) (a b : string) :
  all_chars p a = true ->
  span_len p (a ++ b) = (String.length a + span_len p b)%nat.
Proof.
  induction a as [|c a IH]; simpl; [reflexivity|].
  intros H. apply andb_true_iff in H. destruct H as [Hc Ha].
  now rewrite Hc, IH.
Qed.

Lemma span_len_le (p : ascii -> bool) (s : string) :
  (span_len p s <= String.length s)%nat.
Proof. induction s as [|c s IH]; simpl; [lia|]. destruct (p c); simpl; lia. Qed.

Lemma all_chars_append (p : ascii -> bool) (a b : string) :
  all_chars p (a ++ b) = all_chars p a && all_chars p b.
Proof.
  induction a as [|c a IH]; simpl; [reflexivity|].
  now rewrite IH, andb_assoc.
Qed.

Lemma all_chars_take (p : ascii -> bool) (n : nat) (s : string) :
  (n <= span_len p s)%nat -> all_chars p (take n s) = true.
Proof.
  revert s.
  induction n as [|n IH]; intros [|c s]; cbn [take all_chars span_len];
    intros H; try reflexivity.
  destruct (p c); [|lia]. apply IH. lia.
Qed.

Lemma take_nonempty (n : nat) (s : string) :
  (0 < n)%nat -> (n <= String.length s)%nat -> take n s <> "".
Proof.
  destruct n as [|n]; [lia|]. destruct s as [|c s]; cbn; [lia | discriminate].
Qed.

Lemma mem_char_append (c : ascii) (a b : string) :
  mem_char c (a ++ b) = mem_char c a || mem_char c b.
Proof.
  induction a as [|x a IH]; simpl; [reflexivity|].
  now rewrite IH, orb_assoc.
Qed.

Lemma mem_char_drop (c : ascii) (n : nat) (s : string) :
  mem_char c (drop n s) = true -> mem_char c s = true.
Proof.
  intros H. rewrite <- (take_drop n s), mem_char_append, H.
  apply orb_true_r.
Qed.

Lemma drop_last_snoc (s : string) (c : ascii) :
  drop_last (s ++ String c "") = s.
Proof.
  induction s as [|d s IH]; [reflexivity|].
  cbn [append drop_last]. rewrite IH.
  destruct s; reflexivity.
Qed.

Lemma endswith_snoc (s : string) (c d : ascii) :
  endswith (String d "") (s ++ String c "") = Ascii.eqb c d.
Proof.
  induction s as [|x s IH].
  - cbn [append endswith]. cbn [String.eqb].
    destruct (Ascii.eqb c d); reflexivity.
  - cbn [append endswith]. rewrite IH.
    replace (String.eqb (String x (s ++ String c "")) (String d "")) with false;
      [reflexivity|].
    cbn [String.eqb]. destruct (Ascii.eqb x d); [|reflexivity].
    destruct s; reflexivity.
Qed.

Lemma after_last_no_sep (sep : ascii) (s : string) :
  mem_char sep (after_last sep s) = false.
Proof.
  induction s as [|c s IH]; [reflexivity|].
  cbn [after_last]. destruct (mem_char sep s) eqn:E; [exact IH|].
  destruct (Ascii.eqb c sep) eqn:Ec; [exact E|].
  cbn [mem_char]. now rewrite Ascii.eqb_sym, Ec.
Qed.

Lemma after_last_suffix (sep : ascii) (s : string) :
  exists pre, s = pre ++ after_last sep s.
Proof.
  induction s as [|c s [pre IH]]; [now exists ""|].
  cbn [after_last]. destruct (mem_char sep s).
  - exists (String c pre). cbn [append]. now rewrite <- IH.
  - destruct (Ascii.eqb c sep).
    + now exists (String c "").
    + now exists "".
Qed.

Lemma upper_char_idem (c : ascii) : upper_char (upper_char c) = upper_char c.
Proof.
  destruct c as [[] [] [] [] [] [] [] []]; reflexivity.
Qed.

Lemma upper_idem (s : string) : upper (upper s) = upper s.
Proof.
  induction s as [|c s IH]; [reflexivity|].
  cbn [upper]. now rewrite upper_char_idem, IH.
Qed.

Lemma to_uint_nonnil (n : nat) : Nat.to_uint n <> Decimal.Nil.
Proof.
  intros H. pose proof (DecimalNat.Unsigned.of_to n) as E.
  rewrite H in E. cbn in E. subst n. discriminate H.
Qed.

(** [str] is injective on the natural numbers. *)
Lemma of_nat_inj (n m : nat) : of_nat n = of_nat m -> n = m.
Proof.
  unfold of_nat. intros H.
  apply DecimalNat.Unsigned.to_uint_inj.
  pose proof (NilZero.usu _ (to_uint_nonnil n)) as En.
  pose proof (NilZero.usu _ (to_uint_nonnil m)) as Em.
  rewrite H in En. congruence.
Qed.

Lemma append_inj_r (p a b : string) : p ++ a = p ++ b -> a = b.
Proof.
  induction p as [|c p IH]; cbn [append]; [auto|].
  intros H. inversion H. auto.
Qed.

Lemma NoDup_map_inj {A B} (f : A -> B) (l : list A) :
  (forall x y, f x = f y -> x = y) ->
  List.NoDup l -> List.NoDup (map f l).
Proof.
  intros Hinj. induction 1 as [|x l Hx Hl IH]; cbn [map]; constructor; auto.
  intros Hin. apply in_map_iff in Hin. destruct Hin as (y & Hy & Hin).
  apply Hinj in Hy. subst y. contradiction.
Qed.

(** Identifiers made of a prefix and a count are pairwise distinct. *)
Lemma numbered_ids_distinct (prefix : string) (n : nat) :
  List.NoDup (map (fun i => prefix ++ of_nat i) (seq 0 n)).
Proof.
  apply NoDup_map_inj; [|apply List.seq_NoDup].
  intros i j H. now apply of_nat_inj, (append_inj_r prefix).
Qed.

Lemma lstrip_head (p : ascii -> bool) (s : string) :
  lstrip_by p s = ""
  \/ exists c r, lstrip_by p s = String c r /\ p c = false.
Proof.
  induction s as [|c s IH]; [now left|].
  cbn [lstrip_by]. destruct (p c) eqn:E; [exact IH|].
  right. now exists c, s.
Qed.

(** A stripped line is empty or starts with a character that is no white
    space. *)
Lemma strip_head (s : string) :
  strip s = ""
  \/ exists c r, strip s = String c r /\ is_space c = false.
Proof.
  unfold strip, strip_by.
  destruct (lstrip_head is_space s) as [->|(c & r & -> & Hc)];
    [now left|].
  right. cbn [rstrip_by]. rewrite Hc, andb_false_r. eauto.
Qed.

Lemma strip_not_indented (raw : string) :
  startswith "  {" (strip raw) = false.
Proof.
  unfold startswith.
  destruct (strip_head raw) as [->|(c & r & -> & Hc)]; [reflexivity|].
  cbn [String.prefix]. destruct (ascii_dec " " c) as [<-|]; [|reflexivity].
  discriminate Hc.
Qed.

End TextFacts.

Module SamplingFacts.

Import NT Vocabulary.
Local Open Scope list_scope.

Lemma mem_true_iff x l : mem x l = true <-> In x l.
Proof.
  unfold mem. rewrite existsb_exists. split.
  - intros (y & Hy & E). apply String.eqb_eq in E. now subst.
  - intros H. exists x. split; [exact H | apply String.eqb_refl].
Qed.

Lemma mem_false_iff x l : mem x l = false <-> ~ In x l.
Proof.
  rewrite <- mem_true_iff. destruct (mem x l); split; intros; congruence.
Qed.

Lemma count_app {A} (p : A -> bool) l1 l2 :
  count p (l1 ++ l2) = (count p l1 + count p l2)%nat.
Proof. unfold count. now rewrite List.filter_app, length_app. Qed.

Lemma count_cons {A} (p : A -> bool) a l :
  count p (a :: l) = ((if p a then 1 else 0) + count p l)%nat.
Proof. unfold count. simpl. now destruct (p a). Qed.

Lemma count_ext {A} (p q : A -> bool) l :
  (forall x, In x l -> p x = q x) -> count p l = count q l.
Proof.
  unfold count. induction l as [|a l IH]; intros H; [reflexivity|].
  simpl. rewrite (H a) by now left.
  destruct (q a); simpl; rewrite IH; auto; intros; apply H; now right.
Qed.

Lemma count_true {A} (l : list A) : count (fun _ => true) l = length l.
Proof. unfold count. induction l; simpl; auto. Qed.

Lemma count_false {A} (l : list A) : count (fun _ => false) l = 0%nat.
Proof. unfold count. induction l; simpl; auto. Qed.

Lemma count_map {A B} (f : A -> B) (p : B -> bool) l :
  count p (map f l) = count (fun a => p (f a)) l.
Proof.
  unfold count. induction l as [|a l IH]; [reflexivity|].
  simpl. destruct (p (f a)); simpl; now rewrite IH.
Qed.

(** A sum of counts over the blocks of a [flat_map]. *)
Lemma count_flat_map {A B} (p : B -> bool) (f : A -> list B)
      (q : A -> bool) (c : nat) (l : list A) :
  (forall a, In a l -> count p (f a) = if q a then c else 0%nat) ->
  count p (flat_map f l) = (c * count q l)%nat.
Proof.
  induction l as [|a l IH]; intros H.
  - simpl. unfold count. simpl. lia.
  - simpl. rewrite count_app, (H a) by now left.
    rewrite IH by (intros; apply H; now right).
    assert (E : count q (a :: l)
                = ((if q a then 1 else 0) + count q l)%nat).
    { unfold count. simpl. now destruct (q a). }
    rewrite E. destruct (q a); lia.
Qed.

Lemma length_flat_map_const {A B} (f : A -> list B) (c : nat) (l : list A) :
  (forall a, In a l -> length (f a) = c) ->
  length (flat_map f l) = (c * length l)%nat.
Proof.
  induction l as [|a l IH]; intros H; simpl; [lia|].
  rewrite length_app, (H a) by now left.
  rewrite IH by (intros; apply H; now right). lia.
Qed.

(** Overwriting one slot of a duplicate-free reservoir [r] by a new line
    [v]: among the [length r] slots, the line [x <> v] survives in all but
    its own. *)
Lemma count_insert_slots (v x : string) (r : list string) :
  x <> v -> NoDup r ->
  count (fun j => mem x (<[j := v]> r)) (seq 0 (length r))
  = if mem x r then (length r - 1)%nat else 0%nat.
Proof.
  intros Hxv. induction r as [|a r IH]; intros Hnd; [reflexivity|].
  apply NoDup_cons in Hnd. destruct Hnd as [Ha Hnd].
  rewrite list_elem_of_In in Ha.
  cbn [length seq]. rewrite <- seq_shift, count_cons, count_map.
  change (mem x (<[0%nat:=v]> (a :: r))) with (String.eqb x v || mem x r).
  assert (Exv : String.eqb x v = false) by now apply String.eqb_neq.
  rewrite Exv. cbn [orb].
  rewrite (count_ext _ (fun j => String.eqb x a || mem x (<[j:=v]> r)))
    by reflexivity.
  change (mem x (a :: r)) with (String.eqb x a || mem x r).
  destruct (String.eqb x a) eqn:Exa.
  - apply String.eqb_eq in Exa. subst a.
    assert (Hm : mem x r = false) by now apply mem_false_iff.
    rewrite Hm. cbn [orb].
    rewrite count_true, length_seq. simpl. lia.
  - cbn [orb]. rewrite IH by exact Hnd.
    destruct (mem x r) eqn:Hm; simpl.
    + assert (0 < length r)%nat.
      { apply mem_true_iff in Hm. destruct r; [contradiction | simpl; lia]. }
      lia.
    + reflexivity.
Qed.

Lemma mem_insert_new (v : string) (r : list string) (j : nat) :
  (j < length r)%nat -> mem v (<[j := v]> r) = true.
Proof.
  intros H. apply mem_true_iff. apply list_elem_of_In.
  apply list_elem_of_lookup. exists j. now apply list_lookup_insert_eq.
Qed.

Lemma in_insert_inv (v x : string) (r : list string) (j : nat) :
  In x (<[j := v]> r) -> x = v \/ In x r.
Proof.
  revert j. induction r as [|a r IH]; intros j H; [now right|].
  destruct j as [|j]; simpl in H.
  - destruct H as [<-|H]; [now left | right; now right].
  - destruct H as [<-|H]; [right; now left|].
    destruct (IH j H) as [->|H']; [now left | right; now right].
Qed.

Lemma NoDup_insert_new (v : string) (r : list string) (j : nat) :
  NoDup r -> ~ In v r -> NoDup (<[j := v]> r).
Proof.
  revert j. induction r as [|a r IH]; intros j Hnd Hv; [constructor|].
  apply NoDup_cons in Hnd. destruct Hnd as [Ha Hnd].
  rewrite list_elem_of_In in Ha.
  destruct j as [|j]; simpl; apply NoDup_cons; split; auto.
  - rewrite list_elem_of_In. intros H. apply Hv. now right.
  - rewrite list_elem_of_In. intros H. apply in_insert_inv in H.
    destruct H as [->|H]; [apply Hv; now left | auto].
  - apply IH; auto. intros H. apply Hv. now right.
Qed.

Section Reservoir.

Variable kn : nat.
Let k : Z := Z.of_nat kn.

Local Abbreviation replace_step := (Vocabulary.replace_step kn).

Lemma reservoir_app randint n vs1 vs2 r :
  reservoir k randint n (vs1 ++ vs2) r
  = reservoir k randint (n + Z.of_nat (length vs1)) vs2
              (reservoir k randint n vs1 r).
Proof.
  revert n r. induction vs1 as [|v vs1 IH]; intros n r.
  - simpl. now rewrite Z.add_0_r.
  - cbn [app reservoir length].
    replace (n + Z.of_nat (S (length vs1)))
      with (n + 1 + Z.of_nat (length vs1)) by lia.
    destruct (Z.of_nat (length r) <? k); apply IH.
Qed.

Lemma reservoir_ext rand1 rand2 n vs r :
  (forall i, n < i <= n + Z.of_nat (length vs) -> rand1 i = rand2 i) ->
  reservoir k rand1 n vs r = reservoir k rand2 n vs r.
Proof.
  revert n r. induction vs as [|v vs IH]; intros n r H; [reflexivity|].
  cbn [reservoir]. cbn [length] in H.
  rewrite (H (n + 1)) by lia.
  destruct (Z.of_nat (length r) <? k); apply IH; intros; apply H; lia.
Qed.

Lemma reservoir_fill randint n vs r :
  (length r + length vs <= kn)%nat ->
  reservoir k randint n vs r = r ++ vs.
Proof.
  revert n r. induction vs as [|v vs IH]; intros n r H.
  - simpl. now rewrite app_nil_r.
  - cbn [reservoir]. cbn [length] in H.
    destruct (Z.ltb_spec (Z.of_nat (length r)) k) as [_|Hge];
      [|unfold k in Hge; lia].
    rewrite IH by (rewrite length_app; simpl; lia).
    now rewrite <- app_assoc.
Qed.

Lemma reservoir_length randint n vs r :
  (length r <= kn)%nat ->
  length (reservoir k randint n vs r)
  = Nat.min kn (length r + length vs).
Proof.
  revert n r. induction vs as [|v vs IH]; intros n r H.
  - simpl. lia.
  - cbn [reservoir length].
    destruct (Z.ltb_spec (Z.of_nat (length r)) k) as [Hlt|Hge];
      unfold k in *.
    + rewrite IH by (rewrite length_app; simpl; lia).
      rewrite length_app. simpl. lia.
    + destruct (randint (n + 1) <? Z.of_nat kn);
        rewrite IH; rewrite ?length_insert; lia.
Qed.

Lemma reservoir_sound randint n vs r :
  NoDup (r ++ vs) ->
  NoDup (reservoir k randint n vs r)
  /\ (forall x, In x (reservoir k randint n vs r) -> In x (r ++ vs)).
Proof.
  revert n r. induction vs as [|v vs IH]; intros n r Hnd.
  - simpl. rewrite app_nil_r in Hnd. split; [exact Hnd|].
    intros x Hx. rewrite app_nil_r. exact Hx.
  - cbn [reservoir].
    assert (Hsplit : NoDup r /\ ~ In v r /\ ~ In v vs /\ NoDup vs
                     /\ (forall y, In y r -> ~ In y vs)).
    { apply NoDup_app in Hnd. destruct Hnd as (Hr & Hdis & Hvs).
      apply NoDup_cons in Hvs. destruct Hvs as [Hv Hvs].
      rewrite list_elem_of_In in Hv.
      repeat split; auto.
      - intros Hin. apply (Hdis v); [now apply list_elem_of_In|].
        apply list_elem_of_In. now left.
      - intros y Hy Hin. apply (Hdis y); [now apply list_elem_of_In|].
        apply list_elem_of_In. now right. }
    destruct Hsplit as (Hr & Hvr & Hvvs & Hvs & Hdis).
    assert (Hstep : forall r', NoDup r' ->
               (forall y, In y r' -> In y r \/ y = v) ->
               NoDup (reservoir k randint (n + 1) vs r')
               /\ (forall x, In x (reservoir k randint (n + 1) vs r') ->
                             In x (r ++ v :: vs))).
    { intros r' Hr' Hsub.
      destruct (IH (n + 1) r') as [H1 H2].
      - apply NoDup_app. repeat split; auto.
        intros y Hy Hin. apply list_elem_of_In in Hy, Hin.
        destruct (Hsub y Hy) as [Hy' | ->]; [now apply (Hdis y)|auto].
      - split; [exact H1|]. intros x Hx. apply H2 in Hx.
        apply in_app_or in Hx. apply in_or_app.
        destruct Hx as [Hx|Hx]; [|right; now right].
        destruct (Hsub x Hx) as [Hx' | ->]; [now left | right; now left]. }
    destruct (Z.of_nat (length r) <? k).
    + apply Hstep.
      * apply NoDup_app. repeat split; auto.
        -- intros y Hy Hin. apply list_elem_of_In in Hy.
           apply list_elem_of_In in Hin. destruct Hin as [<-|[]]. auto.
        -- apply NoDup_singleton.
      * intros y Hy. apply in_app_or in Hy.
        destruct Hy as [Hy|[<-|[]]]; auto.
    + destruct (randint (n + 1) <? k).
      * apply Hstep.
        -- apply NoDup_insert_new; auto.
        -- intros y Hy. apply in_insert_inv in Hy.
           destruct Hy as [Hy | Hy]; [now right | now left].
      * apply Hstep; auto.
Qed.

Lemma all_draws_length m ds :
  In ds (all_draws kn m) -> length ds = m.
Proof.
  revert ds. induction m as [|m IH]; intros ds H.
  - simpl in H. destruct H as [<-|[]]. reflexivity.
  - simpl in H. apply in_flat_map in H. destruct H as (ds0 & H0 & H).
    apply in_map_iff in H. destruct H as (j & <- & _).
    rewrite length_app, (IH _ H0). simpl. lia.
Qed.

Lemma length_all_draws_S m :
  length (all_draws kn (S m))
  = ((kn + m + 1) * length (all_draws kn m))%nat.
Proof.
  simpl. apply length_flat_map_const.
  intros ds _. now rewrite length_map, length_seq.
Qed.

(** The reservoir after one more line [v], drawn [j], from the reservoir
    of the draws [ds] on the lines before. *)
Lemma reservoir_snoc m ds j vs0 v :
  length ds = m -> length vs0 = (kn + m)%nat ->
  reservoir k (draws_oracle k (ds ++ [Z.of_nat j])) 0 (vs0 ++ [v]) []
  = replace_step j v (reservoir k (draws_oracle k ds) 0 vs0 []).
Proof.
  intros Hds Hvs. rewrite reservoir_app.
  rewrite (reservoir_ext (draws_oracle k (ds ++ [Z.of_nat j]))
                         (draws_oracle k ds) 0 vs0).
  - cbn [reservoir].
    rewrite reservoir_length by (simpl; lia). rewrite Hvs.
    replace (Nat.min kn (length (@nil string) + (kn + m))) with kn
      by (simpl; lia).
    unfold k at 1. rewrite Z.ltb_irrefl.
    assert (E : draws_oracle k (ds ++ [Z.of_nat j])
                             (0 + Z.of_nat (kn + m) + 1) = Z.of_nat j).
    { unfold draws_oracle, k.
      destruct (Z.leb_spec (0 + Z.of_nat (kn + m) + 1) (Z.of_nat kn));
        [lia|].
      replace (Z.to_nat (0 + Z.of_nat (kn + m) + 1 - Z.of_nat kn - 1))
        with (length ds) by lia.
      rewrite app_nth2 by lia. now rewrite Nat.sub_diag. }
    rewrite E. unfold replace_step, k. rewrite Nat2Z.id.
    destruct (Z.ltb_spec (Z.of_nat j) (Z.of_nat kn));
      destruct (Nat.ltb_spec j kn); try lia; reflexivity.
  - intros i Hi. unfold draws_oracle, k.
    destruct (Z.leb_spec i (Z.of_nat kn)); [reflexivity|].
    apply app_nth1. lia.
Qed.

(** The number of draws [j] in [0 .. kn + m] after which [x] is in the
    reservoir, for a full duplicate-free reservoir [r] and a new [v]. *)
Lemma count_replace_step m v x r :
  length r = kn -> NoDup r -> ~ In v r ->
  count (fun j => mem x (replace_step j v r)) (seq 0 (kn + m + 1))
  = if String.eqb x v then kn
    else if mem x r then (kn + m)%nat else 0%nat.
Proof.
  intros Hlen Hnd Hv.
  replace (kn + m + 1)%nat with (kn + (m + 1))%nat by lia.
  rewrite seq_app, count_app. simpl (0 + kn)%nat.
  rewrite (count_ext _ (fun j => mem x (<[j := v]> r))).
  2:{ intros j Hj. apply in_seq in Hj. unfold replace_step.
      destruct (Nat.ltb_spec j kn); [reflexivity | lia]. }
  rewrite (count_ext (fun j => mem x (replace_step j v r))
                     (fun _ => mem x r) (seq kn (m + 1))).
  2:{ intros j Hj. apply in_seq in Hj. unfold replace_step.
      destruct (Nat.ltb_spec j kn); [lia | reflexivity]. }
  destruct (String.eqb_spec x v) as [->|Hxv].
  - rewrite (count_ext _ (fun _ => true)).
    2:{ intros j Hj. apply in_seq in Hj. apply mem_insert_new. lia. }
    rewrite count_true, length_seq.
    assert (Hm : mem v r = false) by now apply mem_false_iff.
    rewrite Hm, count_false. lia.
  - rewrite <- Hlen at 1. rewrite count_insert_slots by assumption.
    destruct (mem x r) eqn:Hm.
    + rewrite count_true, length_seq.
      apply mem_true_iff in Hm.
      assert (0 < length r)%nat by (destruct r; [contradiction | simpl; lia]).
      lia.
    + now rewrite count_false.
Qed.

(** Algorithm R: of all the draw sequences on [kn + m] distinct lines,
    the share that leaves a given line in the reservoir is
    [kn / (kn + m)]. *)
Lemma reservoir_count m : forall vs x,
  length vs = (kn + m)%nat -> NoDup vs -> In x vs ->
  ((kn + m)
   * count (fun ds => mem x (reservoir k (draws_oracle k ds) 0 vs []))
           (all_draws kn m)
   = kn * length (all_draws kn m))%nat.
Proof.
  induction m as [|m IH]; intros vs x Hlen Hnd Hx.
  - simpl. rewrite count_cons. rewrite reservoir_fill by (simpl; lia).
    simpl. apply mem_true_iff in Hx. rewrite Hx.
    unfold count. simpl. lia.
  - destruct (exists_last (l := vs)) as (vs0 & v & ->).
    { intros ->. simpl in Hlen. lia. }
    rewrite length_app in Hlen. simpl in Hlen.
    assert (Hlen0 : length vs0 = (kn + m)%nat) by lia.
    apply NoDup_app in Hnd. destruct Hnd as (Hnd0 & Hdis & _).
    assert (Hv0 : ~ In v vs0).
    { intros Hin. apply (Hdis v); [now apply list_elem_of_In|].
      apply list_elem_of_In. now left. }
    rewrite length_all_draws_S.
    set (R := fun ds => reservoir k (draws_oracle k ds) 0 vs0 []).
    assert (HR : forall ds, In ds (all_draws kn m) ->
                   length (R ds) = kn /\ NoDup (R ds) /\ ~ In v (R ds)
                   /\ (forall y, In y (R ds) -> In y vs0)).
    { intros ds _. unfold R.
      destruct (reservoir_sound (draws_oracle k ds) 0 vs0 [])
        as [H1 H2]; [exact Hnd0|].
      split; [rewrite reservoir_length by (simpl; lia); simpl; lia|].
      split; [exact H1|].
      split; [intros Hin; apply Hv0; now apply H2 in Hin | exact H2]. }
    assert (Hcount : forall ds, In ds (all_draws kn m) ->
              count (fun ds' => mem x (reservoir k (draws_oracle k ds') 0
                                                 (vs0 ++ [v]) []))
                    (map (fun j => ds ++ [Z.of_nat j]) (seq 0 (kn + m + 1)))
              = if String.eqb x v then kn
                else if mem x (R ds) then (kn + m)%nat else 0%nat).
    { intros ds Hds. rewrite count_map.
      rewrite (count_ext _ (fun j => mem x (replace_step j v (R ds)))).
      2:{ intros j _. unfold R.
          now rewrite (reservoir_snoc m) by
            (auto using all_draws_length). }
      destruct (HR ds Hds) as (H1 & H2 & H3 & _).
      now apply count_replace_step. }
    cbn [all_draws].
    destruct (String.eqb_spec x v) as [->|Hxv].
    + rewrite (count_flat_map _ _ (fun _ => true) kn) by exact Hcount.
      rewrite count_true. clear. generalize (length (all_draws kn m)).
      intros L. replace (S m) with (m + 1)%nat by lia. ring.
    + rewrite (count_flat_map _ _ (fun ds => mem x (R ds)) (kn + m)%nat)
        by exact Hcount.
      assert (Hx0 : In x vs0).
      { apply in_app_or in Hx. destruct Hx as [Hx|[<-|[]]]; tauto. }
      specialize (IH vs0 x Hlen0 Hnd0 Hx0).
      set (C := count (fun ds => mem x (R ds)) (all_draws kn m)) in *.
      change ((kn + m) * C = kn * length (all_draws kn m))%nat in IH.
      replace (S m) with (m + 1)%nat by lia.
      transitivity ((kn + m + 1) * ((kn + m) * C))%nat; [ring|].
      rewrite IH. ring.
Qed.

End Reservoir.

Lemma valid_lines_cons raw rest :
  valid_lines (raw :: rest)
  = if is_valid (PyStr.strip raw) then PyStr.strip raw :: valid_lines rest
    else valid_lines rest.
Proof. reflexivity. Qed.

Lemma valid_lines_app l1 l2 :
  valid_lines (l1 ++ l2) = valid_lines l1 ++ valid_lines l2.
Proof. unfold valid_lines. now rewrite map_app, List.filter_app. Qed.

Lemma process_chunk_app c1 c2 st :
  process_chunk (c1 ++ c2) st = process_chunk c2 (process_chunk c1 st).
Proof. apply fold_left_app. Qed.

Section Loop.

Variables (chunk_size sample_size : Z) (random_sample : bool).
Variable randint : Z -> Z.

Local Abbreviation body := (loop_body chunk_size sample_size random_sample randint).
Local Abbreviation run := (run_loop chunk_size sample_size random_sample randint).

Lemma flush_chunk_sampled ls :
  sampled_triples (flush_chunk chunk_size ls) = sampled_triples ls.
Proof. unfold flush_chunk. now destruct (_ >=? _). Qed.

Lemma flush_chunk_valid ls :
  valid_line_count (flush_chunk chunk_size ls) = valid_line_count ls.
Proof. unfold flush_chunk. now destruct (_ >=? _). Qed.

(** A line that is not valid only advances [line_count]. *)
Lemma body_skip raw ls :
  is_valid (PyStr.strip raw) = false ->
  body raw ls
  = (LoopState (line_count ls + 1) (valid_line_count ls) (chunk_count ls)
               (chunk_line_count ls) (sampled_triples ls)
               (current_chunk ls) (graph ls), false).
Proof.
  unfold is_valid, loop_body. intros H.
  apply negb_false_iff in H. now rewrite H.
Qed.

(** The sample never holds more than [sample_size] lines. *)
Lemma body_bound raw ls :
  0 <= sample_size ->
  Z.of_nat (length (sampled_triples ls)) <= sample_size ->
  Z.of_nat (length (sampled_triples (fst (body raw ls)))) <= sample_size.
Proof.
  intros Hk H. unfold loop_body.
  destruct (_ || _); [exact H|]. cbn [sampled_triples].
  destruct random_sample.
  - destruct (Z.ltb_spec (Z.of_nat (length (sampled_triples ls)))
                         sample_size) as [Hlt|Hge].
    + cbn [fst]. rewrite flush_chunk_sampled. cbn [sample_append sampled_triples].
      rewrite length_app. simpl. lia.
    + cbn [valid_line_count].
      destruct (randint _ <? sample_size);
        destruct (_ >=? _); cbn [fst];
        rewrite ?flush_chunk_sampled; cbn [sample_replace sampled_triples];
        rewrite ?length_insert; exact H.
  - destruct (Z.ltb_spec (Z.of_nat (length (sampled_triples ls)))
                         sample_size) as [Hlt|Hge].
    + cbn [fst]. rewrite flush_chunk_sampled. cbn [sample_append sampled_triples].
      rewrite length_app. simpl. lia.
    + exact H.
Qed.

Lemma run_bound lines ls :
  0 <= sample_size ->
  Z.of_nat (length (sampled_triples ls)) <= sample_size ->
  Z.of_nat (length (sampled_triples (run lines ls))) <= sample_size.
Proof.
  intros Hk. revert ls. induction lines as [|raw rest IH]; intros ls H.
  - exact H.
  - cbn [run_loop]. pose proof (body_bound raw ls Hk H) as Hb.
    destruct (body raw ls) as [ls' stop]. cbn [fst] in Hb.
    destruct stop; [exact Hb | now apply IH].
Qed.

End Loop.

Section Head.

Variables (chunk_size sample_size : Z) (randint : Z -> Z).

Local Abbreviation body := (loop_body chunk_size sample_size false randint).
Local Abbreviation run := (run_loop chunk_size sample_size false randint).

Lemma body_head_valid raw ls :
  is_valid (PyStr.strip raw) = true ->
  body raw ls
  = let ls1 := LoopState (line_count ls + 1) (valid_line_count ls + 1)
                         (chunk_count ls) (chunk_line_count ls)
                         (sampled_triples ls) (current_chunk ls)
                         (graph ls) in
    if Z.of_nat (length (sampled_triples ls)) <? sample_size
    then (flush_chunk chunk_size (sample_append (PyStr.strip raw) ls1), false)
    else (ls1, true).
Proof.
  unfold is_valid, loop_body. intros H.
  apply negb_true_iff in H. now rewrite H.
Qed.

Lemma run_head_sample lines ls :
  (length (sampled_triples ls) <= Z.to_nat sample_size)%nat ->
  sampled_triples (run lines ls)
  = firstn (Z.to_nat sample_size) (sampled_triples ls ++ valid_lines lines).
Proof.
  revert ls. induction lines as [|raw rest IH]; intros ls H.
  - simpl. rewrite app_nil_r. symmetry. now apply firstn_all2.
  - cbn [run_loop]. rewrite valid_lines_cons.
    destruct (is_valid (PyStr.strip raw)) eqn:Hv.
    + rewrite (body_head_valid raw ls Hv). cbv zeta.
      destruct (Z.ltb_spec (Z.of_nat (length (sampled_triples ls)))
                           sample_size) as [Hlt|Hge].
      * rewrite IH; rewrite flush_chunk_sampled;
          cbn [sample_append sampled_triples].
        -- now rewrite <- app_assoc.
        -- rewrite length_app. simpl. lia.
      * cbn [sampled_triples].
        rewrite firstn_app.
        replace (Z.to_nat sample_size - length (sampled_triples ls))%nat
          with 0%nat by lia.
        rewrite firstn_all2 by lia. simpl. now rewrite app_nil_r.
    + rewrite (body_skip _ _ _ _ raw ls Hv). now rewrite IH.
Qed.

Lemma flush_chunks_are_sample ls :
  chunks_are_sample ls -> chunks_are_sample (flush_chunk chunk_size ls).
Proof.
  unfold chunks_are_sample, flush_chunk. intros H.
  destruct (_ >=? _); [|exact H]. cbn. exact H.
Qed.

Lemma run_head_chunks lines ls :
  chunks_are_sample ls -> chunks_are_sample (run lines ls).
Proof.
  revert ls. induction lines as [|raw rest IH]; intros ls H; [exact H|].
  cbn [run_loop].
  destruct (is_valid (PyStr.strip raw)) eqn:Hv.
  - rewrite (body_head_valid raw ls Hv). cbv zeta.
    destruct (_ <? _).
    + apply IH, flush_chunks_are_sample.
      unfold chunks_are_sample in *. cbn.
      now rewrite !process_chunk_app, H.
    + exact H.
  - rewrite (body_skip _ _ _ _ raw ls Hv). apply IH. exact H.
Qed.

Lemma last_chunk_graph ls :
  chunks_are_sample ls ->
  graph (last_chunk ls) = process_chunk (sampled_triples ls) init_store
  /\ sampled_triples (last_chunk ls) = sampled_triples ls.
Proof.
  unfold chunks_are_sample, last_chunk. intros H.
  destruct (current_chunk ls) eqn:E; cbn; split; auto.
Qed.

(** Once more valid lines have been read than the sample can hold, the
    loop has been left: what follows in the file is not read. *)
Lemma run_head_stop l1 l2 ls :
  Z.of_nat (length (sampled_triples ls)) <= Z.max 0 sample_size ->
  Z.max 0 sample_size - Z.of_nat (length (sampled_triples ls))
  < Z.of_nat (length (valid_lines l1)) ->
  run (l1 ++ l2) ls = run l1 ls.
Proof.
  revert ls. induction l1 as [|raw rest IH]; intros ls H1 H2.
  - simpl in H2. lia.
  - cbn [app run_loop]. rewrite valid_lines_cons in H2.
    destruct (is_valid (PyStr.strip raw)) eqn:Hv.
    + rewrite (body_head_valid raw ls Hv). cbv zeta.
      destruct (Z.ltb_spec (Z.of_nat (length (sampled_triples ls)))
                           sample_size) as [Hlt|Hge]; [|reflexivity].
      cbn [length] in H2.
      apply IH; rewrite flush_chunk_sampled;
        cbn [sample_append sampled_triples]; rewrite length_app; simpl; lia.
    + rewrite (body_skip _ _ _ _ raw ls Hv). apply IH; assumption.
Qed.

End Head.

Section Random.

Variables (chunk_size sample_size : Z) (randint : Z -> Z).

Local Abbreviation body := (loop_body chunk_size sample_size true randint).
Local Abbreviation run := (run_loop chunk_size sample_size true randint).

Lemma body_random_valid raw ls :
  is_valid (PyStr.strip raw) = true ->
  body raw ls
  = let ls1 := LoopState (line_count ls + 1) (valid_line_count ls + 1)
                         (chunk_count ls) (chunk_line_count ls)
                         (sampled_triples ls) (current_chunk ls)
                         (graph ls) in
    if Z.of_nat (length (sampled_triples ls)) <? sample_size
    then (flush_chunk chunk_size (sample_append (PyStr.strip raw) ls1), false)
    else
      let j := randint (valid_line_count ls + 1) in
      let ls2 := if j <? sample_size
                 then sample_replace j (PyStr.strip raw) ls1 else ls1 in
      if valid_line_count ls + 1 >=? sample_size * 10 then (ls2, true)
      else (flush_chunk chunk_size ls2, false).
Proof.
  unfold is_valid, loop_body. intros H.
  apply negb_true_iff in H. rewrite H. cbn [sampled_triples valid_line_count].
  destruct (_ <? sample_size); [reflexivity|].
  destruct (randint _ <? sample_size); reflexivity.
Qed.

(** Before the early stop fires, the sample is the reservoir of the
    valid lines read. *)
Lemma run_random_sample lines ls :
  valid_line_count ls + Z.of_nat (length (valid_lines lines))
  <= 10 * sample_size ->
  sampled_triples (run lines ls)
  = reservoir sample_size randint (valid_line_count ls)
              (valid_lines lines) (sampled_triples ls).
Proof.
  revert ls. induction lines as [|raw rest IH]; intros ls H; [reflexivity|].
  cbn [run_loop]. rewrite valid_lines_cons in *.
  destruct (is_valid (PyStr.strip raw)) eqn:Hv.
  - rewrite (body_random_valid raw ls Hv). cbv zeta. cbn [reservoir].
    cbn [length] in H.
    destruct (Z.of_nat (length (sampled_triples ls)) <? sample_size).
    + rewrite IH; rewrite ?flush_chunk_valid, ?flush_chunk_sampled;
        cbn; [reflexivity | lia].
    + destruct (Z.geb_spec (valid_line_count ls + 1) (sample_size * 10))
        as [Hge|Hlt].
      * assert (E : valid_lines rest = []).
        { destruct (valid_lines rest); [reflexivity | simpl in H; lia]. }
        rewrite E. simpl.
        now destruct (randint (valid_line_count ls + 1) <? sample_size).
      * rewrite IH; rewrite ?flush_chunk_valid, ?flush_chunk_sampled.
        -- now destruct (randint (valid_line_count ls + 1) <? sample_size).
        -- destruct (randint (valid_line_count ls + 1) <? sample_size);
             cbn; lia.
  - rewrite (body_skip _ _ _ _ raw ls Hv). rewrite IH; [reflexivity|].
    exact H.
Qed.

End Random.

End SamplingFacts.

Module StoreFacts.

Import NT Vocabulary.
Local Open Scope list_scope.

Lemma pk_get_set_eq {A} k (v : A) m : pk_get k (pk_set k v m) = v.
Proof. destruct k; reflexivity. Qed.

Lemma pk_get_set_ne {A} k k' (v : A) m :
  k' <> k -> pk_get k' (pk_set k v m) = pk_get k' m.
Proof. intros H. destruct k, k'; try reflexivity; congruence. Qed.

Lemma dict_get_set_eq {A} k (v : A) d : Dict.get k (Dict.set k v d) = Some v.
Proof.
  induction d as [|[k' v'] d IH]; simpl.
  - now rewrite String.eqb_refl.
  - destruct (String.eqb k' k) eqn:E; simpl.
    + now rewrite String.eqb_refl.
    + now rewrite E.
Qed.

Lemma dict_get_set_ne {A} k k' (v : A) d :
  k' <> k -> Dict.get k' (Dict.set k v d) = Dict.get k' d.
Proof.
  intros H. induction d as [|[k0 v0] d IH]; simpl.
  - apply String.eqb_neq in H. rewrite String.eqb_sym. now rewrite H.
  - destruct (String.eqb k0 k) eqn:E; simpl.
    + apply String.eqb_eq in E. subst k0.
      assert (E' : String.eqb k k' = false)
        by (apply String.eqb_neq; congruence).
      now rewrite E'.
    + destruct (String.eqb k0 k'); [reflexivity | exact IH].
Qed.

(** Assigning to a key that is absent appends the entry. *)
Lemma dict_set_new {A} k (v : A) d :
  Dict.mem k d = false -> Dict.set k v d = d ++ [(k, v)].
Proof.
  unfold Dict.mem. induction d as [|[k' v'] d IH]; simpl; [reflexivity|].
  destruct (String.eqb k' k); [discriminate|].
  intros H. now rewrite IH.
Qed.

Lemma dict_mem_get {A} k (d : Dict.t A) :
  Dict.mem k d = true <-> exists v, Dict.get k d = Some v.
Proof.
  unfold Dict.mem. destruct (Dict.get k d); split; eauto; try discriminate.
  intros [v H]. discriminate.
Qed.

(** The two entity functions of the source are instances of the shared
    body. *)
Lemma process_user_entity_eq :
  process_user_entity = create_entity User "user_".
Proof. reflexivity. Qed.

Lemma process_product_entity_eq :
  process_product_entity = create_entity Product "product_".
Proof. reflexivity. Qed.

Lemma create_entity_present k prefix uri st :
  Dict.mem uri (pk_get k (entity_map st)) = true ->
  create_entity k prefix uri st = st.
Proof. unfold create_entity. now intros ->. Qed.

Lemma create_entity_new k prefix uri st :
  Dict.mem uri (pk_get k (entity_map st)) = false ->
  create_entity k prefix uri st
  = Store (pk_set k (pk_get k (entity_map st)
                     ++ [(uri, Entity (prefix ++ PyStr.of_nat
                                         (pk_get k (entity_counts st)))%string
                                      (local_name uri) [])])
                  (entity_map st))
          (pk_set k (S (pk_get k (entity_counts st))) (entity_counts st))
          (relationships st).
Proof.
  unfold create_entity. intros H. rewrite H.
  now rewrite dict_set_new by exact H.
Qed.

Lemma create_entity_mem k prefix uri st :
  Dict.mem uri (pk_get k (entity_map (create_entity k prefix uri st))) = true.
Proof.
  unfold create_entity.
  destruct (Dict.mem uri (pk_get k (entity_map st))) eqn:E; [exact E|].
  cbn [entity_map]. rewrite pk_get_set_eq.
  apply dict_mem_get. eexists. apply dict_get_set_eq.
Qed.

Lemma create_entity_idem k prefix uri st :
  create_entity k prefix uri (create_entity k prefix uri st)
  = create_entity k prefix uri st.
Proof. apply create_entity_present, create_entity_mem. Qed.

(** Creating an entity leaves every record that exists as it is. *)
Lemma create_entity_stable k prefix uri st k' uri' e :
  Dict.get uri' (pk_get k' (entity_map st)) = Some e ->
  Dict.get uri' (pk_get k' (entity_map (create_entity k prefix uri st)))
  = Some e.
Proof.
  intros H. unfold create_entity.
  destruct (Dict.mem uri (pk_get k (entity_map st))) eqn:E; [exact H|].
  cbn [entity_map].
  destruct (decide (k' = k)) as [->|Hk].
  - rewrite pk_get_set_eq.
    destruct (String.eqb_spec uri' uri) as [->|Hu].
    + unfold Dict.mem in E. rewrite H in E. discriminate.
    + now rewrite dict_get_set_ne.
  - now rewrite pk_get_set_ne.
Qed.

Lemma find_entity_some uri em ks k e :
  find_entity uri (map (fun k => (k, pk_get k em)) ks) = Some (k, e) ->
  Dict.get uri (pk_get k em) = Some e.
Proof.
  induction ks as [|k0 ks IH]; simpl; [discriminate|].
  destruct (Dict.get uri (pk_get k0 em)) eqn:E; [|exact IH].
  intros [= <- <-]. exact E.
Qed.

Lemma find_entity_none uri em ks :
  find_entity uri (map (fun k => (k, pk_get k em)) ks) = None ->
  forall k, In k ks -> Dict.get uri (pk_get k em) = None.
Proof.
  induction ks as [|k0 ks IH]; simpl; [tauto|].
  destruct (Dict.get uri (pk_get k0 em)) eqn:E; [discriminate|].
  intros H k [<-|Hk]; auto.
Qed.

Lemma in_kinds k : In k kinds.
Proof. destruct k; simpl; tauto. Qed.

Lemma lookup_id_some uri em i :
  lookup_id uri em = Some i -> has_id i em.
Proof.
  unfold lookup_id, pk_items.
  destruct (find_entity _ _) as [[k e]|] eqn:E; [|discriminate].
  intros [= <-]. apply find_entity_some in E. now exists k, uri, e.
Qed.

Lemma lookup_id_none uri em :
  lookup_id uri em = None <->
  forall k, Dict.get uri (pk_get k em) = None.
Proof.
  unfold lookup_id, pk_items. split.
  - destruct (find_entity _ _) as [[k e]|] eqn:E; [discriminate|].
    intros _ k. eapply find_entity_none; eauto using in_kinds.
  - intros H. destruct (find_entity _ _) as [[k e]|] eqn:E; [|reflexivity].
    apply find_entity_some in E. rewrite H in E. discriminate.
Qed.

(** An attribute update changes the [properties] of one record and nothing
    else. *)
Lemma add_property_stable subject predicate obj st k' uri' e :
  Dict.get uri' (pk_get k' (entity_map st)) = Some e ->
  exists e',
    Dict.get uri' (pk_get k' (entity_map (add_property subject predicate obj st)))
    = Some e'
    /\ NT.id e' = NT.id e /\ label e' = label e.
Proof.
  intros H. unfold add_property, pk_items.
  destruct (find_entity _ _) as [[k e0]|] eqn:E; [|eauto].
  apply find_entity_some in E. cbn [entity_map].
  destruct (decide (k' = k)) as [->|Hk].
  - rewrite pk_get_set_eq.
    destruct (String.eqb_spec uri' subject) as [->|Hu].
    + rewrite dict_get_set_eq. eexists. split; [reflexivity|].
      rewrite E in H. injection H as <-. now split.
    + rewrite dict_get_set_ne by exact Hu. eauto.
  - rewrite pk_get_set_ne by exact Hk. eauto.
Qed.

Lemma add_relationship_map s o p st :
  entity_map (add_relationship s o p st) = entity_map st
  /\ entity_counts (add_relationship s o p st) = entity_counts st.
Proof.
  unfold add_relationship. cbv zeta.
  destruct (_ && _); [|auto].
  destruct (lookup_id s (entity_map st)), (lookup_id o (entity_map st));
    auto.
Qed.

(** The dispatch of a typing triple. *)
Lemma process_triple_typing subject predicate obj is_uri st :
  PyStr.endswith "type" predicate = true ->
  process_triple subject predicate obj is_uri st
  = match classify obj with
    | Some (k, prefix) => create_entity k prefix subject st
    | None => st
    end.
Proof.
  intros H. unfold process_triple, classify. rewrite H.
  repeat (destruct (PyStr.contains _ obj); [reflexivity|]).
  reflexivity.
Qed.

(** No triple changes the identifier or the mapping of a record. *)
Lemma process_triple_stable subject predicate obj is_uri st k uri e :
  Dict.get uri (pk_get k (entity_map st)) = Some e ->
  exists e',
    Dict.get uri (pk_get k (entity_map
                              (process_triple subject predicate obj is_uri st)))
    = Some e'
    /\ NT.id e' = NT.id e /\ label e' = label e.
Proof.
  intros H.
  destruct (PyStr.endswith "type" predicate) eqn:Ht.
  - rewrite process_triple_typing by exact Ht.
    destruct (classify obj) as [[k0 prefix]|]; [|eauto].
    exists e. split; [now apply create_entity_stable | now split].
  - unfold process_triple. rewrite Ht.
    destruct (is_uri && _).
    + destruct (add_relationship_map subject obj predicate st) as [-> _].
      eauto.
    + destruct (negb is_uri); [|eauto]. now apply add_property_stable.
Qed.

Lemma has_id_triple subject predicate obj is_uri st i :
  has_id i (entity_map st) ->
  has_id i (entity_map (process_triple subject predicate obj is_uri st)).
Proof.
  intros (k & uri & e & H & Hi).
  destruct (process_triple_stable subject predicate obj is_uri st k uri e H)
    as (e' & H' & Hid & _).
  exists k, uri, e'. split; [exact H' | congruence].
Qed.

Lemma add_relationship_cases s o p st :
  add_relationship s o p st = st
  \/ exists f t,
       lookup_id s (entity_map st) = Some f
       /\ lookup_id o (entity_map st) = Some t
       /\ f <> ""%string /\ t <> ""%string
       /\ add_relationship s o p st
          = Store (entity_map st) (entity_counts st)
                  (relationships st ++ [Relationship f t (rel_type_of p)]).
Proof.
  unfold add_relationship. cbv zeta.
  destruct (lookup_id s (entity_map st)) as [f|] eqn:Ef; [|now left].
  destruct (lookup_id o (entity_map st)) as [t|] eqn:Et;
    [|left; now rewrite andb_false_r].
  cbn [truthy].
  destruct f as [|c f]; [now left|]. destruct t as [|d t]; [now left|].
  right. exists (String c f), (String d t). repeat split; auto; discriminate.
Qed.

Lemma rels_resolved_triple subject predicate obj is_uri st :
  rels_resolved st ->
  rels_resolved (process_triple subject predicate obj is_uri st).
Proof.
  intros Hinv r Hr.
  assert (Hold : In r (relationships st) ->
            has_id (from_id r)
                   (entity_map (process_triple subject predicate obj is_uri st))
            /\ has_id (to_id r)
                   (entity_map (process_triple subject predicate obj is_uri st))).
  { intros Hin. destruct (Hinv r Hin). split; now apply has_id_triple. }
  destruct (PyStr.endswith "type" predicate) eqn:Ht.
  - apply Hold. rewrite process_triple_typing in Hr by exact Ht.
    destruct (classify obj) as [[k0 prefix]|]; [|exact Hr].
    unfold create_entity in Hr. now destruct (Dict.mem _ _).
  - revert Hr Hold. unfold process_triple. rewrite Ht.
    destruct (is_uri && _).
    + destruct (add_relationship_cases subject obj predicate st)
        as [->|(f & t & Hf & Hto & _ & _ & ->)]; [auto|].
      cbn [relationships entity_map]. intros Hr Hold.
      apply in_app_or in Hr. destruct Hr as [Hr|[<-|[]]]; [auto|].
      cbn [from_id to_id]. split; eapply lookup_id_some; eauto.
    + destruct (negb is_uri); [|auto].
      intros Hr Hold. apply Hold. revert Hr. unfold add_property.
      destruct (find_entity _ _) as [[k e]|]; auto.
Qed.

Lemma rels_resolved_line line st :
  rels_resolved st -> rels_resolved (process_line line st).
Proof.
  unfold process_line. destruct (triple_pattern line) as [[[s p] o]|]; auto.
  destruct (_ && _); [now apply rels_resolved_triple|].
  destruct (literal_value o); now apply rels_resolved_triple.
Qed.

Lemma rels_resolved_chunk chunk st :
  rels_resolved st -> rels_resolved (process_chunk chunk st).
Proof.
  revert st. induction chunk as [|l chunk IH]; intros st H; [exact H|].
  apply IH, rels_resolved_line, H.
Qed.

End StoreFacts.

Module TBoxFacts.

Import TBox.
Local Open Scope list_scope.

Lemma key_eqb_hashable a b : key_eqb a b = true -> hashable a = true.
Proof. destruct a; simpl; auto; destruct b; discriminate. Qed.

Lemma key_eqb_refl a : hashable a = true -> key_eqb a a = true.
Proof.
  destruct a; simpl; try discriminate; intros _; auto.
  - now destruct b.
  - apply Z.eqb_refl.
  - apply String.eqb_refl.
Qed.

Lemma jget_jset_eq {A} k (v : A) d :
  hashable k = true -> jget k (jset k v d) = Some v.
Proof.
  intros H. induction d as [|[k' v'] d IH]; simpl.
  - now rewrite key_eqb_refl.
  - destruct (key_eqb k' k) eqn:E; simpl; now rewrite ?E.
Qed.

Lemma jset_new {A} k (v : A) d :
  jget k d = None -> jset k v d = d ++ [(k, v)].
Proof.
  induction d as [|[k' v'] d IH]; simpl; [reflexivity|].
  destruct (key_eqb k' k); [discriminate|]. intros H. now rewrite IH.
Qed.

(** [_process_class] on a URI that is registered returns the identifier
    on record and changes nothing. *)
Lemma process_class_present uri item label p info :
  hashable uri = true ->
  jget uri (classes (entity_mapping p)) = Some info ->
  _process_class uri item label p = (Ok (id info), p).
Proof.
  intros Hh H. unfold _process_class.
  unfold mbind, M_bind, bind, get. rewrite Hh. cbn [negb]. now rewrite H.
Qed.

(** What a successful first [_process_class] does. *)
Lemma process_class_new uri item label p i p1 :
  jget uri (classes (entity_mapping p)) = None ->
  _process_class uri item label p = (Ok i, p1) ->
  exists info,
    id info = i
    /\ i = ("class_" ++ PyStr.of_nat (class (entity_counts p)))%string
    /\ classes (entity_mapping p1)
       = classes (entity_mapping p) ++ [(uri, info)]
    /\ class (entity_counts p1) = S (class (entity_counts p))
    /\ hashable uri = true.
Proof.
  intros H. unfold _process_class.
  unfold mbind, M_bind, bind, get, put, mret, M_ret, ret, raise.
  destruct (hashable uri) eqn:Hh; cbn [negb]; [|discriminate].
  rewrite H.
  destruct (truthy label).
  - intros [= <- <-]. cbn. eexists. rewrite jset_new by exact H.
    repeat split; reflexivity.
  - destruct uri; try discriminate.
    intros [= <- <-]. cbn. eexists. rewrite jset_new by exact H.
    repeat split; reflexivity.
Qed.

Lemma process_class_twice uri item label p i p1 item' label' :
  _process_class uri item label p = (Ok i, p1) ->
  _process_class uri item' label' p1 = (Ok i, p1).
Proof.
  intros H.
  destruct (jget uri (classes (entity_mapping p))) as [info|] eqn:E.
  - assert (Hh : hashable uri = true).
    { revert H. unfold _process_class, mbind, M_bind, bind, get, raise.
      destruct (hashable uri); [reflexivity | discriminate]. }
    rewrite (process_class_present uri item label p info Hh E) in H.
    injection H as <- <-. now apply process_class_present.
  - destruct (process_class_new uri item label p i p1 E H)
      as (info & Hi & _ & Hc & _ & Hh).
    rewrite <- Hi. apply process_class_present; [exact Hh|].
    rewrite Hc, <- (jset_new uri info) by exact E.
    now apply jget_jset_eq.
Qed.

Section Helpers.

Variable _process_concept : json -> list (string * json) -> json -> M unit.
Variable _process_property : json -> list (string * json) -> json -> M unit.
Variable _process_relationships : json -> list (string * json) -> M unit.
Variable random_sample_of : list json -> nat -> list json.
Variable json_loads : string -> option json.
Variable random_bits : Z -> Z.

Local Abbreviation item_ :=
  (_process_jsonld_item _process_concept _process_property
                        _process_relationships).
Local Abbreviation try_item_ :=
  (try_item _process_concept _process_property _process_relationships
            json_loads random_bits).
Local Abbreviation scan_line_ :=
  (scan_line _process_concept _process_property _process_relationships
             json_loads random_bits).

Lemma item_seen members uri p :
  member "@id" members = Some uri ->
  existsb (key_eqb uri) (processed_uris p) = true ->
  item_ (JObj members) p = (Ok tt, p).
Proof.
  intros Hid Hseen. unfold _process_jsonld_item. rewrite Hid.
  destruct (truthy uri); cbn [negb]; [|reflexivity].
  assert (Hh : hashable uri = true).
  { apply existsb_exists in Hseen. destruct Hseen as (y & _ & Hy).
    now apply key_eqb_hashable in Hy. }
  rewrite Hh. cbn [negb].
  unfold mbind, M_bind, bind, get. now rewrite Hseen.
Qed.

Lemma any_type_in_state names types p :
  snd (any_type_in names types p) = p.
Proof. destruct types; reflexivity. Qed.

Lemma process_class_uris uri item label p :
  processed_uris (snd (_process_class uri item label p))
  = processed_uris p.
Proof.
  unfold _process_class, mbind, M_bind, bind, get, put, mret, M_ret, ret,
    raise.
  destruct (hashable uri); cbn [negb]; [|reflexivity].
  destruct (jget uri _); [reflexivity|].
  destruct (truthy label); [reflexivity|].
  destruct uri; reflexivity.
Qed.

Section Preserving.

(** The absent methods leave [processed_uris] alone. *)
Hypothesis concept_uris : forall uri item label p,
processed_uris (snd (_process_concept uri item label p))
= processed_uris p.
Hypothesis property_uris : forall uri item label p,
processed_uris (snd (_process_property uri item label p))
= processed_uris p.
Hypothesis relationships_uris : forall uri item p,
processed_uris (snd (_process_relationships uri item p))
= processed_uris p.

(** After an item with a usable [@id] has been processed, returning or
  raising, its URI is in [processed_uris]. *)
Lemma item_marks_uri members uri p :
member "@id" members = Some uri ->
truthy uri = true -> hashable uri = true ->
existsb (key_eqb uri)
        (processed_uris (snd (item_ (JObj members) p))) = true.
Proof.
intros Hid Ht Hh. unfold _process_jsonld_item.
rewrite Hid, Ht, Hh. cbn [negb].
unfold mbind, M_bind, bind, get, put.
destruct (existsb (key_eqb uri) (processed_uris p)) eqn:E; [exact E|].
set (p0 := Processor _ _ _ (processed_uris p ++ [uri])).
assert (E0 : existsb (key_eqb uri) (processed_uris p0) = true).
{ unfold p0. cbn [processed_uris]. rewrite existsb_app. simpl.
  rewrite key_eqb_refl by exact Hh. now rewrite orb_true_r. }
match goal with
| |- context [any_type_in class_types ?t _] => set (types := t)
end.
set (label := first_text label_keys members).
assert (Hrel : forall (o : outcome unit) q,
           processed_uris q = processed_uris p0 ->
           existsb (key_eqb uri)
             (processed_uris
                (snd (match o with
                      | Ok _ => _process_relationships uri members q
                      | Raise e => (Raise e, q)
                      end))) = true).
{ intros [[]|e] q Hq; cbn [snd];
    rewrite ?relationships_uris, Hq; exact E0. }
pose proof (any_type_in_state class_types types p0) as H1.
destruct (any_type_in class_types types p0) as [[b1|e1] q1];
  cbn [snd] in H1; subst q1; [|cbn [snd]; exact E0].
destruct b1.
- pose proof (process_class_uris uri members label p0) as Hc.
  destruct (_process_class uri members label p0) as [[i|e] q];
    cbn [snd] in Hc.
  + unfold mret, M_ret, ret. cbv beta iota.
    now rewrite relationships_uris, Hc.
  + cbv beta iota. cbn [snd]. now rewrite Hc.
- pose proof (any_type_in_state concept_types types p0) as H2.
  destruct (any_type_in concept_types types p0) as [[b2|e2] q2];
    cbn [snd] in H2; subst q2; [|cbn [snd]; exact E0].
  destruct b2.
  + pose proof (concept_uris uri members label p0) as Hc.
    destruct (_process_concept uri members label p0) as [o q].
    cbn [snd] in Hc. now apply Hrel.
  + pose proof (any_type_in_state property_types types p0) as H3.
    destruct (any_type_in property_types types p0) as [[b3|e3] q3];
      cbn [snd] in H3; subst q3; [|cbn [snd]; exact E0].
    destruct b3.
    * pose proof (property_uris uri members label p0) as Hc.
      destruct (_process_property uri members label p0) as [o q].
      cbn [snd] in Hc. now apply Hrel.
    * unfold mret, M_ret, ret. cbv beta iota.
      now rewrite relationships_uris.
Qed.

(** Processing the same item again changes nothing. *)
Lemma item_twice members p :
snd (item_ (JObj members) (snd (item_ (JObj members) p)))
= snd (item_ (JObj members) p).
Proof.
destruct (member "@id" members) as [uri|] eqn:Hid.
- destruct (truthy uri) eqn:Ht.
  + destruct (hashable uri) eqn:Hh.
    * rewrite (item_seen members uri); [reflexivity | exact Hid|].
      now apply item_marks_uri.
    * unfold _process_jsonld_item. now rewrite Hid, Ht, Hh.
  + unfold _process_jsonld_item. now rewrite Hid, Ht.
- unfold _process_jsonld_item. now rewrite Hid.
Qed.

End Preserving.

Lemma try_item_head_bound sample_size sc :
  sampled_count sc <= sample_size ->
  sampled_count (try_item_ sample_size false sc) <= sample_size.
Proof.
  intros H. unfold try_item.
  destruct (json_loads _); [|exact H]. cbn [sampled_count].
  destruct (Z.ltb_spec (sampled_count sc) sample_size); [|exact H].
  destruct (item_ _ _) as [[[]|e] p']; cbn [sampled_count]; lia.
Qed.

Lemma scan_line_head_bound sample_size raw sc :
  sampled_count sc <= sample_size ->
  sampled_count (scan_line_ sample_size false raw sc) <= sample_size.
Proof.
  intros H. unfold scan_line, set_item.
  destruct (PyStr.contains _ _); [exact H|].
  destruct (in_graph sc && _).
  - cbn [current_item]. destruct (PyStr.is_empty _); [exact H|].
    cbn [sampled_count]. now apply try_item_head_bound.
  - destruct (in_graph sc); [|exact H].
    destruct (PyStr.startswith _ _); [|exact H].
    destruct (PyStr.is_empty _); [exact H|].
    cbn [sampled_count]. now apply try_item_head_bound.
Qed.

Lemma scan_head_bound sample_size lines sc :
  sampled_count sc <= sample_size ->
  sampled_count
    (fold_left (fun sc raw => scan_line_ sample_size false raw sc) lines sc)
  <= sample_size.
Proof.
  revert sc. induction lines as [|raw rest IH]; intros sc H; [exact H|].
  simpl. now apply IH, scan_line_head_bound.
Qed.

Lemma sample_graph_random_bound graph_data sample_size l :
  0 <= sample_size ->
  (forall pop n, (n <= length pop)%nat ->
                 length (random_sample_of pop n) = n) ->
  sample_graph random_sample_of graph_data sample_size true = Ok l ->
  Z.of_nat (length l) <= sample_size.
Proof.
  intros Hk Hrs. unfold sample_graph.
  destruct (Z.gtb_spec (Z.of_nat (length graph_data)) sample_size).
  - destruct (Z.ltb_spec sample_size 0); [lia|].
    intros [= <-]. rewrite Hrs; lia.
  - intros [= <-]. lia.
Qed.

Lemma sample_graph_head_bound graph_data sample_size l :
  0 < sample_size ->
  sample_graph random_sample_of graph_data sample_size false = Ok l ->
  Z.of_nat (length l) <= sample_size.
Proof.
  intros Hk. unfold sample_graph.
  destruct (Z.gtb_spec sample_size 0); [|lia]. cbn [andb].
  destruct (Z.gtb_spec (Z.of_nat (length graph_data)) sample_size).
  - intros [= <-]. rewrite length_firstn. lia.
  - intros [= <-]. lia.
Qed.

End Helpers.

End TBoxFacts.

Module PositionFacts.

Import NT Vocabulary SamplingFacts Positions TextFacts.
Local Open Scope list_scope.

Lemma reservoir_as_on k randint n vs r :
  reservoir k randint n vs r = reservoir_on k randint n vs r.
Proof.
  revert n r. induction vs as [|v vs IH]; intros n r; [reflexivity|].
  cbn [reservoir reservoir_on]. destruct (_ <? k); apply IH.
Qed.

Lemma map_insert {A B} (f : A -> B) (l : list A) (j : nat) (x : A) :
  map f (<[j := x]> l) = <[j := f x]> (map f l).
Proof.
  revert j. induction l as [|a l IH]; intros [|j]; cbn; try reflexivity.
  now rewrite IH.
Qed.

(** Relabelling: the steps of the reservoir do not look at the lines. *)
Lemma reservoir_on_map {A B} (f : A -> B) k randint n vs r :
  reservoir_on k randint n (map f vs) (map f r)
  = map f (reservoir_on k randint n vs r).
Proof.
  revert n r. induction vs as [|v vs IH]; intros n r; [reflexivity|].
  cbn [map reservoir_on]. rewrite length_map.
  destruct (_ <? k).
  - rewrite <- IH, map_app. reflexivity.
  - cbv zeta. destruct (randint (n + 1) <? k); rewrite <- IH;
      [now rewrite map_insert | reflexivity].
Qed.

Lemma map_nth_positions {A} (d : A) (vs : list A) :
  map (fun i => nth i vs d) (seq 0 (length vs)) = vs.
Proof.
  induction vs as [|v vs IH]; [reflexivity|].
  cbn [length seq map nth]. f_equal.
  rewrite <- seq_shift, map_map. exact IH.
Qed.

(** The reservoir holds, slot by slot, the lines at the positions that
    the reservoir by position gives. *)
Lemma reservoir_by_position k randint (vs : list string) :
  reservoir k randint 0 vs []
  = map (fun i => nth i vs ""%string) (positions k randint (length vs)).
Proof.
  unfold positions. rewrite reservoir_as_on.
  rewrite <- (map_nth_positions ""%string vs) at 1.
  exact (reservoir_on_map (fun i => nth i vs ""%string) k randint 0
                          (seq 0 (length vs)) []).
Qed.

Lemma mem_of_nat (i : nat) (l : list nat) :
  mem (PyStr.of_nat i) (map PyStr.of_nat l) = holds i l.
Proof.
  unfold mem, holds. induction l as [|a l IH]; [reflexivity|].
  cbn [map existsb]. rewrite IH. f_equal.
  destruct (Nat.eqb_spec i a) as [->|Hne].
  - apply String.eqb_refl.
  - apply String.eqb_neq. intros H. now apply of_nat_inj in H.
Qed.

(** Algorithm R by position: no assumption on the lines. *)
Lemma position_share (sample_size : Z) (n i : nat) :
  0 <= sample_size -> sample_size <= Z.of_nat n -> (i < n)%nat ->
  Z.of_nat n
  * Z.of_nat (count (fun ds => holds i (positions sample_size
                                          (draws_oracle sample_size ds) n))
                    (all_draws (Z.to_nat sample_size)
                               (n - Z.to_nat sample_size)))
  = sample_size
    * Z.of_nat (length (all_draws (Z.to_nat sample_size)
                                  (n - Z.to_nat sample_size))).
Proof.
  intros Hk Hn Hi.
  set (kn := Z.to_nat sample_size).
  assert (Ek : sample_size = Z.of_nat kn) by (unfold kn; lia).
  assert (En : n = (kn + (n - kn))%nat) by lia.
  set (labels := map PyStr.of_nat (seq 0 n)).
  assert (Hlen : length labels = (kn + (n - kn))%nat).
  { unfold labels. rewrite length_map, length_seq. exact En. }
  assert (Hnd : NoDup labels).
  { unfold labels. apply NoDup_ListNoDup.
    apply NoDup_map_inj; [apply of_nat_inj|]. apply List.seq_NoDup. }
  assert (Hin : In (PyStr.of_nat i) labels).
  { unfold labels. apply in_map. apply in_seq. lia. }
  pose proof (reservoir_count kn (n - kn) labels (PyStr.of_nat i)
                              Hlen Hnd Hin) as H.
  rewrite (count_ext _
             (fun ds => holds i (positions (Z.of_nat kn)
                                           (draws_oracle (Z.of_nat kn) ds) n)))
    in H.
  - apply (f_equal Z.of_nat) in H.
    rewrite !Nat2Z.inj_mul, <- En in H. rewrite Ek. exact H.
  - intros ds _. unfold labels, positions.
    rewrite reservoir_as_on.
    change (@nil string) with (map PyStr.of_nat []).
    rewrite reservoir_on_map. apply mem_of_nat.
Qed.

End PositionFacts.

Module HandoverFacts.

Import TBox Handover TBoxFacts.
Local Open Scope list_scope.

Section Log.

Variable _process_concept : json -> list (string * json) -> json -> M unit.
Variable _process_property : json -> list (string * json) -> json -> M unit.
Variable _process_relationships : json -> list (string * json) -> M unit.
Variable json_loads : string -> option json.
Variable random_bits : Z -> Z.

Local Abbreviation item_ :=
  (_process_jsonld_item _process_concept _process_property
                        _process_relationships).
Local Abbreviation try_item_ :=
  (try_item _process_concept _process_property _process_relationships
            json_loads random_bits).
Local Abbreviation scan_line_ :=
  (scan_line _process_concept _process_property _process_relationships
             json_loads random_bits).
Local Abbreviation handed_ :=
  (handed _process_concept _process_property _process_relationships
          json_loads random_bits).
Local Abbreviation handed_on_line_ :=
  (handed_on_line _process_concept _process_property _process_relationships
                  json_loads random_bits).
Local Abbreviation after :=
  (Handover.after _process_concept _process_property _process_relationships).
Local Abbreviation apply_item :=
  (Handover.apply_item _process_concept _process_property
                       _process_relationships).
Local Abbreviation handed_items_ :=
  (handed_items _process_concept _process_property _process_relationships
                json_loads random_bits).

Lemma try_item_handed sample_size random_sample sc :
  self (try_item_ sample_size random_sample sc)
  = after (handed_ sample_size random_sample sc) (self sc)
  /\ sampled_count (try_item_ sample_size random_sample sc)
     = sampled_count sc + returned (handed_ sample_size random_sample sc).
Proof.
  unfold try_item, handed, after, returned.
  destruct (json_loads _) as [item|]; [|split; [reflexivity | lia]].
  cbn [sampled_count item_count in_graph self current_item].
  destruct (if random_sample then _ else _) as [[]|e];
    try (split; [reflexivity | cbn; lia]).
  destruct (_process_jsonld_item _ _ _ _ _) as [[[]|e] p'];
    split; cbn; try reflexivity; lia.
Qed.

Lemma scan_line_handed sample_size random_sample raw sc :
  self (scan_line_ sample_size random_sample raw sc)
  = after (handed_on_line_ sample_size random_sample raw sc) (self sc)
  /\ sampled_count (scan_line_ sample_size random_sample raw sc)
     = sampled_count sc
       + returned (handed_on_line_ sample_size random_sample raw sc).
Proof.
  unfold scan_line, handed_on_line. cbv zeta. cbn [current_item].
  destruct (PyStr.contains _ _); [split; cbn; [reflexivity | lia]|].
  destruct (in_graph sc && _)%bool.
  - destruct (PyStr.is_empty (current_item sc));
      [split; cbn; [reflexivity | lia]|].
    unfold set_item. cbn [self sampled_count].
    apply (try_item_handed sample_size random_sample
             (Scan false (current_item sc) (item_count sc)
                   (sampled_count sc) (self sc))).
  - destruct (in_graph sc); [|split; cbn; [reflexivity | lia]].
    destruct (PyStr.startswith _ _);
      [|split; cbn; [reflexivity | lia]].
    destruct (PyStr.is_empty (current_item sc));
      [split; cbn; [reflexivity | lia]|].
    unfold set_item. cbn [self sampled_count].
    apply try_item_handed.
Qed.

Lemma count_cons_Z {A} (f : A -> bool) (a : A) (l : list A) :
  Z.of_nat (Vocabulary.count f (a :: l))
  = (if f a then 1 else 0) + Z.of_nat (Vocabulary.count f l).
Proof.
  unfold Vocabulary.count. cbn [List.filter].
  destruct (f a); cbn [length]; lia.
Qed.

Lemma scan_lines_handed sample_size random_sample lines sc :
  let sc' := fold_left (fun sc raw => scan_line_ sample_size random_sample
                                                 raw sc) lines sc in
  let log := handed_items_ sample_size random_sample lines sc in
  self sc' = fold_left apply_item log (self sc)
  /\ sampled_count sc'
     = sampled_count sc + Z.of_nat (Vocabulary.count snd log).
Proof.
  cbv zeta. revert sc. induction lines as [|raw rest IH]; intros sc.
  - cbn. split; [reflexivity | lia].
  - cbn [fold_left handed_items].
    destruct (IH (scan_line_ sample_size random_sample raw sc)) as [Hs Hc].
    destruct (scan_line_handed sample_size random_sample raw sc)
      as [Hs1 Hc1].
    rewrite Hs, Hc, Hs1, Hc1.
    destruct (handed_on_line_ sample_size random_sample raw sc)
      as [[item b]|]; cbn [app after returned].
    + cbn [fold_left]. split; [reflexivity|].
      rewrite count_cons_Z. cbn [snd]. destruct b; lia.
    + split; [reflexivity | lia].
Qed.

Lemma run_handed sample_size random_sample lines p :
  let sc := _process_large_jsonld_file _process_concept _process_property
              _process_relationships json_loads random_bits sample_size
              random_sample lines p in
  let log := handed_items_ sample_size random_sample lines (init_scan p) in
  self sc = fold_left apply_item log p
  /\ sampled_count sc = Z.of_nat (Vocabulary.count snd log).
Proof.
  cbv zeta. unfold _process_large_jsonld_file.
  destruct (scan_lines_handed sample_size random_sample lines (init_scan p))
    as [Hs Hc].
  split; [exact Hs | rewrite Hc; cbn; lia].
Qed.

(** In a logged call the flag tells whether the call returned. *)
Lemma handed_flag sample_size random_sample sc item b :
  handed_ sample_size random_sample sc = Some (item, b) ->
  b = match item_ item (self sc) with (Ok _, _) => true | _ => false end.
Proof.
  unfold handed. destruct (json_loads _); [|discriminate].
  destruct (if random_sample then _ else _) as [[]|]; try discriminate.
  intros [= <- <-]. reflexivity.
Qed.

End Log.

End HandoverFacts.

Module ItemFacts.
Import TBox TBoxFacts Items.
Local Open Scope list_scope.

(** [_process_class] on a string URI always returns: with the identifier
    on record when the URI is registered, with a new record otherwise. *)
Lemma process_class_string u item label p :
  match jget (JStr u) (classes (entity_mapping p)) with
  | Some info => _process_class (JStr u) item label p = (Ok (id info), p)
  | None =>
      exists info p1,
        _process_class (JStr u) item label p = (Ok (id info), p1)
        /\ id info
           = ("class_" ++ PyStr.of_nat (class (entity_counts p)))%string
        /\ uri info = JStr u
        /\ classes (entity_mapping p1)
           = classes (entity_mapping p) ++ [(JStr u, info)]
        /\ class (entity_counts p1) = S (class (entity_counts p))
        /\ processed_uris p1 = processed_uris p
  end.
Proof.
  destruct (jget (JStr u) (classes (entity_mapping p))) as [info|] eqn:E.
  - now apply process_class_present.
  - unfold _process_class.
    unfold mbind, M_bind, bind, get, put, mret, M_ret, ret, raise.
    cbn [hashable negb]. rewrite E.
    destruct (truthy label);
      eexists (NodeInfo _ _ _ _ _ _); eexists;
      (split; [reflexivity|]); cbn; rewrite jset_new by exact E;
      repeat split; reflexivity.
Qed.

Lemma class_item_types members p :
  is_class_item members = true ->
  let types := match member "@type" members with
               | Some v => v
               | None => JArr []
               end in
  let types := match types with
               | JStr s => JArr [JStr s]
               | _ => types
               end in
  any_type_in class_types types p = (Ok true, p).
Proof.
  unfold is_class_item. cbv zeta.
  destruct (member "@type" members) as [[| | |s|l|]|]; try discriminate.
  - intros H. cbn [any_type_in existsb]. unfold ret. now rewrite H.
  - intros H. cbn [any_type_in]. unfold ret. now rewrite H.
Qed.

Section Item.

Variable _process_concept : json -> list (string * json) -> json -> M unit.
Variable _process_property : json -> list (string * json) -> json -> M unit.
Variable _process_relationships : json -> list (string * json) -> M unit.

Hypothesis relationships_classes : forall uri item p,
  classes (entity_mapping (snd (_process_relationships uri item p)))
  = classes (entity_mapping p).

Lemma class_item_registered members u p :
  member "@id" members = Some (JStr u) ->
  PyStr.is_empty u = false ->
  is_class_item members = true ->
  existsb (key_eqb (JStr u)) (processed_uris p) = false ->
  let p1 := snd (_process_jsonld_item _process_concept _process_property
                   _process_relationships (JObj members) p) in
  match jget (JStr u) (classes (entity_mapping p)) with
  | Some _ => classes (entity_mapping p1) = classes (entity_mapping p)
  | None =>
      exists info,
        classes (entity_mapping p1)
        = classes (entity_mapping p) ++ [(JStr u, info)]
        /\ id info
           = ("class_" ++ PyStr.of_nat (class (entity_counts p)))%string
        /\ uri info = JStr u
  end.
Proof.
  intros Hid Hne Hcl Hnew p1. subst p1.
  unfold _process_jsonld_item. rewrite Hid.
  cbn [truthy hashable]. rewrite Hne. cbn [negb].
  unfold mbind, M_bind, bind, get, put. rewrite Hnew.
  set (p0 := Processor _ _ _ (processed_uris p ++ [JStr u])).
  pose proof (class_item_types members p0 Hcl) as Hty. cbv zeta in Hty.
  rewrite Hty. clear Hty.
  set (label := first_text label_keys members).
  pose proof (process_class_string u members label p0) as H.
  change (classes (entity_mapping p0)) with (classes (entity_mapping p))
    in H.
  change (class (entity_counts p0)) with (class (entity_counts p)) in H.
  destruct (jget (JStr u) (classes (entity_mapping p))) as [info0|].
  - rewrite H. unfold mret, M_ret, ret. cbv beta iota.
    now rewrite relationships_classes.
  - destruct H as (info & q & Hq & Hi & Hu & Hc & _). rewrite Hq.
    unfold mret, M_ret, ret. cbv beta iota.
    rewrite relationships_classes. exists info. auto.
Qed.

Hypothesis relationships_uris : forall uri item p,
  processed_uris (snd (_process_relationships uri item p))
  = processed_uris p.

(** After a class item has been processed its URI is in
    [processed_uris]. *)
Lemma class_item_marks_uri members u p :
  member "@id" members = Some (JStr u) ->
  PyStr.is_empty u = false ->
  is_class_item members = true ->
  existsb (key_eqb (JStr u))
          (processed_uris
             (snd (_process_jsonld_item _process_concept _process_property
                     _process_relationships (JObj members) p))) = true.
Proof.
  intros Hid Hne Hcl.
  unfold _process_jsonld_item. rewrite Hid.
  cbn [truthy hashable]. rewrite Hne. cbn [negb].
  unfold mbind, M_bind, bind, get, put.
  destruct (existsb (key_eqb (JStr u)) (processed_uris p)) eqn:E;
    [exact E|].
  set (p0 := Processor _ _ _ (processed_uris p ++ [JStr u])).
  assert (E0 : existsb (key_eqb (JStr u)) (processed_uris p0) = true).
  { unfold p0. cbn [processed_uris]. rewrite existsb_app.
    cbn [existsb key_eqb]. rewrite String.eqb_refl.
    now rewrite orb_true_r. }
  pose proof (class_item_types members p0 Hcl) as Hty. cbv zeta in Hty.
  rewrite Hty. clear Hty.
  set (label := first_text label_keys members).
  pose proof (process_class_string u members label p0) as H.
  destruct (jget (JStr u) (classes (entity_mapping p0))) as [info0|].
  - rewrite H. unfold mret, M_ret, ret. cbv beta iota.
    now rewrite relationships_uris.
  - destruct H as (info & q & Hq & _ & _ & _ & _ & Hu). rewrite Hq.
    unfold mret, M_ret, ret. cbv beta iota.
    now rewrite relationships_uris, Hu.
Qed.

(** Processing a class item again, any number of times, changes
    nothing. *)
Lemma class_item_iter members u p n :
  member "@id" members = Some (JStr u) ->
  PyStr.is_empty u = false ->
  is_class_item members = true ->
  (0 < n)%nat ->
  let again q :=
    snd (_process_jsonld_item _process_concept _process_property
           _process_relationships (JObj members) q) in
  Nat.iter n again p = again p.
Proof.
  intros Hid Hne Hcl Hn again.
  destruct n as [|n]; [lia|]. clear Hn.
  induction n as [|n IH]; [reflexivity|].
  change (Nat.iter (S (S n)) again p) with (again (Nat.iter (S n) again p)).
  rewrite IH. unfold again at 1.
  rewrite (item_seen _ _ _ members (JStr u)); [reflexivity | exact Hid|].
  now apply class_item_marks_uri.
Qed.

End Item.

End ItemFacts.

Module RelFacts.
Import NT Vocabulary StoreFacts.
Local Open Scope list_scope.

Lemma create_entity_relationships k prefix uri st :
  relationships (create_entity k prefix uri st) = relationships st.
Proof.
  unfold create_entity. now destruct (Dict.mem uri _).
Qed.

(** A typing triple appends no relationship. *)
Lemma typing_relationships subject predicate obj is_uri st :
  PyStr.endswith "type" predicate = true ->
  relationships (process_triple subject predicate obj is_uri st)
  = relationships st.
Proof.
  intros H. rewrite process_triple_typing by exact H.
  destruct (classify obj) as [[k prefix]|]; [|reflexivity].
  apply create_entity_relationships.
Qed.

(** Without one of the keywords in its predicate, a URI-valued triple
    that is not a typing triple changes nothing. *)
Lemma no_keyword_unchanged subject predicate obj st :
  PyStr.endswith "type" predicate = false ->
  existsb (fun rel => PyStr.contains rel predicate) relation_keywords
  = false ->
  process_triple subject predicate obj true st = st.
Proof.
  intros Ht Hkw. unfold process_triple. rewrite Ht, Hkw. reflexivity.
Qed.

End RelFacts.

(** * The claims *)

Module Claims.

Import NT Vocabulary SamplingFacts StoreFacts.
Local Open Scope list_scope.

Lemma last_chunk_sampled ls :
  sampled_triples (last_chunk ls) = sampled_triples ls.
Proof. unfold last_chunk. now destruct (current_chunk ls). Qed.

Lemma all_draws_range kn m ds n :
  In ds (all_draws kn m) ->
  Z.of_nat kn < n <= Z.of_nat (kn + m) ->
  0 <= draws_oracle (Z.of_nat kn) ds n <= n - 1.
Proof.
  revert ds. induction m as [|m IH]; intros ds Hds Hn; [lia|].
  simpl in Hds. apply in_flat_map in Hds. destruct Hds as (ds0 & H0 & Hds).
  apply in_map_iff in Hds. destruct Hds as (j & <- & Hj).
  apply in_seq in Hj. pose proof (all_draws_length kn m ds0 H0) as Hlen.
  destruct (Z.eq_dec n (Z.of_nat (kn + m) + 1)) as [->|Hne].
  - unfold draws_oracle.
    destruct (Z.leb_spec (Z.of_nat (kn + m) + 1) (Z.of_nat kn)); [lia|].
    replace (Z.to_nat (Z.of_nat (kn + m) + 1 - Z.of_nat kn - 1))
      with (length ds0) by lia.
    rewrite app_nth2 by lia. rewrite Nat.sub_diag. simpl. lia.
  - assert (E : draws_oracle (Z.of_nat kn) (ds0 ++ [Z.of_nat j]) n
                = draws_oracle (Z.of_nat kn) ds0 n).
    { unfold draws_oracle.
      destruct (Z.leb_spec n (Z.of_nat kn)); [reflexivity|].
      apply app_nth1. lia. }
    rewrite E. apply IH; [exact H0 | lia].
Qed.

(** Algorithm R with the sample size as the program has it. *)
Lemma reservoir_share (sample_size : Z) (vs : list string) (x : string) :
  0 <= sample_size -> NoDup vs ->
  sample_size <= Z.of_nat (length vs) -> In x vs ->
  let draws :=
    all_draws (Z.to_nat sample_size) (length vs - Z.to_nat sample_size) in
  Z.of_nat (length vs)
  * Z.of_nat (count (fun ds => mem x (reservoir sample_size
                                                (draws_oracle sample_size ds)
                                                0 vs []))
                    draws)
  = sample_size * Z.of_nat (length draws).
Proof.
  intros Hk Hnd Hn Hx draws. subst draws.
  set (n := length vs) in *. set (kn := Z.to_nat sample_size).
  assert (Ek : sample_size = Z.of_nat kn) by (unfold kn; lia).
  assert (En : n = (kn + (n - kn))%nat) by lia.
  pose proof (reservoir_count kn (n - kn) vs x En Hnd Hx) as H.
  cbv zeta in H. apply (f_equal Z.of_nat) in H.
  rewrite !Nat2Z.inj_mul, <- En in H. rewrite Ek. exact H.
Qed.

(** C1.  Reservoir sampling in [process_large_nt_file]
    ([random_sample=True]), for a sample size [sample_size >= 0].
    (1) When the [n]-th valid line is processed and the reservoir already
    holds [sample_size] entries, the draw [j = randint(0, n-1)] decides:
    slot [j] is overwritten by the line exactly when [j < sample_size], and
    the reservoir is left as it is otherwise.  (2) The draw sequences
    counted below are those in which the draw for valid line [n] lies in
    [0 .. n-1].  (3) As long as the early stop has not fired (at most
    [10 * sample_size] valid lines), the sample written is the reservoir of
    the valid lines, that is, the result of the same steps without the early
    stop.  (4) Whatever the valid lines are, repeated or not, the reservoir
    holds the lines found at the positions that [Positions.positions]
    gives, the same steps run on the positions [0 .. n-1] of the valid
    lines instead of their text.  (5) Without the early stop: over all the
    draw sequences, equally weighted, each position [i < n] of a stream of
    [n >= sample_size] valid lines is held by the reservoir in a share
    [sample_size / n] of them.  (6) Hence for a run on a file with
    [sample_size <= n <= 10 * sample_size] valid lines: the sample written
    holds the lines at these positions, and each valid line of the file,
    taken by its position, is in it in a share [sample_size / n] of the
    draw sequences.  (7) By text, when the valid lines are pairwise
    distinct: each line is in the reservoir in that share, and (8) in the
    sample that a run writes, when [n <= 10 * sample_size]. *)
Theorem reservoir_sampling_uniform :
  forall (chunk_size sample_size : Z) (sample_dir : string),
    0 <= sample_size ->
    (forall randint raw ls,
        is_valid (PyStr.strip raw) = true ->
        Z.of_nat (length (sampled_triples ls)) = sample_size ->
        let j := randint (valid_line_count ls + 1) in
        sampled_triples
          (fst (loop_body chunk_size sample_size true randint raw ls))
        = if j <? sample_size
          then <[Z.to_nat j := PyStr.strip raw]> (sampled_triples ls)
          else sampled_triples ls)
    /\ (forall m ds n,
           In ds (all_draws (Z.to_nat sample_size) m) ->
           sample_size < n <= sample_size + Z.of_nat m ->
           0 <= draws_oracle sample_size ds n <= n - 1)
    /\ (forall randint lines,
           Z.of_nat (length (valid_lines lines)) <= 10 * sample_size ->
           output_lines (process_large_nt_file chunk_size sample_size true
                                               randint sample_dir lines)
           = reservoir sample_size randint 0 (valid_lines lines) [])
    /\ (forall randint vs,
           reservoir sample_size randint 0 vs []
           = map (fun i => nth i vs ""%string)
                 (Positions.positions sample_size randint (length vs)))
    /\ (forall n i,
           let draws :=
             all_draws (Z.to_nat sample_size) (n - Z.to_nat sample_size) in
           sample_size <= Z.of_nat n -> (i < n)%nat ->
           Z.of_nat n
           * Z.of_nat
               (count (fun ds =>
                         Positions.holds
                           i (Positions.positions
                                sample_size (draws_oracle sample_size ds) n))
                      draws)
           = sample_size * Z.of_nat (length draws))
    /\ (forall lines i,
           let vs := valid_lines lines in
           let n := length vs in
           let draws :=
             all_draws (Z.to_nat sample_size) (n - Z.to_nat sample_size) in
           sample_size <= Z.of_nat n <= 10 * sample_size -> (i < n)%nat ->
           (forall randint,
               output_lines (process_large_nt_file
                               chunk_size sample_size true randint
                               sample_dir lines)
               = map (fun i => nth i vs ""%string)
                     (Positions.positions sample_size randint n))
           /\ Z.of_nat n
              * Z.of_nat
                  (count (fun ds =>
                            Positions.holds
                              i (Positions.positions
                                   sample_size (draws_oracle sample_size ds)
                                   n))
                         draws)
              = sample_size * Z.of_nat (length draws))
    /\ (forall vs x,
           let n := length vs in
           let draws :=
             all_draws (Z.to_nat sample_size) (n - Z.to_nat sample_size) in
           NoDup vs -> sample_size <= Z.of_nat n -> In x vs ->
           Z.of_nat n
           * Z.of_nat
               (count (fun ds =>
                         mem x (reservoir sample_size
                                          (draws_oracle sample_size ds)
                                          0 vs []))
                      draws)
           = sample_size * Z.of_nat (length draws))
    /\ (forall lines x,
           let vs := valid_lines lines in
           let n := length vs in
           let draws :=
             all_draws (Z.to_nat sample_size) (n - Z.to_nat sample_size) in
           NoDup vs ->
           sample_size <= Z.of_nat n <= 10 * sample_size ->
           In x vs ->
           Z.of_nat n
           * Z.of_nat
               (count (fun ds =>
                         mem x (output_lines
                                  (process_large_nt_file
                                     chunk_size sample_size true
                                     (draws_oracle sample_size ds)
                                     sample_dir lines)))
                      draws)
           = sample_size * Z.of_nat (length draws)).
Proof.
  intros chunk_size sample_size sample_dir Hk.
  assert (Hlink : forall randint lines,
             Z.of_nat (length (valid_lines lines)) <= 10 * sample_size ->
             output_lines (process_large_nt_file chunk_size sample_size true
                                                 randint sample_dir lines)
             = reservoir sample_size randint 0 (valid_lines lines) []).
  { intros randint lines Hn. unfold process_large_nt_file.
    cbn [output_lines].
    rewrite last_chunk_sampled, run_random_sample; [reflexivity|].
    cbn. lia. }
  split; [|split; [|split; [|split; [|split; [|split; [|split]]]]]].
  - intros randint raw ls Hv Hfull j.
    rewrite (body_random_valid _ _ _ raw ls Hv). cbv zeta.
    rewrite Hfull, Z.ltb_irrefl. fold j.
    destruct (j <? sample_size); destruct (_ >=? _); cbn [fst];
      rewrite ?flush_chunk_sampled; reflexivity.
  - intros m ds n Hds Hn.
    pose proof (all_draws_range (Z.to_nat sample_size) m ds n Hds) as H.
    rewrite Z2Nat.id in H by exact Hk. apply H. lia.
  - exact Hlink.
  - intros randint vs. apply PositionFacts.reservoir_by_position.
  - intros n i draws Hn Hi. now apply PositionFacts.position_share.
  - intros lines i vs n draws Hn Hi. split.
    + intros randint. rewrite Hlink by (fold vs; fold n; lia).
      apply PositionFacts.reservoir_by_position.
    + apply PositionFacts.position_share; [exact Hk | lia | exact Hi].
  - intros vs x n draws Hnd Hn Hx. now apply reservoir_share.
  - intros lines x vs n draws Hnd Hn Hx.
    rewrite (count_ext _
               (fun ds => mem x (reservoir sample_size
                                           (draws_oracle sample_size ds)
                                           0 vs []))).
    + apply reservoir_share; [exact Hk | exact Hnd | lia | exact Hx].
    + intros ds _. rewrite Hlink; [reflexivity | fold vs; fold n; lia].
Qed.

Lemma reservoir_sampling_uniform_witness :
  output_lines (process_large_nt_file
                  2 1 true (draws_oracle 1 [1; 0]) "./samples"
                  ["a"; "# skipped"; "a"; ""; "b"])
  = map (fun i => nth i ["a"; "a"; "b"] ""%string)
        (Positions.positions 1 (draws_oracle 1 [1; 0]) 3)
  /\ 3 * Z.of_nat
           (count (fun ds =>
                     Positions.holds
                       0 (Positions.positions 1 (draws_oracle 1 ds) 3))
                  (all_draws 1 2))
     = 1 * Z.of_nat (length (all_draws 1 2))
  /\ 3 * Z.of_nat
           (count (fun ds =>
                     mem "b" (output_lines
                                (process_large_nt_file
                                   2 1 true (draws_oracle 1 ds) "./samples"
                                   ["a"; "# skipped"; "b"; ""; "c"])))
                  (all_draws 1 2))
     = 1 * Z.of_nat (length (all_draws 1 2)).
Proof.
  destruct (reservoir_sampling_uniform 2 1 "./samples")
    as (_ & _ & _ & _ & _ & H6 & _ & H8); [lia|].
  split; [|split].
  - apply (H6 ["a"; "# skipped"; "a"; ""; "b"]%string 0%nat);
      [vm_compute; split; discriminate | vm_compute; lia].
  - apply (H6 ["a"; "# skipped"; "a"; ""; "b"]%string 0%nat);
      [vm_compute; split; discriminate | vm_compute; lia].
  - apply (H8 ["a"; "# skipped"; "b"; ""; "c"]%string "b"%string).
    + vm_compute.
      repeat (apply NoDup_cons; split;
              [rewrite list_elem_of_In; simpl; intuition discriminate|]).
      apply NoDup_nil_2.
    + vm_compute. split; discriminate.
    + vm_compute. tauto.
Defined.

(** C2, as amended.  For a sample size [sample_size >= 0].  (1) The
    sample list of the N-Triples sampler never holds more than
    [sample_size] lines, in head and in reservoir mode, whatever the lines
    read so far.  (2) The line-reconstruction JSON-LD sampler in
    sequential mode never counts more than [sample_size] items as
    sampled.  (3) In both modes of that sampler, [Handover.handed_items]
    lists the calls of [_process_jsonld_item] that the run makes: the
    processor at the end is the one that these calls leave, made in order
    and whether they return or raise, and [sampled_count] is the number of
    them that returned; in sequential mode at most [sample_size] calls
    return.  (4) The flag of a listed call tells whether the call returns
    from the processor it is made on.  (5) The whole-document JSON-LD
    sampler hands at most [sample_size] items to the item processor in
    random mode (for a [random.sample] that returns as many elements as it
    is asked for) and (6), when [sample_size > 0], in sequential mode. *)
Theorem sample_never_exceeds_size :
  forall sample_size : Z,
    0 <= sample_size ->
    (forall chunk_size random_sample randint lines,
        Z.of_nat (length (sampled_triples
                            (run_loop chunk_size sample_size random_sample
                                      randint lines init_loop)))
        <= sample_size)
    /\ (forall concept property rels loads bits lines p,
           TBox.sampled_count
             (TBox._process_large_jsonld_file
                concept property rels loads bits sample_size false lines p)
           <= sample_size)
    /\ (forall concept property rels loads bits random_sample lines p,
           let sc := TBox._process_large_jsonld_file
                       concept property rels loads bits sample_size
                       random_sample lines p in
           let log := Handover.handed_items
                        concept property rels loads bits sample_size
                        random_sample lines (TBox.init_scan p) in
           TBox.self sc
           = fold_left (fun q h =>
                          snd (TBox._process_jsonld_item concept property
                                 rels (fst h) q))
                       log p
           /\ TBox.sampled_count sc = Z.of_nat (count snd log)
           /\ (random_sample = false ->
               Z.of_nat (count snd log) <= sample_size))
    /\ (forall concept property rels loads bits random_sample raw sc item b,
           Handover.handed_on_line concept property rels loads bits
                                   sample_size random_sample raw sc
           = Some (item, b) ->
           b = match TBox._process_jsonld_item concept property rels item
                       (TBox.self sc) with
               | (TBox.Ok _, _) => true
               | (TBox.Raise _, _) => false
               end)
    /\ (forall sample_of graph_data l,
           (forall pop n, (n <= length pop)%nat ->
                          length (sample_of pop n) = n) ->
           TBox.sample_graph sample_of graph_data sample_size true
           = TBox.Ok l ->
           Z.of_nat (length l) <= sample_size)
    /\ (forall sample_of graph_data l,
           0 < sample_size ->
           TBox.sample_graph sample_of graph_data sample_size false
           = TBox.Ok l ->
           Z.of_nat (length l) <= sample_size).
Proof.
  intros sample_size Hk.
  assert (Hseq : forall concept property rels loads bits lines p,
             TBox.sampled_count
               (TBox._process_large_jsonld_file
                  concept property rels loads bits sample_size false lines p)
             <= sample_size).
  { intros. unfold TBox._process_large_jsonld_file.
    apply TBoxFacts.scan_head_bound. simpl. exact Hk. }
  split; [|split; [|split; [|split; [|split]]]].
  - intros. apply run_bound; simpl; lia.
  - exact Hseq.
  - intros concept property rels loads bits random_sample lines p sc log.
    destruct (HandoverFacts.run_handed concept property rels loads bits
                sample_size random_sample lines p) as [Hs Hc].
    split; [exact Hs|]. split; [exact Hc|].
    intros ->. fold log in Hc. rewrite <- Hc. apply Hseq.
  - intros concept property rels loads bits random_sample raw sc item b H.
    unfold Handover.handed_on_line in H.
    destruct (PyStr.contains _ _); [discriminate|].
    destruct (TBox.in_graph sc && _)%bool.
    + destruct (PyStr.is_empty _); [discriminate|].
      exact (HandoverFacts.handed_flag _ _ _ _ _ _ _ _ _ _ H).
    + destruct (TBox.in_graph sc); [|discriminate].
      destruct (PyStr.startswith _ _); [|discriminate].
      destruct (PyStr.is_empty _); [discriminate|].
      exact (HandoverFacts.handed_flag _ _ _ _ _ _ _ _ _ _ H).
  - intros sample_of graph_data l Hs H.
    eapply TBoxFacts.sample_graph_random_bound; eauto.
  - intros sample_of graph_data l Hpos H.
    eapply TBoxFacts.sample_graph_head_bound; eauto.
Qed.

Lemma sample_never_exceeds_size_witness :
  Z.of_nat (length (sampled_triples
                      (run_loop 2 2 true (fun n => n - 3)
                                ["a"; "b"; "c"; "d"] init_loop)))
  <= 2
  /\ TBox.sampled_count
       (TBox._process_large_jsonld_file
          Demo.no_node Demo.no_node Demo.no_relationships Demo.loads
          Demo.zero_bits 2 false
          [TBox.graph_start; Demo.member_line; "]";
           TBox.graph_start; Demo.member_line; "]";
           TBox.graph_start; Demo.member_line; "]"]
          TBox.init)
     <= 2
  /\ Z.of_nat (count snd
                 (Handover.handed_items
                    Demo.no_node Demo.no_node Demo.no_relationships
                    Demo.loads Demo.zero_bits 2 false
                    [TBox.graph_start; Demo.member_line; "]";
                     TBox.graph_start; Demo.member_line; "]";
                     TBox.graph_start; Demo.member_line; "]"]
                    (TBox.init_scan TBox.init)))
     <= 2
  /\ Z.of_nat (length (Demo.first_n
                         [TBox.JNull; TBox.JBool true; TBox.JNum 3] 2))
     <= 2
  /\ Z.of_nat (length (firstn 2 [TBox.JNull; TBox.JBool true; TBox.JNum 3]))
     <= 2.
Proof.
  destruct (sample_never_exceeds_size 2) as (H1 & H2 & H3 & _ & H5 & H6);
    [lia|].
  split; [apply H1|]. split; [apply H2|]. split; [|split].
  - apply (H3 Demo.no_node Demo.no_node Demo.no_relationships Demo.loads
              Demo.zero_bits false). reflexivity.
  - apply (H5 Demo.first_n [TBox.JNull; TBox.JBool true; TBox.JNum 3]);
      [|reflexivity].
    intros pop n Hn. unfold Demo.first_n. rewrite length_firstn. lia.
  - apply (H6 Demo.first_n [TBox.JNull; TBox.JBool true; TBox.JNum 3]);
      [lia | reflexivity].
Defined.

(** C2, as stated, fails.  With [sample_size = 0] the whole-document
    sampler in sequential mode keeps the whole graph (its guard is
    [sample_size > 0]), here one item; the line-reconstruction sampler
    in random mode admits both items of a file with two graph arrays when
    [sample_size = 1] and every draw is [0.0]; and the same sampler in
    sequential mode, with [sample_size = 1], hands each of three items
    with a null [@type] to [_process_jsonld_item], which records the URI
    and raises: the three URIs are in [processed_uris] at the end while
    [sampled_count] is still [0]. *)
Lemma sample_exceeds_size :
  (exists l,
      TBox.sample_graph Demo.first_n [TBox.JObj []] 0 false = TBox.Ok l
      /\ Z.of_nat (length l) > 0)
  /\ TBox.sampled_count
       (TBox._process_large_jsonld_file
          Demo.no_node Demo.no_node Demo.no_relationships Demo.loads
          Demo.zero_bits 1 true
          [TBox.graph_start; Demo.member_line; "]";
           TBox.graph_start; Demo.member_line; "]"]
          TBox.init)
     > 1
  /\ (let sc := TBox._process_large_jsonld_file
                  Demo.no_node Demo.no_node Demo.no_relationships
                  Demo.loads_null Demo.zero_bits 1 false
                  Demo.null_file TBox.init in
      Handover.handed_items
        Demo.no_node Demo.no_node Demo.no_relationships
        Demo.loads_null Demo.zero_bits 1 false Demo.null_file
        (TBox.init_scan TBox.init)
      = [(Demo.null_item "http://ex/a1", false);
         (Demo.null_item "http://ex/a2", false);
         (Demo.null_item "http://ex/a3", false)]
      /\ TBox.processed_uris (TBox.self sc)
         = [TBox.JStr "http://ex/a1"; TBox.JStr "http://ex/a2";
            TBox.JStr "http://ex/a3"]
      /\ TBox.sampled_count sc = 0
      /\ TBox.item_count sc = 3).
Proof.
  split; [|split].
  - exists [TBox.JObj []]. split; [reflexivity | simpl; lia].
  - vm_compute. reflexivity.
  - vm_compute. repeat split; reflexivity.
Qed.

(** C3.  Head sampling ([random_sample=False]).  The sample written is
    exactly the first [min(sample_size, number of valid lines)] valid
    lines, in stream order; the lines processed into the graph are
    exactly the sampled ones; and once the file has more valid lines than
    the sample can hold the loop has stopped: whatever follows in the file
    changes nothing of the result, counters included. *)
Theorem head_sampling_takes_first_lines :
  forall (chunk_size sample_size : Z) (randint : Z -> Z)
         (sample_dir : string) (lines : list string),
    let r := process_large_nt_file chunk_size sample_size false randint
                                   sample_dir lines in
    output_lines r
    = firstn (Z.to_nat (Z.min sample_size
                              (Z.of_nat (length (valid_lines lines)))))
             (valid_lines lines)
    /\ graph (final r) = process_chunk (output_lines r) init_store
    /\ (forall rest,
           Z.max 0 sample_size < Z.of_nat (length (valid_lines lines)) ->
           process_large_nt_file chunk_size sample_size false randint
                                 sample_dir (lines ++ rest)
           = r).
Proof.
  intros chunk_size sample_size randint sample_dir lines r.
  assert (Hs : sampled_triples (run_loop chunk_size sample_size false
                                         randint lines init_loop)
               = firstn (Z.to_nat sample_size) (valid_lines lines)).
  { rewrite run_head_sample by (simpl; lia). reflexivity. }
  assert (Hc : chunks_are_sample
                 (run_loop chunk_size sample_size false randint lines
                           init_loop)).
  { apply run_head_chunks. reflexivity. }
  destruct (last_chunk_graph _ Hc) as [Hg Hl].
  split; [|split].
  - unfold r, process_large_nt_file. cbn [output_lines].
    rewrite Hl, Hs.
    destruct (Z.le_ge_cases sample_size
                            (Z.of_nat (length (valid_lines lines)))).
    + now rewrite Z.min_l.
    + rewrite Z.min_r, Nat2Z.id by assumption.
      rewrite firstn_all. apply firstn_all2. lia.
  - unfold r, process_large_nt_file. cbn [output_lines final].
    rewrite Hl. exact Hg.
  - intros rest Hmore. unfold r, process_large_nt_file.
    now rewrite run_head_stop by (simpl; lia).
Qed.

Lemma head_sampling_takes_first_lines_witness :
  process_large_nt_file 10 2 false (fun _ => 0) "./samples"
                        (["a"; "# c"; "b"; "c"] ++ ["d"; "e"])
  = process_large_nt_file 10 2 false (fun _ => 0) "./samples"
                          ["a"; "# c"; "b"; "c"].
Proof.
  refine (proj2 (proj2 (head_sampling_takes_first_lines
                          10 2 (fun _ => 0) "./samples"
                          ["a"; "# c"; "b"; "c"]))
                ["d"; "e"] _).
  vm_compute. reflexivity.
Defined.

(** C4, at the input on which an endpoint of a relationship does not
    reach the output: a product [http://ex/p1] and a crowd
    [http://ex/c1], both on record, and the triple that joins them by
    [appliesTo].  [add_relationship] appends the record from [product_0]
    to [crowd_0], whose [to_id] is the identifier of the crowd in the
    entity map; [save_to_neo4j_format] then writes the products file and
    the relationships file, with the row [product_0,crowd_0,APPLIES_TO],
    and no file that holds [crowd_0]: it has no block for crowds.  The
    run on the three lines ends in the same store and writes the same two
    files (its crowd record is made by [process_crowd_entity], which is
    modelled from the spec).  What holds on every input:
    [add_relationship] either leaves the store as it is or appends one
    record, and a record is appended only with [from_id] and [to_id] read
    from records of the entity map, which it does not change; when the
    subject or the object resolves to no record the store is left exactly
    as it was, so that nothing remembers the candidate and no later step
    can retry it; over a run, every relationship of the store joins two
    identifiers that records of the entity map carry. *)
Theorem relationship_endpoint_is_not_written :
  let em := pk_set Product
                   [("http://ex/p1"%string, Entity "product_0" "p1" [])]
                   (pk_set Crowd
                           [("http://ex/c1"%string, Entity "crowd_0" "c1" [])]
                           (pk_const [])) in
  let counts := pk_set Product 1%nat (pk_set Crowd 1%nat (pk_const 0%nat)) in
  let r := Relationship "product_0" "crowd_0" "APPLIES_TO" in
  let out :=
    Written
      [("./samples/products.csv"%string,
        ["id:ID,label,:LABEL"; "product_0,p1,Product"]%string);
       ("./samples/relationships.csv"%string,
        [":START_ID,:END_ID,:TYPE"; "product_0,crowd_0,APPLIES_TO"]%string)]
      [("products"%string, "./samples/products.csv"%string);
       ("relationships"%string, "./samples/relationships.csv"%string)] in
  let run := process_large_nt_file
               1000000 10000 false (fun _ => 0) "./samples"
               ["<http://ex/p1> <http://ex/type> <http://schema/Product> .";
                "<http://ex/c1> <http://ex/type> <http://schema/Crowd> .";
                "<http://ex/p1> <http://ex/appliesTo> <http://ex/c1> ."] in
  (add_relationship "http://ex/p1" "http://ex/c1" "http://ex/appliesTo"
                    (Store em counts [])
   = Store em counts [r]
   /\ Dict.get "http://ex/c1" (pk_get Crowd em)
      = Some (Entity "crowd_0" "c1" [])
   /\ save_to_neo4j_format "./samples" em [r] = out
   /\ graph (final run) = Store em counts [r]
   /\ neo4j run = out)
  /\ (forall subject_uri object_uri predicate st,
         let st' := add_relationship subject_uri object_uri predicate st in
         entity_map st' = entity_map st
         /\ (relationships st' = relationships st
             \/ exists r,
                  relationships st' = relationships st ++ [r]
                  /\ lookup_id subject_uri (entity_map st) = Some (from_id r)
                  /\ lookup_id object_uri (entity_map st) = Some (to_id r)
                  /\ has_id (from_id r) (entity_map st')
                  /\ has_id (to_id r) (entity_map st')))
  /\ (forall subject_uri object_uri predicate st,
         lookup_id subject_uri (entity_map st) = None
         \/ lookup_id object_uri (entity_map st) = None ->
         add_relationship subject_uri object_uri predicate st = st
         /\ (PyStr.endswith "type" predicate = false ->
             process_triple subject_uri predicate object_uri true st = st))
  /\ (forall lines rel,
         In rel (relationships (process_chunk lines init_store)) ->
         has_id (from_id rel) (entity_map (process_chunk lines init_store))
         /\ has_id (to_id rel)
                   (entity_map (process_chunk lines init_store))).
Proof.
  split; [|split; [|split]].
  - vm_compute. repeat split; reflexivity.
  - intros s o p st st'. subst st'.
    destruct (add_relationship_cases s o p st)
      as [->|(f & t & Hf & Ht & _ & _ & ->)]; [auto|].
    cbn [entity_map relationships]. split; [reflexivity|].
    right. exists (Relationship f t (rel_type_of p)).
    cbn [from_id to_id]. repeat split; eauto using lookup_id_some.
  - intros s o p st H.
    assert (E : add_relationship s o p st = st).
    { unfold add_relationship. cbv zeta.
      destruct H as [-> | ->]; [reflexivity|].
      cbn [truthy]. rewrite andb_false_r. reflexivity. }
    split; [exact E|]. intros Ht. unfold process_triple. rewrite Ht.
    cbn [andb negb]. destruct (existsb _ _); [exact E | reflexivity].
  - intros lines r. apply (rels_resolved_chunk lines init_store).
    intros r' [].
Qed.

(** C5.  Entity resolution is idempotent and stable.  (1) Processing the
    same typing triple any positive number of times gives the store that
    processing it once gives; (2) on a subject that its type's mapping
    does not hold yet, this adds exactly one record, at the end of that
    mapping, and on one that it holds, nothing; (3) whatever triple is
    processed, a record that a mapping holds stays in that mapping with
    the identifier it has.  In the JSON-LD resolver: (4) [_process_class]
    called again on a URI returns the identifier of the first call and
    leaves the processor as it is, and a first call that returns has added
    exactly one record; (5) on a URI that is a string [_process_class]
    always returns, with the identifier on record and the processor
    unchanged when the URI is registered, and otherwise with a new
    identifier and exactly one new record, for that URI, at the end of
    [classes]; (6) an item typed as a class, with a non-empty string
    [@id] that is not in [processed_uris], leaves [classes] with exactly
    that one record more when the URI is not registered and as it was
    when it is, provided [_process_relationships] does not touch
    [classes]; (7) processing the same item any positive number of times
    leaves the processor that processing it once leaves, provided the
    three methods that src/ does not define leave [processed_uris]
    alone; (8) hence processing such a class item, with a URI that is not
    registered, any positive number of times leaves [classes] with
    exactly one record more, the one for its URI, provided
    [_process_relationships] touches neither [classes] nor
    [processed_uris]. *)
Theorem entity_resolution_idempotent :
  (forall subject predicate obj is_uri st n,
      PyStr.endswith "type" predicate = true -> (0 < n)%nat ->
      Nat.iter n (process_triple subject predicate obj is_uri) st
      = process_triple subject predicate obj is_uri st)
  /\ (forall subject predicate obj is_uri st k prefix,
         PyStr.endswith "type" predicate = true ->
         classify obj = Some (k, prefix) ->
         let st' := process_triple subject predicate obj is_uri st in
         if Dict.mem subject (pk_get k (entity_map st)) then st' = st
         else
           pk_get k (entity_map st')
           = pk_get k (entity_map st)
             ++ [(subject,
                  Entity (prefix
                          ++ PyStr.of_nat (pk_get k (entity_counts st)))%string
                         (local_name subject) [])])
  /\ (forall subject predicate obj is_uri st k uri e,
         Dict.get uri (pk_get k (entity_map st)) = Some e ->
         exists e',
           Dict.get uri
                    (pk_get k (entity_map (process_triple subject predicate
                                                          obj is_uri st)))
           = Some e'
           /\ NT.id e' = NT.id e)
  /\ (forall uri item label p i p1,
         TBox._process_class uri item label p = (TBox.Ok i, p1) ->
         (forall item' label',
             TBox._process_class uri item' label' p1 = (TBox.Ok i, p1))
         /\ (TBox.jget uri (TBox.classes (TBox.entity_mapping p)) = None ->
             exists info,
               TBox.id info = i
               /\ TBox.classes (TBox.entity_mapping p1)
                  = TBox.classes (TBox.entity_mapping p) ++ [(uri, info)]))
  /\ (forall u item label p,
         match TBox.jget (TBox.JStr u)
                         (TBox.classes (TBox.entity_mapping p)) with
         | Some info =>
             TBox._process_class (TBox.JStr u) item label p
             = (TBox.Ok (TBox.id info), p)
         | None =>
             exists info p1,
               TBox._process_class (TBox.JStr u) item label p
               = (TBox.Ok (TBox.id info), p1)
               /\ TBox.id info
                  = ("class_"
                     ++ PyStr.of_nat
                          (TBox.class (TBox.entity_counts p)))%string
               /\ TBox.uri info = TBox.JStr u
               /\ TBox.classes (TBox.entity_mapping p1)
                  = TBox.classes (TBox.entity_mapping p)
                    ++ [(TBox.JStr u, info)]
         end)
  /\ (forall concept property rels members u p,
         (forall uri item q,
             TBox.classes (TBox.entity_mapping (snd (rels uri item q)))
             = TBox.classes (TBox.entity_mapping q)) ->
         TBox.member "@id" members = Some (TBox.JStr u) ->
         PyStr.is_empty u = false ->
         Items.is_class_item members = true ->
         existsb (TBox.key_eqb (TBox.JStr u)) (TBox.processed_uris p)
         = false ->
         let p1 := snd (TBox._process_jsonld_item concept property rels
                                                  (TBox.JObj members) p) in
         match TBox.jget (TBox.JStr u)
                         (TBox.classes (TBox.entity_mapping p)) with
         | Some _ =>
             TBox.classes (TBox.entity_mapping p1)
             = TBox.classes (TBox.entity_mapping p)
         | None =>
             exists info,
               TBox.classes (TBox.entity_mapping p1)
               = TBox.classes (TBox.entity_mapping p)
                 ++ [(TBox.JStr u, info)]
               /\ TBox.id info
                  = ("class_"
                     ++ PyStr.of_nat
                          (TBox.class (TBox.entity_counts p)))%string
               /\ TBox.uri info = TBox.JStr u
         end)
  /\ (forall concept property rels members p n,
         (forall uri item label q,
             TBox.processed_uris (snd (concept uri item label q))
             = TBox.processed_uris q) ->
         (forall uri item label q,
             TBox.processed_uris (snd (property uri item label q))
             = TBox.processed_uris q) ->
         (forall uri item q,
             TBox.processed_uris (snd (rels uri item q))
             = TBox.processed_uris q) ->
         (0 < n)%nat ->
         let again q :=
           snd (TBox._process_jsonld_item concept property rels
                                         (TBox.JObj members) q) in
         Nat.iter n again p = again p)
  /\ (forall concept property rels members u p n,
         (forall uri item q,
             TBox.classes (TBox.entity_mapping (snd (rels uri item q)))
             = TBox.classes (TBox.entity_mapping q)) ->
         (forall uri item q,
             TBox.processed_uris (snd (rels uri item q))
             = TBox.processed_uris q) ->
         TBox.member "@id" members = Some (TBox.JStr u) ->
         PyStr.is_empty u = false ->
         Items.is_class_item members = true ->
         existsb (TBox.key_eqb (TBox.JStr u)) (TBox.processed_uris p)
         = false ->
         TBox.jget (TBox.JStr u) (TBox.classes (TBox.entity_mapping p))
         = None ->
         (0 < n)%nat ->
         let again q :=
           snd (TBox._process_jsonld_item concept property rels
                                         (TBox.JObj members) q) in
         exists info,
           TBox.classes (TBox.entity_mapping (Nat.iter n again p))
           = TBox.classes (TBox.entity_mapping p) ++ [(TBox.JStr u, info)]
           /\ TBox.id info
              = ("class_"
                 ++ PyStr.of_nat (TBox.class (TBox.entity_counts p)))%string
           /\ TBox.uri info = TBox.JStr u).
Proof.
  split; [|split; [|split; [|split; [|split; [|split; [|split]]]]]].
  - intros s p o u st n Ht Hn.
    assert (Hidem : forall st0,
               process_triple s p o u (process_triple s p o u st0)
               = process_triple s p o u st0).
    { intros st0. rewrite !process_triple_typing by exact Ht.
      destruct (classify o) as [[k prefix]|]; [|reflexivity].
      apply create_entity_idem. }
    destruct n as [|n]; [lia|]. clear Hn.
    induction n as [|n IH]; [reflexivity|].
    change (Nat.iter (S (S n)) (process_triple s p o u) st)
      with (process_triple s p o u
                           (Nat.iter (S n) (process_triple s p o u) st)).
    rewrite IH. apply Hidem.
  - intros s p o u st k prefix Ht Hc st'. subst st'.
    rewrite process_triple_typing by exact Ht. rewrite Hc.
    destruct (Dict.mem s (pk_get k (entity_map st))) eqn:E.
    + now apply create_entity_present.
    + rewrite create_entity_new by exact E. cbn [entity_map].
      apply pk_get_set_eq.
  - intros s p o u st k uri e H.
    destruct (process_triple_stable s p o u st k uri e H)
      as (e' & H' & Hid & _).
    eauto.
  - intros uri item label p i p1 H. split.
    + intros item' label'. eapply TBoxFacts.process_class_twice; eauto.
    + intros Hnew.
      destruct (TBoxFacts.process_class_new uri item label p i p1 Hnew H)
        as (info & Hi & _ & Hc & _).
      eauto.
  - intros u item label p.
    pose proof (ItemFacts.process_class_string u item label p) as H.
    destruct (TBox.jget _ _); [exact H|].
    destruct H as (info & p1 & H1 & H2 & H3 & H4 & _).
    exists info, p1. auto.
  - intros concept property rels members u p Hr Hid Hne Hcl Hnew.
    exact (ItemFacts.class_item_registered concept property rels Hr
             members u p Hid Hne Hcl Hnew).
  - intros concept property rels members p n Hc Hp Hr Hn again.
    destruct n as [|n]; [lia|]. clear Hn.
    induction n as [|n IH]; [reflexivity|].
    change (Nat.iter (S (S n)) again p)
      with (again (Nat.iter (S n) again p)).
    rewrite IH. unfold again. now apply TBoxFacts.item_twice.
  - intros concept property rels members u p n Hrc Hru Hid Hne Hcl Hnew
           Habs Hn again.
    unfold again.
    rewrite (ItemFacts.class_item_iter concept property rels Hru
               members u p n Hid Hne Hcl Hn).
    pose proof (ItemFacts.class_item_registered concept property rels Hrc
                  members u p Hid Hne Hcl Hnew) as H.
    cbv zeta in H. rewrite Habs in H. exact H.
Qed.

Lemma entity_resolution_idempotent_witness :
  Nat.iter 3 (process_triple "http://ex/u1" "http://ex/type"
                             "http://schema/User" true) init_store
  = process_triple "http://ex/u1" "http://ex/type" "http://schema/User"
                   true init_store
  /\ pk_get User
            (entity_map (process_triple "http://ex/u1" "http://ex/type"
                                        "http://schema/User" true
                                        init_store))
     = [("http://ex/u1"%string, Entity "user_0" "u1" [])]
  /\ (let item := TBox.JObj [("@id"%string, TBox.JStr "http://ex/b1");
                             ("@type"%string, TBox.JStr "owl:Class");
                             ("rdfs:label"%string, TBox.JStr "Nike")] in
      let again q :=
        snd (TBox._process_jsonld_item
               Demo.no_node Demo.no_node Demo.no_relationships item q) in
      (exists info,
          TBox.classes (TBox.entity_mapping (again TBox.init))
          = [(TBox.JStr "http://ex/b1", info)]
          /\ TBox.id info = "class_0"%string
          /\ TBox.uri info = TBox.JStr "http://ex/b1")
      /\ Nat.iter 3 again TBox.init = again TBox.init
      /\ (exists info,
             TBox.classes (TBox.entity_mapping (Nat.iter 3 again TBox.init))
             = [(TBox.JStr "http://ex/b1", info)]
             /\ TBox.id info = "class_0"%string
             /\ TBox.uri info = TBox.JStr "http://ex/b1")).
Proof.
  destruct entity_resolution_idempotent
    as (H1 & H2 & _ & _ & _ & H6 & H7 & H8).
  split; [|split; [|split; [|split]]].
  - apply H1; [vm_compute; reflexivity | lia].
  - refine (H2 "http://ex/u1"%string "http://ex/type"%string
               "http://schema/User"%string true init_store User
               "user_"%string _ _); vm_compute; reflexivity.
  - refine (H6 Demo.no_node Demo.no_node Demo.no_relationships
               [("@id"%string, TBox.JStr "http://ex/b1");
                ("@type"%string, TBox.JStr "owl:Class");
                ("rdfs:label"%string, TBox.JStr "Nike")]
               "http://ex/b1"%string TBox.init _ _ _ _ _); reflexivity.
  - apply (H7 Demo.no_node Demo.no_node Demo.no_relationships
              [("@id"%string, TBox.JStr "http://ex/b1");
               ("@type"%string, TBox.JStr "owl:Class");
               ("rdfs:label"%string, TBox.JStr "Nike")]
              TBox.init 3%nat); try reflexivity. lia.
  - refine (H8 Demo.no_node Demo.no_node Demo.no_relationships
               [("@id"%string, TBox.JStr "http://ex/b1");
                ("@type"%string, TBox.JStr "owl:Class");
                ("rdfs:label"%string, TBox.JStr "Nike")]
               "http://ex/b1"%string TBox.init 3%nat _ _ _ _ _ _ _ _);
      try reflexivity. lia.
Defined.

(** C6.  Scenario A: the typing triple of [http://ex/u1] followed by its
    [name] triple, run through [process_large_nt_file] with the default
    parameters, leaves one entity record, of type User, for
    [http://ex/u1], whose properties hold [name = Alice]; no other record
    and no relationship exist. *)
Theorem scenario_a_user_with_name :
  let r := process_large_nt_file 1000000 10000 false (fun _ => 0)
                                 "./samples"
                                 [Demo.user_line; Demo.name_line] in
  entity_map (graph (final r))
  = pk_set User
           [("http://ex/u1"%string,
             Entity "user_0" "u1" [("name"%string, "Alice"%string)])]
           (pk_const [])
  /\ relationships (graph (final r)) = []
  /\ process_chunk [Demo.user_line; Demo.name_line] init_store
     = graph (final r).
Proof. vm_compute. repeat split; reflexivity. Qed.

(** C7, at the input on which the whole-document path fails: a graph whose
    first item has a null [@type] and whose second item is a well-formed
    class.  Iterating over the null type raises in
    [_process_jsonld_item]; [_process_jsonld_graph] does not catch it, so
    [process_jsonld_file] returns [(None, {})]: no file is written and the
    second item is never looked at.  The same second item alone is written
    to the classes file. *)
Theorem bad_item_aborts_whole_document :
  forall concept property rels sample_of loads bits,
    let bad := TBox.JObj [("@id"%string, TBox.JStr "http://ex/a");
                          ("@type"%string, TBox.JNull)] in
    let good := TBox.JObj [("@id"%string, TBox.JStr "http://ex/b1");
                           ("@type"%string, TBox.JStr "owl:Class");
                           ("rdfs:label"%string, TBox.JStr "Nike")] in
    TBox.process_jsonld_file concept property rels sample_of loads bits
                             "./samples" (TBox.Whole (Some [bad; good]))
                             10000 false TBox.init
    = (None,
       TBox.Processor (TBox.Counts 0 0 0 0 0 0 0) (TBox.Mapping [] [] [])
                      [] [TBox.JStr "http://ex/a"])
    /\ fst (TBox.process_jsonld_file
              concept property Demo.no_relationships sample_of loads bits
              "./samples" (TBox.Whole (Some [good])) 10000 false TBox.init)
       = Some ([("./samples/tbox_classes.csv"%string,
                 [map TBox.JStr ["id:ID"; "uri"; "name"; "label";
                                 "description"; ":LABEL"]%string;
                  map TBox.JStr ["class_0"; "http://ex/b1"; "Nike"; "Nike";
                                 ""; "Class"]%string])],
               [("classes"%string, "./samples/tbox_classes.csv"%string)]).
Proof. intros. split; reflexivity. Qed.

(** C8, at the input on which the writer misses a mapping: an entity map
    whose only record is a crowd is written to no file at all, although
    the [crowds] mapping is not empty. *)
Theorem crowds_are_not_written :
  let em := pk_set Crowd
                   [("http://ex/c1"%string, Entity "crowd_0" "c1" [])]
                   (pk_const []) in
  pk_get Crowd em <> []
  /\ save_to_neo4j_format "./samples" em [] = Written [] []
  /\ neo4j (process_large_nt_file
              1000000 10000 false (fun _ => 0) "./samples"
              ["<http://ex/c1> <http://ex/type> <http://schema/Crowd> ."])
     = Written [] [].
Proof. vm_compute. repeat split; try reflexivity. discriminate. Qed.

(** C9, as stated, fails.  A URI-valued triple whose predicate has the
    local name [hasTheme], a key of the relation table, and whose subject
    and object both resolve, appends no relationship, because its
    predicate contains none of the four keywords that [process_triple]
    asks for.  And a URI-valued triple whose predicate,
    [http://ex/hasBrand_type], has an unmapped local name and holds a
    keyword, with both ends resolved, appends none either: the predicate
    ends in [type], so that the triple is taken for a typing triple, and
    the store stays as it is. *)
Lemma hasTheme_appends_nothing :
  let st := process_user_entity "http://ex/t1"
              (process_product_entity "http://ex/p1" init_store) in
  Dict.get (local_name "http://ex/hasTheme") rel_mapping
  = Some "HAS_THEME"%string
  /\ lookup_id "http://ex/p1" (entity_map st) = Some "product_0"%string
  /\ lookup_id "http://ex/t1" (entity_map st) = Some "user_0"%string
  /\ relationships (process_triple "http://ex/p1" "http://ex/hasTheme"
                                   "http://ex/t1" true st) = []
  /\ local_name "http://ex/hasBrand_type" = "hasBrand_type"%string
  /\ Dict.get "hasBrand_type" rel_mapping = None
  /\ existsb (fun rel => PyStr.contains rel "http://ex/hasBrand_type")
             relation_keywords = true
  /\ process_triple "http://ex/p1" "http://ex/hasBrand_type" "http://ex/t1"
                    true st = st
  /\ relationships st = [].
Proof. vm_compute. repeat split; reflexivity. Qed.

(** C9, as amended.  (1) For every URI-valued triple whose predicate does
    not end in [type] and contains one of [hasCategory], [hasBrand],
    [belongsTo], [appliesTo], and whose subject and object both resolve
    to records with non-empty identifiers, one relationship is appended:
    it joins the two identifiers and its type is the entry of the
    nine-entry table for the predicate's local name when there is one,
    the upper-cased local name otherwise.  (2) A URI-valued triple whose
    predicate contains none of the four keywords appends no relationship,
    and leaves the store as it is when its predicate does not end in
    [type].  (3) A triple whose predicate ends in [type] appends no
    relationship (it goes to the entity functions, eight of which src/
    calls but does not define; they are modelled from the spec).  (4) The
    keys and the values of the table. *)
Theorem relation_name_taxonomy :
  (forall subject predicate obj st f t,
      PyStr.endswith "type" predicate = false ->
      existsb (fun rel => PyStr.contains rel predicate) relation_keywords
      = true ->
      lookup_id subject (entity_map st) = Some f ->
      lookup_id obj (entity_map st) = Some t ->
      f <> ""%string -> t <> ""%string ->
      process_triple subject predicate obj true st
      = Store (entity_map st) (entity_counts st)
              (relationships st
               ++ [Relationship f t
                     match Dict.get (local_name predicate) rel_mapping with
                     | Some mapped => mapped
                     | None => PyStr.upper (local_name predicate)
                     end]))
  /\ (forall subject predicate obj st,
         existsb (fun rel => PyStr.contains rel predicate) relation_keywords
         = false ->
         relationships (process_triple subject predicate obj true st)
         = relationships st
         /\ (PyStr.endswith "type" predicate = false ->
             process_triple subject predicate obj true st = st))
  /\ (forall subject predicate obj is_uri st,
         PyStr.endswith "type" predicate = true ->
         relationships (process_triple subject predicate obj is_uri st)
         = relationships st)
  /\ Dict.keys rel_mapping
     = ["hasCategory"; "hasBrand"; "belongsTo"; "appliesTo";
        "suitable_for_crowd"; "suitable_for_scene"; "suitable_for_time";
        "hasTheme"; "inMarket"]%string
  /\ Dict.values rel_mapping
     = ["BELONGS_TO_CATEGORY"; "HAS_BRAND"; "BELONGS_TO"; "APPLIES_TO";
        "SUITABLE_FOR_CROWD"; "SUITABLE_FOR_SCENE"; "SUITABLE_FOR_TIME";
        "HAS_THEME"; "IN_MARKET"]%string.
Proof.
  split; [|split; [|split; [|split; reflexivity]]].
  - intros s p o st f t Ht Hkw Hf Hto Hfne Htne.
    unfold process_triple. rewrite Ht, Hkw. cbn [andb].
    unfold add_relationship. cbv zeta. rewrite Hf, Hto. cbn [truthy].
    destruct f; [congruence|]. destruct t; [congruence|]. reflexivity.
  - intros s p o st Hkw.
    destruct (PyStr.endswith "type" p) eqn:Ht.
    + split; [now apply RelFacts.typing_relationships | discriminate].
    + rewrite (RelFacts.no_keyword_unchanged s p o st Ht Hkw). auto.
  - intros s p o u st Ht. now apply RelFacts.typing_relationships.
Qed.

Lemma relation_name_taxonomy_witness :
  let st := process_user_entity "http://ex/t1"
              (process_product_entity "http://ex/p1" init_store) in
  relationships (process_triple "http://ex/p1" "http://ex/belongsTo#hasTheme"
                                "http://ex/t1" true st)
  = [Relationship "product_0" "user_0" "HAS_THEME"]
  /\ relationships (process_triple "http://ex/p1" "http://ex/hasBrandLine"
                                   "http://ex/t1" true st)
     = [Relationship "product_0" "user_0" "HASBRANDLINE"]
  /\ process_triple "http://ex/p1" "http://ex/inMarket" "http://ex/t1"
                    true st = st
  /\ relationships (process_triple "http://ex/p1"
                                   "http://ex/appliesTo_type"
                                   "http://schema/User" true st)
     = relationships st.
Proof.
  pose (st := process_user_entity "http://ex/t1"
                (process_product_entity "http://ex/p1" init_store)).
  destruct relation_name_taxonomy as (H1 & H2 & H3 & _).
  split; [|split; [|split]].
  - refine (eq_trans
              (f_equal relationships
                 (H1 "http://ex/p1" "http://ex/belongsTo#hasTheme"
                     "http://ex/t1" st "product_0" "user_0"
                     _ _ _ _ _ _)) _);
      try (vm_compute; reflexivity); discriminate.
  - refine (eq_trans
              (f_equal relationships
                 (H1 "http://ex/p1" "http://ex/hasBrandLine"
                     "http://ex/t1" st "product_0" "user_0"
                     _ _ _ _ _ _)) _);
      try (vm_compute; reflexivity); discriminate.
  - apply (H2 "http://ex/p1" "http://ex/inMarket" "http://ex/t1" st)%string;
      vm_compute; reflexivity.
  - apply (H3 "http://ex/p1" "http://ex/appliesTo_type"
              "http://schema/User" true st)%string.
    vm_compute; reflexivity.
Defined.

(** C10.  An item whose [@id] is already in [processed_uris] makes
    [_process_jsonld_item] return at once with the processor unchanged,
    whatever the three absent methods do: no label, description or
    property is updated, no relationship extracted, no counter changed. *)
Theorem seen_uri_is_skipped :
  forall concept property rels members uri p,
    TBox.member "@id" members = Some uri ->
    existsb (TBox.key_eqb uri) (TBox.processed_uris p) = true ->
    TBox._process_jsonld_item concept property rels (TBox.JObj members) p
    = (TBox.Ok tt, p).
Proof.
  intros concept property rels members uri p Hid Hseen.
  exact (TBoxFacts.item_seen concept property rels members uri p Hid Hseen).
Qed.

Lemma seen_uri_is_skipped_witness :
  let p := TBox.Processor (TBox.Counts 1 0 0 0 0 0 0)
                          (TBox.Mapping [] [] [])
                          [] [TBox.JStr "http://ex/b1"] in
  TBox._process_jsonld_item
    Demo.no_node Demo.no_node Demo.no_relationships
    (TBox.JObj [("@id"%string, TBox.JStr "http://ex/b1");
                ("@type"%string, TBox.JStr "owl:Class");
                ("rdfs:label"%string, TBox.JStr "Adidas")]) p
  = (TBox.Ok tt, p).
Proof.
  refine (seen_uri_is_skipped
            Demo.no_node Demo.no_node Demo.no_relationships
            [("@id"%string, TBox.JStr "http://ex/b1");
             ("@type"%string, TBox.JStr "owl:Class");
             ("rdfs:label"%string, TBox.JStr "Adidas")]
            (TBox.JStr "http://ex/b1") _ _ _); reflexivity.
Defined.

End Claims.

(** * Further properties of the code *)

Module TokenFacts.

Import PyStr Text TextFacts NT Lines.
Local Open Scope string_scope.

Lemma until_gt_append (b rest : string) :
  mem_char ">" b = false ->
  until_gt (b ++ String ">" rest) = Some (b, rest).
Proof.
  induction b as [|c b IH]; cbn [append until_gt mem_char];
    [now rewrite Ascii.eqb_refl|].
  intros H. apply orb_false_iff in H. destruct H as [Hc Hb].
  rewrite Ascii.eqb_sym, Hc. now rewrite (IH Hb).
Qed.

Lemma until_gt_inv (s body rest : string) :
  until_gt s = Some (body, rest) ->
  s = body ++ String ">" rest /\ mem_char ">" body = false.
Proof.
  revert body. induction s as [|c s IH]; cbn [until_gt]; intros body H;
    [discriminate|].
  destruct (Ascii.eqb c ">") eqn:E.
  - inversion H; subst. apply Ascii.eqb_eq in E. subst. now split.
  - destruct (until_gt s) as [[b r]|]; [|discriminate].
    inversion H; subst. destruct (IH b eq_refl) as [-> Hb].
    split; [reflexivity|]. cbn [mem_char]. now rewrite Ascii.eqb_sym, E.
Qed.

Lemma match_angle_append (b rest : string) :
  is_empty b = false -> mem_char ">" b = false ->
  match_angle (String "<" (b ++ String ">" rest)) = Some (b, rest).
Proof.
  intros Hne Hb. unfold match_angle. rewrite Ascii.eqb_refl.
  rewrite (until_gt_append _ _ Hb). now rewrite Hne.
Qed.

Lemma match_angle_inv (s body rest : string) :
  match_angle s = Some (body, rest) ->
  s = String "<" (body ++ String ">" rest)
  /\ is_empty body = false /\ mem_char ">" body = false.
Proof.
  unfold match_angle. destruct s as [|c s]; [discriminate|].
  destruct (Ascii.eqb c "<") eqn:E; [|discriminate].
  apply Ascii.eqb_eq in E. subst c.
  destruct (until_gt s) as [[b r]|] eqn:U; [|discriminate].
  destruct (is_empty b) eqn:Eb; [discriminate|].
  intros H. inversion H; subst.
  destruct (until_gt_inv _ _ _ U) as [-> Hb]. auto.
Qed.

Lemma match_ws_dot_one (c : ascii) (rest : string) :
  is_space c = true -> match_ws_dot (String c (String "." rest)) = true.
Proof.
  intros Hc. unfold match_ws_dot. cbn [span_len]. rewrite Hc.
  now destruct rest.
Qed.

Lemma match_ws_dot_has_dot (s : string) :
  match_ws_dot s = true -> mem_char "." s = true.
Proof.
  unfold match_ws_dot. intros H. apply andb_true_iff in H.
  destruct H as [_ H]. unfold startswith in H.
  apply (mem_char_drop _ (span_len is_space s)).
  destruct (drop _ s) as [|c r]; [discriminate|].
  cbn [String.prefix] in H. destruct (ascii_dec "." c) as [<-|];
    [|discriminate].
  cbn [mem_char]. now rewrite Ascii.eqb_refl.
Qed.

(** The greedy search for the object group stops at the first position,
    from the right, that white space and a dot follow. *)
Lemma match_dots_found (n k : nat) (s : string) :
  (k <= n)%nat ->
  match_ws_dot (drop k s) = true ->
  (forall m, (k < m <= n)%nat -> match_ws_dot (drop m s) = false) ->
  (0 < k)%nat ->
  match_dots n s = Some (take k s).
Proof.
  induction n as [|n IH]; intros Hk Hm Hno Hpos; [lia|].
  cbn [match_dots].
  destruct (Nat.eq_dec k (S n)) as [->|Hne].
  - now rewrite Hm.
  - rewrite (Hno (S n)) by lia. apply IH; auto; try lia.
    intros m Hm'. apply Hno. lia.
Qed.

Lemma match_dots_inv (n : nat) (s obj : string) :
  match_dots n s = Some obj ->
  exists k, (0 < k <= n)%nat /\ obj = take k s
            /\ match_ws_dot (drop k s) = true.
Proof.
  induction n as [|n IH]; cbn [match_dots]; [discriminate|].
  destruct (match_ws_dot (drop (S n) s)) eqn:E.
  - intros H. inversion H. exists (S n). repeat split; auto; lia.
  - intros H. destruct (IH H) as (k & Hk & Ho & Hm).
    exists k. repeat split; auto; lia.
Qed.

Lemma match_tail_inv (w : nat) (s obj : string) :
  match_tail w s = Some obj ->
  exists v k, (0 < v <= w)%nat
    /\ (0 < k <= span_len not_newline (drop v s))%nat
    /\ obj = take k (drop v s)
    /\ match_ws_dot (drop k (drop v s)) = true.
Proof.
  induction w as [|w IH]; cbn [match_tail]; [discriminate|].
  cbv zeta.
  destruct (match_dots _ (drop (S w) s)) as [o|] eqn:E.
  - intros H. inversion H; subst.
    destruct (match_dots_inv _ _ _ E) as (k & Hk & Ho & Hm).
    exists (S w), k. repeat split; auto; lia.
  - intros H. destruct (IH H) as (v & k & Hv & Hk & Ho & Hm).
    exists v, k. repeat split; auto; lia.
Qed.

(** The object group on [obj c .] is the whole of [obj]. *)
Lemma match_dots_object (obj : string) (c : ascii) :
  is_empty obj = false -> all_chars not_newline obj = true ->
  is_space c = true ->
  let r := obj ++ String c "." in
  match_dots (span_len not_newline r) r = Some obj.
Proof.
  intros Hne Hnl Hc r.
  assert (Hlen : (0 < String.length obj)%nat).
  { destruct obj; [discriminate | simpl; lia]. }
  replace (Some obj) with (Some (take (String.length obj) r))
    by (unfold r; now rewrite take_append).
  apply match_dots_found.
  - unfold r. rewrite (span_len_append _ _ _ Hnl). lia.
  - unfold r. rewrite drop_append_0. now apply match_ws_dot_one.
  - intros m [Hlo Hhi]. unfold r.
    replace m with (String.length obj + (m - String.length obj))%nat by lia.
    rewrite drop_append.
    destruct (m - String.length obj)%nat as [|[|[|j]]] eqn:Ej; try lia;
      reflexivity.
  - exact Hlen.
Qed.

Lemma until_dq_append (v rest : string) :
  mem_char (ascii_of_nat 34) v = false ->
  until_dq (v ++ String (ascii_of_nat 34) rest) = Some v.
Proof.
  induction v as [|c v IH]; cbn [append until_dq mem_char].
  - now rewrite Ascii.eqb_refl.
  - intros H. apply orb_false_iff in H. destruct H as [Hc Hv].
    rewrite Ascii.eqb_sym, Hc. now rewrite (IH Hv).
Qed.

(** The tokenizer gives back the three parts of a formatted line. *)
Lemma triple_pattern_line (s w1 p w2 obj : string) (c : ascii) :
  is_empty s = false -> mem_char ">" s = false ->
  is_empty p = false -> mem_char ">" p = false ->
  is_empty w1 = false -> all_chars is_space w1 = true ->
  is_empty w2 = false -> all_chars is_space w2 = true ->
  is_empty obj = false -> all_chars not_newline obj = true ->
  span_len is_space obj = O ->
  is_space c = true ->
  triple_pattern (triple_line s w1 p w2 obj c) = Some (s, p, obj).
Proof.
  intros Hs Hs' Hp Hp' Hw1 Hw1' Hw2 Hw2' Ho Ho' Hsp Hc.
  unfold triple_line, triple_pattern.
  change ("<" ++ s ++ ">" ++ ?r) with (String "<" (s ++ String ">" r)).
  rewrite (match_angle_append _ _ Hs Hs').
  set (r1 := w1 ++ _).
  assert (Hn1 : span_len is_space r1 = String.length w1).
  { unfold r1. rewrite (span_len_append _ _ _ Hw1').
    cbn [append span_len]. change (is_space "<") with false. cbv iota. lia. }
  rewrite Hn1.
  destruct (String.length w1 =? 0)%nat eqn:E.
  { apply Nat.eqb_eq in E. destruct w1; discriminate. }
  unfold r1. rewrite drop_append_0.
  change ("<" ++ p ++ ">" ++ ?r) with (String "<" (p ++ String ">" r)).
  rewrite (match_angle_append _ _ Hp Hp').
  set (r2 := w2 ++ _).
  assert (Hn2 : span_len is_space r2 = String.length w2).
  { unfold r2. rewrite (span_len_append _ _ _ Hw2').
    destruct obj as [|d obj]; [discriminate|].
    cbn [append span_len] in *. destruct (is_space d); [discriminate | lia]. }
  rewrite Hn2.
  destruct (String.length w2) as [|n] eqn:El.
  { destruct w2; discriminate. }
  cbn [match_tail]. cbv zeta. rewrite <- El. unfold r2.
  rewrite drop_append_0.
  pose proof (match_dots_object obj c Ho Ho' Hc) as Hd. cbv zeta in Hd.
  now rewrite Hd.
Qed.

Lemma uri_object_shape (o : string) :
  startswith "<" (uri_object o) = true
  /\ endswith ">" (uri_object o) = true
  /\ slice_1_m1 (uri_object o) = o.
Proof.
  unfold uri_object. repeat split.
  - cbn. now destruct (o ++ ">").
  - change ("<" ++ o ++ ">") with (String "<" o ++ String ">" "").
    now rewrite endswith_snoc.
  - cbn [append slice_1_m1]. apply drop_last_snoc.
Qed.

End TokenFacts.

Module LoopFacts.

Import NT Vocabulary SamplingFacts Runs.
Local Open Scope list_scope.

Lemma last_chunk_effect ls :
  graph (last_chunk ls) = process_chunk (current_chunk ls) (graph ls)
  /\ sampled_triples (last_chunk ls) = sampled_triples ls
  /\ line_count (last_chunk ls) = line_count ls
  /\ valid_line_count (last_chunk ls) = valid_line_count ls.
Proof. unfold last_chunk. destruct (current_chunk ls); cbn; auto. Qed.

Section Sizes.

Variables (c1 c2 sample_size : Z) (random_sample : bool).
Variable randint : Z -> Z.

Lemma flush_same ls ls' :
  same_progress ls ls' ->
  same_progress (flush_chunk c1 ls) (flush_chunk c2 ls').
Proof.
  unfold same_progress, flush_chunk. intros (H1 & H2 & H3 & H4).
  destruct (_ >=? c1); destruct (_ >=? c2); cbn; auto.
Qed.

Lemma body_same raw ls ls' :
  same_progress ls ls' ->
  same_progress (fst (loop_body c1 sample_size random_sample randint raw ls))
                (fst (loop_body c2 sample_size random_sample randint raw ls'))
  /\ snd (loop_body c1 sample_size random_sample randint raw ls)
     = snd (loop_body c2 sample_size random_sample randint raw ls').
Proof.
  intros (H1 & H2 & H3 & H4). unfold loop_body.
  destruct (_ || _).
  { cbn. unfold same_progress. cbn. repeat split; auto; lia. }
  cbn [sampled_triples valid_line_count]. rewrite <- H3, <- H2.
  assert (Happ : forall line,
    same_progress
      (sample_append line
         (LoopState (line_count ls + 1) (valid_line_count ls + 1)
            (chunk_count ls) (chunk_line_count ls) (sampled_triples ls)
            (current_chunk ls) (graph ls)))
      (sample_append line
         (LoopState (line_count ls' + 1) (valid_line_count ls + 1)
            (chunk_count ls') (chunk_line_count ls') (sampled_triples ls)
            (current_chunk ls') (graph ls')))).
  { intros line. unfold same_progress, sample_append. cbn.
    rewrite !process_chunk_app, H4. repeat split; auto; lia. }
  assert (Hrep : forall j line,
    same_progress
      (sample_replace j line
         (LoopState (line_count ls + 1) (valid_line_count ls + 1)
            (chunk_count ls) (chunk_line_count ls) (sampled_triples ls)
            (current_chunk ls) (graph ls)))
      (sample_replace j line
         (LoopState (line_count ls' + 1) (valid_line_count ls + 1)
            (chunk_count ls') (chunk_line_count ls') (sampled_triples ls)
            (current_chunk ls') (graph ls')))).
  { intros j line. unfold same_progress, sample_replace. cbn.
    rewrite !process_chunk_app, H4. repeat split; auto; lia. }
  assert (Hid :
    same_progress
      (LoopState (line_count ls + 1) (valid_line_count ls + 1)
         (chunk_count ls) (chunk_line_count ls) (sampled_triples ls)
         (current_chunk ls) (graph ls))
      (LoopState (line_count ls' + 1) (valid_line_count ls + 1)
         (chunk_count ls') (chunk_line_count ls') (sampled_triples ls)
         (current_chunk ls') (graph ls'))).
  { unfold same_progress. cbn. repeat split; auto; lia. }
  destruct random_sample.
  - destruct (_ <? sample_size).
    + cbn [fst snd]. split; [|reflexivity]. apply flush_same, Happ.
    + destruct (randint _ <? sample_size).
      * cbn [sample_replace valid_line_count].
        destruct (_ >=? _); cbn [fst snd]; (split; [|reflexivity]).
        -- apply Hrep.
        -- apply flush_same, Hrep.
      * cbn [valid_line_count].
        destruct (_ >=? _); cbn [fst snd]; (split; [|reflexivity]).
        -- apply Hid.
        -- apply flush_same, Hid.
  - destruct (_ <? sample_size); cbn [fst snd]; (split; [|reflexivity]).
    + apply flush_same, Happ.
    + apply Hid.
Qed.

Lemma run_same lines ls ls' :
  same_progress ls ls' ->
  same_progress (run_loop c1 sample_size random_sample randint lines ls)
                (run_loop c2 sample_size random_sample randint lines ls').
Proof.
  revert ls ls'. induction lines as [|raw rest IH]; intros ls ls' H;
    [exact H|].
  cbn [run_loop]. destruct (body_same raw ls ls' H) as [Hs Hb].
  destruct (loop_body c1 _ _ _ raw ls) as [a stop].
  destruct (loop_body c2 _ _ _ raw ls') as [b stop'].
  cbn [fst snd] in *. subst stop'. destruct stop; auto.
Qed.

End Sizes.

Section Fed.

Variables (chunk_size sample_size : Z) (random_sample : bool).
Variable randint : Z -> Z.

Local Abbreviation body :=
  (loop_body chunk_size sample_size random_sample randint).
Local Abbreviation run :=
  (run_loop chunk_size sample_size random_sample randint).

Lemma flush_processed ls :
  sample_processed ls -> sample_processed (flush_chunk chunk_size ls).
Proof.
  unfold sample_processed, flush_chunk. intros (fed & H1 & H2).
  destruct (_ >=? _); [|eauto]. cbn. exists fed. split; auto.
Qed.

Lemma append_processed line ls :
  sample_processed ls -> sample_processed (sample_append line ls).
Proof.
  unfold sample_processed, sample_append. intros (fed & H1 & H2). cbn.
  exists (fed ++ [line]). rewrite !process_chunk_app, H1. split; auto.
  intros x Hx. apply in_app_iff in Hx. apply in_app_iff.
  destruct Hx as [Hx|Hx]; auto.
Qed.

Lemma replace_processed j line ls :
  sample_processed ls -> sample_processed (sample_replace j line ls).
Proof.
  unfold sample_processed, sample_replace. intros (fed & H1 & H2). cbn.
  exists (fed ++ [line]). rewrite !process_chunk_app, H1. split; auto.
  intros x Hx. apply in_insert_inv in Hx. apply in_app_iff.
  destruct Hx as [->|Hx]; [right; now left | left; auto].
Qed.

Lemma body_processed raw ls :
  sample_processed ls -> sample_processed (fst (body raw ls)).
Proof.
  intros H. unfold loop_body.
  destruct (_ || _); [exact H|].
  cbn [sampled_triples valid_line_count].
  assert (H' : sample_processed
    (LoopState (line_count ls + 1) (valid_line_count ls + 1)
               (chunk_count ls) (chunk_line_count ls)
               (sampled_triples ls) (current_chunk ls) (graph ls)))
    by exact H.
  destruct random_sample.
  - destruct (_ <? sample_size).
    + cbn [fst]. now apply flush_processed, append_processed.
    + destruct (randint _ <? sample_size).
      * cbn [sample_replace valid_line_count].
        destruct (_ >=? _); cbn [fst].
        -- now apply (replace_processed _ _ _ H').
        -- now apply flush_processed, (replace_processed _ _ _ H').
      * cbn [valid_line_count]. destruct (_ >=? _); cbn [fst]; auto.
        now apply flush_processed.
  - destruct (_ <? sample_size); cbn [fst]; auto.
    now apply flush_processed, append_processed.
Qed.

Lemma run_processed lines ls :
  sample_processed ls -> sample_processed (run lines ls).
Proof.
  revert ls. induction lines as [|raw rest IH]; intros ls H; [exact H|].
  cbn [run_loop]. pose proof (body_processed raw ls H) as Hb.
  destruct (loop_body _ _ _ _ raw ls) as [a stop]. cbn [fst] in Hb.
  destruct stop; auto.
Qed.

Lemma flush_keeps ls :
  line_count (flush_chunk chunk_size ls) = line_count ls
  /\ valid_line_count (flush_chunk chunk_size ls) = valid_line_count ls
  /\ sampled_triples (flush_chunk chunk_size ls) = sampled_triples ls.
Proof. unfold flush_chunk. destruct (_ >=? _); cbn; auto. Qed.

Lemma body_counters raw ls n :
  counters_ok n ls -> counters_ok (S n) (fst (body raw ls)).
Proof.
  unfold counters_ok. intros (H1 & H2 & H3 & H4). unfold loop_body.
  destruct (_ || _); [cbn; lia|].
  cbn [sampled_triples valid_line_count].
  destruct random_sample.
  - destruct (_ <? sample_size).
    + cbn [fst].
      match goal with |- context [flush_chunk _ ?x] =>
        destruct (flush_keeps x) as (-> & -> & ->) end.
      cbn. rewrite length_app. cbn. lia.
    + destruct (randint _ <? sample_size).
      * cbn [sample_replace valid_line_count].
        destruct (_ >=? _); cbn [fst].
        -- cbn. rewrite length_insert. lia.
        -- match goal with |- context [flush_chunk _ ?x] =>
             destruct (flush_keeps x) as (-> & -> & ->) end.
           cbn. rewrite length_insert. lia.
      * cbn [valid_line_count]. destruct (_ >=? _); cbn [fst].
        -- cbn. lia.
        -- match goal with |- context [flush_chunk _ ?x] =>
             destruct (flush_keeps x) as (-> & -> & ->) end.
           cbn. lia.
  - destruct (_ <? sample_size); cbn [fst].
    + match goal with |- context [flush_chunk _ ?x] =>
        destruct (flush_keeps x) as (-> & -> & ->) end.
      cbn. rewrite length_app. cbn. lia.
    + cbn. lia.
Qed.

Lemma counters_mono n m ls :
  (n <= m)%nat -> counters_ok n ls -> counters_ok m ls.
Proof. unfold counters_ok. intros Hn (H1 & H2 & H3 & H4). lia. Qed.

Lemma run_counters lines ls n :
  counters_ok n ls -> counters_ok (n + length lines) (run lines ls).
Proof.
  revert ls n. induction lines as [|raw rest IH]; intros ls n H.
  - cbn. now rewrite Nat.add_0_r.
  - cbn [run_loop length]. pose proof (body_counters raw ls n H) as Hb.
    destruct (loop_body _ _ _ _ raw ls) as [a stop]. cbn [fst] in Hb.
    destruct stop.
    + apply (counters_mono (S n)); [lia | exact Hb].
    + replace (n + S (length rest))%nat with (S n + length rest)%nat by lia.
      now apply IH.
Qed.

(** After an iteration that goes on the chunk is not full; after the one
    that leaves the loop it holds at most [chunk_size] lines. *)
Lemma body_buffer raw ls :
  1 <= chunk_size ->
  chunk_line_count ls = Z.of_nat (length (current_chunk ls)) ->
  chunk_line_count ls < chunk_size ->
  chunk_line_count (fst (body raw ls))
  = Z.of_nat (length (current_chunk (fst (body raw ls))))
  /\ (if snd (body raw ls)
      then chunk_line_count (fst (body raw ls)) <= chunk_size
      else chunk_line_count (fst (body raw ls)) < chunk_size).
Proof.
  intros Hc H1 H2. unfold loop_body.
  destruct (_ || _); [cbn; lia|].
  cbn [sampled_triples valid_line_count].
  assert (Hf : forall ls',
    chunk_line_count ls' = Z.of_nat (length (current_chunk ls')) ->
    chunk_line_count (flush_chunk chunk_size ls')
    = Z.of_nat (length (current_chunk (flush_chunk chunk_size ls')))
    /\ chunk_line_count (flush_chunk chunk_size ls') < chunk_size).
  { intros ls' H. unfold flush_chunk.
    destruct (Z.geb_spec (chunk_line_count ls') chunk_size); cbn; lia. }
  destruct random_sample.
  - destruct (_ <? sample_size).
    + cbn [fst snd]. apply Hf. cbn. rewrite length_app. cbn. lia.
    + destruct (randint _ <? sample_size).
      * cbn [sample_replace valid_line_count].
        destruct (_ >=? _); cbn [fst snd].
        -- cbn. rewrite length_app. cbn. lia.
        -- apply Hf. cbn. rewrite length_app. cbn. lia.
      * cbn [valid_line_count]. destruct (_ >=? _); cbn [fst snd].
        -- cbn. lia.
        -- apply Hf. cbn. lia.
  - destruct (_ <? sample_size); cbn [fst snd].
    + apply Hf. cbn. rewrite length_app. cbn. lia.
    + cbn. lia.
Qed.

Lemma run_buffer lines ls :
  1 <= chunk_size ->
  chunk_line_count ls = Z.of_nat (length (current_chunk ls)) ->
  chunk_line_count ls < chunk_size ->
  chunk_line_count (run lines ls)
  = Z.of_nat (length (current_chunk (run lines ls)))
  /\ chunk_line_count (run lines ls) <= chunk_size.
Proof.
  intros Hc. revert ls. induction lines as [|raw rest IH]; intros ls H1 H2.
  - cbn. lia.
  - cbn [run_loop].
    pose proof (body_buffer raw ls Hc H1 H2) as Hb.
    destruct (loop_body _ _ _ _ raw ls) as [a stop]. cbn [fst snd] in Hb.
    destruct stop; [exact Hb|]. apply IH; tauto.
Qed.

Lemma flush_reading ls :
  reading sample_size random_sample ls ->
  reading sample_size random_sample (flush_chunk chunk_size ls).
Proof.
  unfold reading, flush_chunk. destruct (_ >=? _); cbn; auto.
Qed.

Lemma body_reading raw ls :
  reading sample_size random_sample ls ->
  if snd (body raw ls)
  then valid_line_count (fst (body raw ls))
       <= read_bound sample_size random_sample
  else reading sample_size random_sample (fst (body raw ls)).
Proof.
  intros H. unfold loop_body.
  destruct (_ || _); [exact H|].
  cbn [sampled_triples valid_line_count].
  pose proof flush_reading as Hfl.
  unfold reading, read_bound in *. destruct H as [H0 H].
  destruct random_sample.
  - destruct H as [H1 H2].
    destruct (Z.ltb_spec (Z.of_nat (length (sampled_triples ls)))
                         sample_size) as [Hlt|Hge].
    + cbn [fst snd]. apply Hfl. cbn.
      rewrite length_app. cbn [length]. lia.
    + destruct (randint _ <? sample_size).
      * cbn [sample_replace valid_line_count].
        destruct (Z.geb_spec (valid_line_count ls + 1) (sample_size * 10));
          cbn [fst snd sample_replace valid_line_count]; [lia|].
        apply Hfl. cbn. rewrite length_insert. lia.
      * cbn [valid_line_count].
        destruct (Z.geb_spec (valid_line_count ls + 1) (sample_size * 10));
          cbn [fst snd sample_replace valid_line_count]; [lia|].
        apply Hfl. cbn. lia.
  - destruct H as [H1 H2].
    destruct (Z.ltb_spec (Z.of_nat (length (sampled_triples ls)))
                         sample_size) as [Hlt|Hge]; cbn [fst snd].
    + apply Hfl. cbn. rewrite length_app. cbn [length]. lia.
    + cbn. lia.
Qed.

Lemma run_reading lines ls :
  reading sample_size random_sample ls ->
  valid_line_count (run lines ls) <= read_bound sample_size random_sample.
Proof.
  revert ls. induction lines as [|raw rest IH]; intros ls H.
  - cbn [run_loop]. unfold reading, read_bound in *.
    destruct random_sample; lia.
  - cbn [run_loop]. pose proof (body_reading raw ls H) as Hb.
    destruct (loop_body _ _ _ _ raw ls) as [a stop]. cbn [fst snd] in Hb.
    destruct stop; auto.
Qed.

(** A line enters the sample only as the stripped text of a valid line. *)
Lemma body_sample_valid raw ls x :
  In x (sampled_triples (fst (body raw ls))) ->
  In x (sampled_triples ls) \/ In x (valid_lines [raw]).
Proof.
  unfold loop_body, valid_lines, is_valid. cbn [map List.filter].
  destruct (_ || _); cbn [negb]; [now left|].
  cbn [sampled_triples valid_line_count].
  assert (Happ : In x (sampled_triples ls ++ [PyStr.strip raw]) ->
                 In x (sampled_triples ls) \/ In x [PyStr.strip raw]).
  { intros H. now apply in_app_iff in H. }
  assert (Hins : forall j,
            In x (<[j := PyStr.strip raw]> (sampled_triples ls)) ->
            In x (sampled_triples ls) \/ In x [PyStr.strip raw]).
  { intros j H. apply in_insert_inv in H.
    destruct H as [->|H]; [right; now left | now left]. }
  destruct random_sample.
  - destruct (_ <? sample_size).
    + cbn [fst]. rewrite flush_chunk_sampled. exact Happ.
    + destruct (randint _ <? sample_size).
      * cbn [sample_replace valid_line_count].
        destruct (_ >=? _); cbn [fst]; rewrite ?flush_chunk_sampled;
          apply Hins.
      * cbn [valid_line_count].
        destruct (_ >=? _); cbn [fst]; rewrite ?flush_chunk_sampled;
          now left.
  - destruct (_ <? sample_size); cbn [fst]; rewrite ?flush_chunk_sampled;
      [exact Happ | now left].
Qed.

Lemma run_sample_valid lines ls x :
  In x (sampled_triples (run lines ls)) ->
  In x (sampled_triples ls) \/ In x (valid_lines lines).
Proof.
  revert ls. induction lines as [|raw rest IH]; intros ls H; [now left|].
  cbn [run_loop] in H.
  pose proof (body_sample_valid raw ls x) as Hb.
  destruct (loop_body _ _ _ _ raw ls) as [a stop]. cbn [fst] in Hb.
  change (raw :: rest) with ([raw] ++ rest). rewrite valid_lines_app.
  rewrite in_app_iff.
  destruct stop.
  - destruct (Hb H); auto.
  - destruct (IH a H) as [H'|H']; [|auto]. destruct (Hb H'); auto.
Qed.

End Fed.

End LoopFacts.

Module WriterFacts.

Import NT.
Local Open Scope list_scope.

(** The rows written, all files together, grow by one header when the
    file is written and by one row per record. *)
Lemma save_entities_rows sample_dir k file_name header row em w :
  (length (concat (map snd (files
     (save_entities sample_dir k file_name header row em w))))
   = length (concat (map snd (files w)))
     + (length (files (save_entities sample_dir k file_name header row em w))
        - length (files w))
     + length (pk_get k em))%nat
  /\ (length (files w)
      <= length (files (save_entities sample_dir k file_name header row
                                      em w)))%nat.
Proof.
  unfold save_entities.
  destruct (pk_get k em) as [|e l]; [cbn [length]; lia|].
  cbn [files]. rewrite map_app, concat_app, !length_app. cbn.
  unfold Dict.values. rewrite app_nil_r, !length_map. lia.
Qed.

Lemma save_relationships_rows sample_dir rels w :
  (length (concat (map snd (files (save_relationships sample_dir rels w))))
   = length (concat (map snd (files w)))
     + (length (files (save_relationships sample_dir rels w))
        - length (files w))
     + length rels)%nat
  /\ (length (files w)
      <= length (files (save_relationships sample_dir rels w)))%nat.
Proof.
  unfold save_relationships.
  destruct rels as [|r l]; [cbn [length]; lia|].
  cbn [files]. rewrite map_app, concat_app, !length_app. cbn.
  rewrite app_nil_r, !length_map. lia.
Qed.

End WriterFacts.

Module ScanFacts.

Import TBox Ontology TextFacts TBoxFacts.
Local Open Scope list_scope.

Section Scanner.

Variable _process_concept : json -> list (string * json) -> json -> M unit.
Variable _process_property : json -> list (string * json) -> json -> M unit.
Variable _process_relationships : json -> list (string * json) -> M unit.
Variable json_loads : string -> option json.
Variable random_bits : Z -> Z.

Local Abbreviation try_item_ :=
  (try_item _process_concept _process_property _process_relationships
            json_loads random_bits).
Local Abbreviation scan_line_ :=
  (scan_line _process_concept _process_property _process_relationships
             json_loads random_bits).

Lemma try_item_counts sample_size random_sample sc :
  in_graph (try_item_ sample_size random_sample sc) = in_graph sc
  /\ item_count sc <= item_count (try_item_ sample_size random_sample sc)
     <= item_count sc + 1
  /\ sampled_count sc <= sampled_count (try_item_ sample_size random_sample sc)
  /\ sampled_count (try_item_ sample_size random_sample sc) - sampled_count sc
     <= item_count (try_item_ sample_size random_sample sc) - item_count sc.
Proof.
  unfold try_item.
  destruct (json_loads _); [|repeat split; lia].
  cbn [sampled_count item_count in_graph self current_item].
  destruct (if random_sample then _ else _) as [[]|e]; cbn;
    try (repeat split; lia).
  destruct (_process_jsonld_item _ _ _ _ _) as [[[]|e] p']; cbn;
    repeat split; lia.
Qed.

Lemma scan_line_ok sample_size random_sample raw sc n :
  scan_ok n sc ->
  scan_ok (n + (if opens_graph raw then 1 else 0))
          (scan_line_ sample_size random_sample raw sc).
Proof.
  unfold scan_ok, opens_graph, scan_line, graph_start.
  intros (H1 & H2 & H3).
  rewrite strip_not_indented.
  destruct (PyStr.contains _ _).
  { cbn. destruct (in_graph sc); lia. }
  rewrite Nat.add_0_r.
  destruct (in_graph sc) eqn:G; cbn [andb]; [|cbn; rewrite ?G; lia].
  destruct (String.eqb _ "]").
  - cbn [current_item]. destruct (PyStr.is_empty _).
    + cbn. lia.
    + match goal with |- context [try_item _ _ _ _ _ ?s ?r ?x] =>
        pose proof (try_item_counts s r x) as T end.
      cbn [in_graph item_count sampled_count] in T.
      unfold set_item. cbn [in_graph item_count sampled_count].
      destruct T as (T1 & T2 & T3 & T4). rewrite T1. lia.
  - unfold set_item. cbn. rewrite G. lia.
Qed.

Lemma scan_ok_run sample_size random_sample lines sc n :
  scan_ok n sc ->
  scan_ok (n + Vocabulary.count opens_graph lines)
    (fold_left (fun sc raw => scan_line_ sample_size random_sample raw sc)
               lines sc).
Proof.
  revert sc n. induction lines as [|raw rest IH]; intros sc n H.
  - cbn. now rewrite Nat.add_0_r.
  - cbn [fold_left]. unfold Vocabulary.count. cbn [List.filter].
    pose proof (scan_line_ok sample_size random_sample raw sc n H) as H'.
    apply IH in H'. unfold Vocabulary.count in H'.
    destruct (opens_graph raw); cbn [length].
    + now replace (n + S (length (List.filter opens_graph rest)))%nat
        with (n + 1 + length (List.filter opens_graph rest))%nat by lia.
    + now rewrite Nat.add_0_r in H'.
Qed.

End Scanner.

Lemma save_nodes_rectangular output_dir file_name key label_name with_type
    d w :
  Forall rectangular (fst w) ->
  Forall rectangular
    (fst (save_nodes output_dir file_name key label_name with_type d w)).
Proof.
  intros H. unfold save_nodes. destruct d as [|x l]; [exact H|].
  cbn [fst]. apply Forall_app. split; [exact H|].
  constructor; [|constructor].
  unfold rectangular. cbn [snd hd]. constructor; [reflexivity|].
  unfold node_rows. apply List.Forall_forall. intros row Hr.
  apply in_map_iff in Hr. destruct Hr as (kv & <- & _).
  unfold node_header. destruct with_type; reflexivity.
Qed.

End ScanFacts.

Module RarFacts.

Import Vocabulary SamplingFacts Rar.
Local Open Scope list_scope.

Lemma filter_mem_self (l : list string) :
  List.filter (fun f => mem f l) l = l.
Proof.
  apply List.forallb_filter_id. apply forallb_forall. intros x Hx.
  now apply mem_true_iff.
Qed.

Lemma extract_each_all (extract_ok : string -> bool) (l : list string) :
  (forall f, In f l -> extract_ok f = true) ->
  extract_each extract_ok l = Some l /\ List.filter extract_ok l = l.
Proof.
  induction l as [|f l IH]; intros H; [now split|].
  cbn [extract_each List.filter]. rewrite (H f) by now left.
  destruct IH as [-> ->]; [intros g Hg; apply H; now right|]. now split.
Qed.

Lemma extract_each_fails (extract_ok : string -> bool) (f : string)
    (l : list string) :
  In f l -> extract_ok f = false -> extract_each extract_ok l = None.
Proof.
  intros Hin Hbad. induction l as [|x l IH]; [destruct Hin|].
  cbn [extract_each]. destruct (extract_ok x) eqn:Ex; [|reflexivity].
  destruct Hin as [->|Hin]; [congruence|]. now rewrite IH.
Qed.

End RarFacts.

Module Extras.

Import PyStr Text Lines TextFacts TokenFacts.
Import NT Vocabulary Runs Numbering SamplingFacts StoreFacts LoopFacts.
Import WriterFacts.
Local Open Scope list_scope.

(** X1: a line [<s> <p> <o> .] whose subject and predicate are non-empty
    and free of [>], with any non-empty white space between the parts and
    one white-space character before the final dot, is tokenized into its
    three parts and handed to [process_triple] as a URI-valued triple on
    [o], the text between the angle brackets of the object ([o] may be any
    text without a line feed). *)
Theorem uri_triple_line_is_tokenized (s w1 p w2 o : string) (c : ascii)
    (st : store) :
  is_empty s = false -> mem_char ">" s = false ->
  is_empty p = false -> mem_char ">" p = false ->
  is_empty w1 = false -> all_chars is_space w1 = true ->
  is_empty w2 = false -> all_chars is_space w2 = true ->
  all_chars not_newline o = true ->
  is_space c = true ->
  process_line (triple_line s w1 p w2 (uri_object o) c) st
  = process_triple (strip_chars "<>" s) (strip_chars "<>" p) o true st.
Proof.
  intros Hs Hs' Hp Hp' Hw1 Hw1' Hw2 Hw2' Ho Hc.
  unfold process_line. rewrite triple_pattern_line; auto.
  - destruct (uri_object_shape o) as (-> & -> & ->). reflexivity.
  - unfold uri_object. cbn [append all_chars].
    rewrite all_chars_append, Ho. reflexivity.
Qed.

Lemma uri_triple_line_is_tokenized_witness :
  process_line
    (triple_line "http://ex/p1" " " "http://ex/hasBrand" " "
                 (uri_object "http://ex/b1") " ")
    init_store
  = process_triple (strip_chars "<>" "http://ex/p1")
                   (strip_chars "<>" "http://ex/hasBrand")
                   "http://ex/b1" true init_store.
Proof.
  apply (uri_triple_line_is_tokenized
           "http://ex/p1" " " "http://ex/hasBrand" " " "http://ex/b1" " "
           init_store); reflexivity.
Defined.

(** X2: on a line whose object is a quoted literal, whatever follows the
    closing quote (a datatype, a language tag, or any other text without a
    line feed) is dropped: [process_triple] receives the text between the
    quotes, as a literal. *)
Theorem literal_suffix_is_dropped (s w1 p w2 v suffix : string) (c : ascii)
    (st : store) :
  is_empty s = false -> mem_char ">" s = false ->
  is_empty p = false -> mem_char ">" p = false ->
  is_empty w1 = false -> all_chars is_space w1 = true ->
  is_empty w2 = false -> all_chars is_space w2 = true ->
  mem_char (ascii_of_nat 34) v = false ->
  all_chars not_newline (v ++ suffix) = true ->
  is_space c = true ->
  process_line (triple_line s w1 p w2 (literal_object v suffix) c) st
  = process_triple (strip_chars "<>" s) (strip_chars "<>" p) v false st.
Proof.
  intros Hs Hs' Hp Hp' Hw1 Hw1' Hw2 Hw2' Hv Hnl Hc.
  unfold process_line. rewrite triple_pattern_line; auto.
  - unfold literal_object, dq. cbn [append].
    change (startswith "<" (String (ascii_of_nat 34) ?r)) with false.
    cbn [andb literal_value]. rewrite Ascii.eqb_refl.
    now rewrite (until_dq_append _ _ Hv).
  - unfold literal_object, dq. cbn [append all_chars].
    rewrite all_chars_append in *. apply andb_true_iff in Hnl.
    destruct Hnl as [-> Hsuf]. cbn [all_chars]. now rewrite Hsuf.
Qed.

Lemma literal_suffix_is_dropped_witness :
  process_line
    (triple_line "http://ex/u1" " " "http://ex/name" " "
                 (literal_object "Alice" "@en") " ")
    init_store
  = process_triple (strip_chars "<>" "http://ex/u1")
                   (strip_chars "<>" "http://ex/name")
                   "Alice" false init_store.
Proof.
  apply (literal_suffix_is_dropped
           "http://ex/u1" " " "http://ex/name" " " "Alice" "@en" " "
           init_store); reflexivity.
Defined.

(** X3: a URI object followed by two white-space characters before the
    final dot, the first of them no line feed, is not recognised as a URI.
    The greedy object group of the pattern keeps the first of the two
    characters, so the object no longer ends with [>]: it is handed to
    [process_triple] as a literal, angle brackets and that character
    included. *)
Theorem padded_uri_object_is_a_literal (s w1 p w2 o : string)
    (c1 c2 : ascii) (st : store) :
  is_empty s = false -> mem_char ">" s = false ->
  is_empty p = false -> mem_char ">" p = false ->
  is_empty w1 = false -> all_chars is_space w1 = true ->
  is_empty w2 = false -> all_chars is_space w2 = true ->
  all_chars not_newline o = true ->
  is_blank c1 = true ->
  is_space c2 = true ->
  process_line (triple_line s w1 p w2 (uri_object o ++ String c1 "") c2) st
  = process_triple (strip_chars "<>" s) (strip_chars "<>" p)
                   (uri_object o ++ String c1 "") false st.
Proof.
  intros Hs Hs' Hp Hp' Hw1 Hw1' Hw2 Hw2' Ho Hc1 Hc2.
  apply andb_true_iff in Hc1. destruct Hc1 as [Hsp Hnl].
  unfold process_line. rewrite triple_pattern_line; auto.
  - rewrite endswith_snoc.
    replace (Ascii.eqb c1 ">") with false.
    + rewrite andb_false_r. unfold uri_object. reflexivity.
    + symmetry. apply Ascii.eqb_neq. intros ->. discriminate.
  - unfold uri_object. cbn [append all_chars].
    rewrite !all_chars_append, Ho. cbn [all_chars]. now rewrite Hnl.
Qed.

Lemma padded_uri_object_is_a_literal_witness :
  process_line
    (triple_line "http://ex/p1" " " "http://ex/hasBrand" " "
                 (uri_object "http://ex/b1" ++ " ") " ")
    init_store
  = process_triple (strip_chars "<>" "http://ex/p1")
                   (strip_chars "<>" "http://ex/hasBrand")
                   (uri_object "http://ex/b1" ++ " ") false init_store.
Proof.
  apply (padded_uri_object_is_a_literal
           "http://ex/p1" " " "http://ex/hasBrand" " " "http://ex/b1"
           " " " " init_store); reflexivity.
Defined.

(** X4: what a match of the triple pattern says of the line.  The line
    starts with the subject in angle brackets, white space, the predicate
    in angle brackets, white space and the object group, and what follows
    the object group starts with white space and a dot; subject and
    predicate are non-empty and hold no [>], the object group is non-empty
    and holds no line feed. *)
Theorem triple_pattern_sound (line s p obj : string) :
  triple_pattern line = Some (s, p, obj) ->
  exists w1 w2 rest,
    line = ("<" ++ s ++ ">" ++ w1 ++ "<" ++ p ++ ">" ++ w2 ++ obj ++ rest)%string
    /\ (is_empty s = false /\ mem_char ">" s = false)
    /\ (is_empty p = false /\ mem_char ">" p = false)
    /\ (is_empty w1 = false /\ all_chars is_space w1 = true)
    /\ (is_empty w2 = false /\ all_chars is_space w2 = true)
    /\ (is_empty obj = false /\ all_chars not_newline obj = true)
    /\ match_ws_dot rest = true.
Proof.
  unfold triple_pattern.
  destruct (match_angle line) as [[s0 r1]|] eqn:A1; [|discriminate].
  destruct (match_angle_inv _ _ _ A1) as (-> & Hs & Hs').
  destruct (span_len is_space r1 =? 0)%nat eqn:E1; [discriminate|].
  apply Nat.eqb_neq in E1.
  destruct (match_angle (drop _ r1)) as [[p0 r2]|] eqn:A2; [|discriminate].
  destruct (match_angle_inv _ _ _ A2) as (Hr1 & Hp & Hp').
  destruct (match_tail _ r2) as [o|] eqn:T; [|discriminate].
  intros H. inversion H; subst s0 p0 o. clear H.
  destruct (match_tail_inv _ _ _ T) as (v & k & Hv & Hk & Ho & Hm).
  exists (take (span_len is_space r1) r1), (take v r2), (drop k (drop v r2)).
  pose proof (span_len_le is_space r1) as L1.
  pose proof (span_len_le is_space r2) as L2.
  pose proof (span_len_le not_newline (drop v r2)) as L3.
  assert (Hne : forall n x, (0 < n)%nat -> (n <= String.length x)%nat ->
                            is_empty (take n x) = false).
  { intros n x Hn Hx. pose proof (take_nonempty n x Hn Hx) as Hq.
    now destruct (take n x). }
  repeat split; auto.
  - cbn [append]. f_equal. f_equal. f_equal.
    rewrite <- (take_drop (span_len is_space r1) r1) at 1. f_equal.
    rewrite Hr1. cbn [append]. f_equal. f_equal. f_equal.
    rewrite <- (take_drop v r2) at 1. f_equal.
    rewrite Ho. symmetry. apply take_drop.
  - apply Hne; lia.
  - now apply all_chars_take.
  - apply Hne; lia.
  - apply all_chars_take. lia.
  - rewrite Ho. apply Hne; lia.
  - rewrite Ho. apply all_chars_take. lia.
Qed.

Lemma triple_pattern_sound_witness :
  exists w1 w2 rest,
    Demo.user_line
    = ("<" ++ "http://ex/u1" ++ ">" ++ w1 ++ "<" ++ "http://ex/type" ++ ">"
       ++ w2 ++ "<http://schema/User>" ++ rest)%string
    /\ (is_empty "http://ex/u1" = false
        /\ mem_char ">" "http://ex/u1" = false)
    /\ (is_empty "http://ex/type" = false
        /\ mem_char ">" "http://ex/type" = false)
    /\ (is_empty w1 = false /\ all_chars is_space w1 = true)
    /\ (is_empty w2 = false /\ all_chars is_space w2 = true)
    /\ (is_empty "<http://schema/User>" = false
        /\ all_chars not_newline "<http://schema/User>" = true)
    /\ match_ws_dot rest = true.
Proof.
  apply (triple_pattern_sound Demo.user_line "http://ex/u1"
           "http://ex/type" "<http://schema/User>").
  reflexivity.
Defined.

(** X5: a line that does not start with [<], or holds no [>], or holds no
    dot, does not match the triple pattern: [process_chunk] skips it and
    the store stays as it is (a blank-node subject, a line cut before its
    final dot). *)
Theorem malformed_lines_are_skipped (line : string) (st : store) :
  startswith "<" line = false \/ mem_char ">" line = false
  \/ mem_char "." line = false ->
  process_line line st = st.
Proof.
  intros H. unfold process_line.
  destruct (triple_pattern line) as [[[s p] obj]|] eqn:E; [|reflexivity].
  exfalso. revert E. unfold triple_pattern.
  destruct (match_angle line) as [[s0 r1]|] eqn:A1; [|discriminate].
  destruct (match_angle_inv _ _ _ A1) as (Hl & _ & _).
  destruct (_ =? 0)%nat; [discriminate|].
  destruct (match_angle (drop _ r1)) as [[p0 r2]|] eqn:A2; [|discriminate].
  destruct (match_angle_inv _ _ _ A2) as (Hr1 & _ & _).
  destruct (match_tail _ r2) as [o|] eqn:T; [|discriminate]. intros _.
  destruct (match_tail_inv _ _ _ T) as (v & k & _ & _ & _ & Hm).
  apply match_ws_dot_has_dot in Hm. do 2 apply mem_char_drop in Hm.
  assert (Hd : mem_char "." r1 = true).
  { apply (mem_char_drop _ (span_len is_space r1)). rewrite Hr1.
    cbn [mem_char]. rewrite mem_char_append. cbn [mem_char].
    rewrite Hm. now rewrite !orb_true_r. }
  subst line. destruct H as [H|[H|H]].
  - cbn in H. destruct (s0 ++ _)%string; discriminate.
  - cbn [mem_char] in H. rewrite mem_char_append in H. cbn [mem_char] in H.
    rewrite Ascii.eqb_refl in H. cbn [orb] in H.
    rewrite !orb_true_r in H. discriminate.
  - cbn [mem_char] in H. rewrite mem_char_append in H. cbn [mem_char] in H.
    rewrite Hd, !orb_true_r in H. discriminate.
Qed.

Lemma malformed_lines_are_skipped_witness :
  process_line "_:b1 <http://ex/type> <http://schema/User> ." init_store
  = init_store.
Proof.
  apply (malformed_lines_are_skipped
           "_:b1 <http://ex/type> <http://schema/User> ." init_store).
  left. reflexivity.
Defined.

(** X6: the chunk size changes nothing that a run produces.  Two runs of
    [process_large_nt_file] on the same file, with the same sample size,
    mode and random draws but any two chunk sizes, write the same sample
    lines, end with the same graph, write the same Neo4j files and read
    the same number of lines. *)
Theorem chunk_size_is_immaterial (c1 c2 sample_size : Z)
    (random_sample : bool) (randint : Z -> Z) (sample_dir : string)
    (lines : list string) :
  let r1 := process_large_nt_file c1 sample_size random_sample randint
                                  sample_dir lines in
  let r2 := process_large_nt_file c2 sample_size random_sample randint
                                  sample_dir lines in
  output_lines r1 = output_lines r2
  /\ graph (final r1) = graph (final r2)
  /\ neo4j r1 = neo4j r2
  /\ line_count (final r1) = line_count (final r2)
  /\ valid_line_count (final r1) = valid_line_count (final r2).
Proof.
  cbv zeta. unfold process_large_nt_file. cbn [output_lines neo4j final].
  assert (H0 : same_progress init_loop init_loop)
    by (unfold same_progress; auto).
  pose proof (run_same c1 c2 sample_size random_sample randint lines _ _ H0)
    as (H1 & H2 & H3 & H4).
  destruct (last_chunk_effect
              (run_loop c1 sample_size random_sample randint lines init_loop))
    as (G1 & S1 & L1 & V1).
  destruct (last_chunk_effect
              (run_loop c2 sample_size random_sample randint lines init_loop))
    as (G2 & S2 & L2 & V2).
  rewrite G1, G2, S1, S2, L1, L2, V1, V2, H4.
  repeat split; auto.
Qed.

(** X7: every line of the sample written has been processed into the
    graph, in both modes: the final graph is the result of
    [process_chunk] on a list of lines that holds every sampled line.  (In
    random mode the list also holds the lines that were sampled and later
    replaced: what they created stays in the graph.) *)
Theorem sampled_lines_are_processed (chunk_size sample_size : Z)
    (random_sample : bool) (randint : Z -> Z) (sample_dir : string)
    (lines : list string) :
  let r := process_large_nt_file chunk_size sample_size random_sample
                                 randint sample_dir lines in
  exists fed : list string,
    graph (final r) = process_chunk fed init_store
    /\ forall x, In x (output_lines r) -> In x fed.
Proof.
  cbv zeta. unfold process_large_nt_file. cbn [output_lines final].
  assert (H0 : sample_processed init_loop).
  { exists []. split; [reflexivity | intros x []]. }
  destruct (run_processed chunk_size sample_size random_sample randint
                          lines _ H0) as (fed & H1 & H2).
  destruct (last_chunk_effect
              (run_loop chunk_size sample_size random_sample randint lines
                        init_loop)) as (G & S & _).
  exists fed. rewrite G, S. auto.
Qed.

(** X8: the counters of the loop are consistent when it ends:
    [valid_line_count] is not negative and at most [line_count], which is
    at most the number of lines of the file, and the sample holds at most
    [valid_line_count] lines. *)
Theorem counters_are_consistent (chunk_size sample_size : Z)
    (random_sample : bool) (randint : Z -> Z) (lines : list string) :
  let ls := run_loop chunk_size sample_size random_sample randint lines
                     init_loop in
  0 <= valid_line_count ls
  /\ valid_line_count ls <= line_count ls
  /\ line_count ls <= Z.of_nat (length lines)
  /\ Z.of_nat (length (sampled_triples ls)) <= valid_line_count ls.
Proof.
  cbv zeta.
  assert (H0 : counters_ok 0 init_loop) by (unfold counters_ok; cbn; lia).
  exact (run_counters chunk_size sample_size random_sample randint lines
                      _ _ H0).
Qed.

(** X9: with a chunk size of at least one, [chunk_line_count] is the
    length of [current_chunk] when the loop ends, and the last chunk holds
    at most [chunk_size] lines. *)
Theorem chunk_never_exceeds_chunk_size (chunk_size sample_size : Z)
    (random_sample : bool) (randint : Z -> Z) (lines : list string) :
  1 <= chunk_size ->
  chunk_line_count
    (run_loop chunk_size sample_size random_sample randint lines init_loop)
  = Z.of_nat (length (current_chunk
      (run_loop chunk_size sample_size random_sample randint lines
                init_loop)))
  /\ Z.of_nat (length (current_chunk
       (run_loop chunk_size sample_size random_sample randint lines
                 init_loop)))
     <= chunk_size.
Proof.
  intros Hc.
  destruct (run_buffer chunk_size sample_size random_sample randint lines
                       init_loop Hc) as [H1 H2]; [reflexivity | cbn; lia |].
  split; [exact H1 | lia].
Qed.

Lemma chunk_never_exceeds_chunk_size_witness :
  chunk_line_count
    (run_loop 2 3 true (fun _ => 0) ["a"; "b"; "c"; "d"]%string init_loop)
  = Z.of_nat (length (current_chunk
      (run_loop 2 3 true (fun _ => 0) ["a"; "b"; "c"; "d"]%string
                init_loop)))
  /\ Z.of_nat (length (current_chunk
       (run_loop 2 3 true (fun _ => 0) ["a"; "b"; "c"; "d"]%string
                 init_loop)))
     <= 2.
Proof.
  apply (chunk_never_exceeds_chunk_size 2 3 true (fun _ => 0)
           ["a"; "b"; "c"; "d"]%string).
  lia.
Defined.

(** X10: a run stops reading early.  When the loop ends (the file is
    exhausted or the loop has been left), at most [max(1, 10 *
    sample_size)] valid lines have been read in random mode, and at most
    [max(0, sample_size) + 1] in sequential mode. *)
Theorem reading_stops_early (chunk_size sample_size : Z)
    (random_sample : bool) (randint : Z -> Z) (lines : list string) :
  valid_line_count
    (run_loop chunk_size sample_size random_sample randint lines init_loop)
  <= if random_sample then Z.max 1 (10 * sample_size)
     else Z.max 0 sample_size + 1.
Proof.
  apply (run_reading chunk_size sample_size random_sample randint).
  unfold reading. cbn. destruct random_sample; lia.
Qed.

(** X11: the label that an entity gets, the local name of its URI, holds
    neither [/] nor [#], and is what the URI ends with. *)
Theorem local_name_has_no_separator (uri : string) :
  mem_char "/" (local_name uri) = false
  /\ mem_char "#" (local_name uri) = false
  /\ exists pre, uri = (pre ++ local_name uri)%string.
Proof.
  unfold local_name.
  destruct (after_last_suffix "/" uri) as [p1 H1].
  pose proof (after_last_no_sep "/" uri) as N1.
  set (l := after_last "/" uri) in *.
  destruct (mem_char "#" l) eqn:E.
  - destruct (after_last_suffix "#" l) as [p2 H2].
    repeat split.
    + rewrite H2, mem_char_append in N1.
      now apply orb_false_iff in N1.
    + apply after_last_no_sep.
    + exists (p1 ++ p2)%string. rewrite append_assoc, <- H2. exact H1.
  - repeat split; auto. now exists p1.
Qed.

(** X12: the type that [add_relationship] gives a relationship is in
    upper case, whatever the predicate: [upper] leaves it as it is (the
    nine mapped names are written in upper case, and any other local name
    is converted). *)
Theorem rel_type_is_upper_case (predicate : string) :
  upper (rel_type_of predicate) = rel_type_of predicate.
Proof.
  unfold rel_type_of. cbv zeta.
  match goal with |- context [Dict.get ?k rel_mapping] =>
    destruct (Dict.get k rel_mapping) as [m|] eqn:E end.
  - assert (Hin : In m (Dict.values rel_mapping)).
    { revert E. generalize rel_mapping.
      induction t as [|[k' v'] d IH]; cbn [Dict.get]; [discriminate|].
      destruct (String.eqb k' _).
      - intros [= ->]. now left.
      - intros H. right. now apply IH. }
    cbn in Hin.
    repeat (destruct Hin as [<-|Hin]; [reflexivity|]). destruct Hin.
  - apply upper_idem.
Qed.

(** X13: users and products are numbered in the order in which they are
    first seen.  If the user records carry the identifiers [user_0],
    [user_1], ... up to the user counter, they still do after
    [process_user_entity], on a new URI or a known one, and the
    identifiers are pairwise distinct; the same holds of the product
    records and [process_product_entity]. *)
Theorem entity_ids_are_numbered (uri : string) (st : store) :
  numbered User "user_" st ->
  numbered Product "product_" st ->
  (numbered User "user_" (process_user_entity uri st)
   /\ List.NoDup (map NT.id (Dict.values
        (pk_get User (entity_map (process_user_entity uri st))))))
  /\ (numbered Product "product_" (process_product_entity uri st)
      /\ List.NoDup (map NT.id (Dict.values
           (pk_get Product (entity_map (process_product_entity uri st)))))).
Proof.
  assert (Hstep : forall k prefix,
    numbered k prefix st ->
    numbered k prefix (create_entity k prefix uri st)).
  { intros k prefix H. unfold numbered in *.
    destruct (Dict.mem uri (pk_get k (entity_map st))) eqn:E.
    - now rewrite create_entity_present.
    - rewrite create_entity_new by exact E. cbn [entity_map entity_counts].
      rewrite !pk_get_set_eq. unfold Dict.values in *.
      rewrite !map_app, H, seq_S, map_app. reflexivity. }
  intros Hu Hp. split.
  - rewrite process_user_entity_eq.
    pose proof (Hstep User "user_"%string Hu) as H'.
    split; [exact H'|]. unfold numbered in H'. rewrite H'.
    apply numbered_ids_distinct.
  - rewrite process_product_entity_eq.
    pose proof (Hstep Product "product_"%string Hp) as H'.
    split; [exact H'|]. unfold numbered in H'. rewrite H'.
    apply numbered_ids_distinct.
Qed.

Lemma entity_ids_are_numbered_witness :
  (numbered User "user_"
     (process_user_entity "http://ex/u2"
        (process_user_entity "http://ex/u1" init_store))
   /\ List.NoDup (map NT.id (Dict.values
        (pk_get User (entity_map
           (process_user_entity "http://ex/u2"
              (process_user_entity "http://ex/u1" init_store)))))))
  /\ (numbered Product "product_"
        (process_product_entity "http://ex/u2"
           (process_user_entity "http://ex/u1" init_store))
      /\ List.NoDup (map NT.id (Dict.values
           (pk_get Product (entity_map
              (process_product_entity "http://ex/u2"
                 (process_user_entity "http://ex/u1" init_store))))))).
Proof.
  apply (entity_ids_are_numbered "http://ex/u2"
           (process_user_entity "http://ex/u1" init_store)); reflexivity.
Defined.

(** X14: [save_to_neo4j_format] writes one header per file and one row
    per record: the rows of all the files together are as many as the
    files written plus the users, products, categories, brands, scenes
    and relationships. *)
Theorem rows_written_count (sample_dir : string)
    (em : per_kind (Dict.t entity)) (rels : list relationship) :
  let w := save_to_neo4j_format sample_dir em rels in
  length (concat (map snd (files w)))
  = (length (files w)
     + length (pk_get User em) + length (pk_get Product em)
     + length (pk_get Category em) + length (pk_get Brand em)
     + length (pk_get Scene em) + length rels)%nat.
Proof.
  cbv zeta. unfold save_to_neo4j_format.
  set (w0 := {| files := []; neo4j_files := [] |}).
  assert (E0 : length (concat (map snd (files w0))) = 0%nat
               /\ length (files w0) = 0%nat) by (split; reflexivity).
  clearbody w0.
  repeat match goal with
  | |- context [save_entities ?d ?k ?f ?h ?row ?e ?w] =>
      is_var w;
      let H := fresh "H" in
      pose proof (save_entities_rows d k f h row e w) as H;
      let x := fresh "w" in
      set (x := save_entities d k f h row e w) in *; clearbody x
  end.
  match goal with
  | |- context [save_relationships ?d ?r ?w] =>
      let H := fresh "H" in
      pose proof (save_relationships_rows d r w) as H;
      let x := fresh "w" in
      set (x := save_relationships d r w) in *; clearbody x
  end.
  lia.
Qed.

(** X15: the dictionary that [save_to_neo4j_format] returns lists the
    files written, in the order in which they were written; its keys are
    among [users], [products], [categories], [brands], [scenes] and
    [relationships]; and no file is written empty. *)
Theorem returned_paths_are_the_files (sample_dir : string)
    (em : per_kind (Dict.t entity)) (rels : list relationship) :
  let w := save_to_neo4j_format sample_dir em rels in
  map snd (neo4j_files w) = map fst (files w)
  /\ (forall key, In key (Dict.keys (neo4j_files w)) ->
        In key ["users"; "products"; "categories"; "brands"; "scenes";
                "relationships"]%string)
  /\ Forall (fun f => snd f <> []) (files w).
Proof.
  cbv zeta. unfold save_to_neo4j_format, save_entities, save_relationships.
  destruct em as [u p c b s cr t th m po]. cbn [pk_get of_user of_product
    of_category of_brand of_scene].
  destruct u, p, c, b, s, rels; cbn [files neo4j_files app Dict.set map fst snd
    String.eqb Ascii.eqb Bool.eqb Dict.keys map_key];
    (split; [reflexivity|]);
    (split; [intros key Hk; cbn in Hk; cbn; tauto|]);
    repeat constructor; discriminate.
Qed.

(** X24: every line of the sample written comes from the file: it is one
    of the lines of the file, stripped, and it is neither empty nor a
    comment.  This holds in both modes, for every sample size, chunk size
    and sequence of random draws. *)
Theorem sample_lines_come_from_the_file (chunk_size sample_size : Z)
    (random_sample : bool) (randint : Z -> Z) (sample_dir : string)
    (lines : list string) (x : string) :
  In x (output_lines (process_large_nt_file chunk_size sample_size
                        random_sample randint sample_dir lines)) ->
  (exists raw, In raw lines /\ x = strip raw)
  /\ is_empty x = false
  /\ startswith "#" x = false.
Proof.
  unfold process_large_nt_file. cbn [output_lines].
  destruct (last_chunk_effect
              (run_loop chunk_size sample_size random_sample randint lines
                        init_loop)) as (_ & -> & _).
  intros H.
  apply (run_sample_valid chunk_size sample_size random_sample randint)
    in H.
  destruct H as [[]|H].
  unfold valid_lines in H. apply List.filter_In in H.
  destruct H as [Hin Hv]. apply in_map_iff in Hin.
  destruct Hin as (raw & <- & Hraw).
  unfold is_valid in Hv. apply negb_true_iff, orb_false_iff in Hv.
  destruct Hv as [He Hc]. repeat split; eauto.
Qed.

Lemma sample_lines_come_from_the_file_witness :
  (exists raw, In raw ["  a  "; "# note"; "b"]%string
               /\ "a"%string = strip raw)
  /\ is_empty "a" = false
  /\ startswith "#" "a" = false.
Proof.
  apply (sample_lines_come_from_the_file 10 2 false (fun _ => 0) "out"
           ["  a  "; "# note"; "b"]%string "a"%string).
  vm_compute. now left.
Defined.

End Extras.

Module TBoxExtras.

Import TBox Ontology TextFacts TBoxFacts ScanFacts.
Local Open Scope list_scope.

Section Absent.

Variable _process_concept : json -> list (string * json) -> json -> M unit.
Variable _process_property : json -> list (string * json) -> json -> M unit.
Variable _process_relationships : json -> list (string * json) -> M unit.
Variable random_sample_of : list json -> nat -> list json.
Variable json_loads : string -> option json.
Variable random_bits : Z -> Z.

(** X16: in the line scanner no item is parsed before the line that
    closes the graph array.  The lines are stripped before they are
    tested, so the test for the start of an item, two blanks and an
    opening brace, never holds: a line other than the closing bracket
    leaves [item_count], [sampled_count] and the processor as they are,
    whatever the methods that src/ does not define do. *)
Theorem items_wait_for_the_closing_bracket (sample_size : Z)
    (random_sample : bool) (raw : string) (sc : scan) :
  String.eqb (PyStr.strip raw) "]" = false ->
  item_count (scan_line _process_concept _process_property
                _process_relationships json_loads random_bits
                sample_size random_sample raw sc) = item_count sc
  /\ sampled_count (scan_line _process_concept _process_property
                      _process_relationships json_loads random_bits
                      sample_size random_sample raw sc) = sampled_count sc
  /\ self (scan_line _process_concept _process_property
             _process_relationships json_loads random_bits
             sample_size random_sample raw sc) = self sc.
Proof.
  intros H. unfold scan_line. rewrite H, andb_false_r.
  rewrite strip_not_indented.
  destruct (PyStr.contains _ _); [cbn; auto|].
  destruct (in_graph sc); cbn; auto.
Qed.

(** X17: the line scanner parses at most one item for each line that
    opens the graph array, however many items the array holds, and it
    never counts more sampled items than parsed ones: at the end
    [0 <= sampled_count <= item_count], and [item_count] is at most the
    number of lines that hold the opening of the graph array. *)
Theorem line_mode_parses_one_item_per_graph (sample_size : Z)
    (random_sample : bool) (lines : list string) (p : processor) :
  let sc := _process_large_jsonld_file _process_concept _process_property
              _process_relationships json_loads random_bits
              sample_size random_sample lines p in
  0 <= sampled_count sc
  /\ sampled_count sc <= item_count sc
  /\ item_count sc <= Z.of_nat (Vocabulary.count opens_graph lines).
Proof.
  cbv zeta. unfold _process_large_jsonld_file.
  assert (H0 : scan_ok 0 (init_scan p)) by (unfold scan_ok; cbn; lia).
  destruct (scan_ok_run _process_concept _process_property
              _process_relationships json_loads random_bits
              sample_size random_sample lines _ _ H0)
    as (H1 & H2 & H3).
  cbn [Nat.add] in H3.
  repeat split; auto.
  destruct (in_graph _); lia.
Qed.

(** X18: a negative sample size makes random sampling of a whole
    document fail.  On a document parsed at once whose graph array is not
    empty, [random.sample] raises; [process_jsonld_file] catches the
    exception and returns [(None, {})]: no item is processed and no file
    is written. *)
Theorem negative_sample_size_aborts (output_dir : string)
    (graph_data : list json) (sample_size : Z) (p : processor) :
  (0 < length graph_data)%nat -> sample_size < 0 ->
  process_jsonld_file _process_concept _process_property
    _process_relationships random_sample_of json_loads random_bits
    output_dir (Whole (Some graph_data)) sample_size true p
  = (None, p).
Proof.
  intros Hg Hs. unfold process_jsonld_file, _process_jsonld_graph.
  destruct graph_data as [|x l]; [cbn in Hg; lia|].
  unfold sample_graph.
  destruct (Z.gtb_spec (Z.of_nat (length (x :: l))) sample_size);
    [|cbn [length] in *; lia].
  destruct (Z.ltb_spec sample_size 0); [|lia].
  reflexivity.
Qed.

End Absent.

Lemma items_wait_for_the_closing_bracket_witness :
  item_count (scan_line Demo.no_node Demo.no_node Demo.no_relationships
                Demo.loads Demo.zero_bits 5 false "  {"
                (Scan true Demo.member_line 0 0 init))
  = item_count (Scan true Demo.member_line 0 0 init)
  /\ sampled_count (scan_line Demo.no_node Demo.no_node
                      Demo.no_relationships Demo.loads Demo.zero_bits
                      5 false "  {" (Scan true Demo.member_line 0 0 init))
     = sampled_count (Scan true Demo.member_line 0 0 init)
  /\ self (scan_line Demo.no_node Demo.no_node Demo.no_relationships
             Demo.loads Demo.zero_bits 5 false "  {"
             (Scan true Demo.member_line 0 0 init))
     = self (Scan true Demo.member_line 0 0 init).
Proof.
  apply (items_wait_for_the_closing_bracket Demo.no_node Demo.no_node
           Demo.no_relationships Demo.loads Demo.zero_bits 5 false "  {"
           (Scan true Demo.member_line 0 0 init)).
  reflexivity.
Defined.

Lemma negative_sample_size_aborts_witness :
  process_jsonld_file Demo.no_node Demo.no_node Demo.no_relationships
    Demo.first_n Demo.loads Demo.zero_bits
    "out" (Whole (Some [JObj [("@id", JStr "http://ex/C")]])) (-1) true init
  = (None, init).
Proof.
  apply (negative_sample_size_aborts Demo.no_node Demo.no_node
           Demo.no_relationships Demo.first_n Demo.loads Demo.zero_bits
           "out" [JObj [("@id", JStr "http://ex/C")]] (-1) init).
  - simpl. lia.
  - lia.
Defined.

(** X19: the class counter can run ahead of the class records.  On a URI
    that is hashable but no string (a number, a boolean), not yet
    registered, and with no usable label, [_process_class] raises
    [AttributeError] when it derives the name from the URI; the counter
    has been incremented by then and stays so, while no record is
    stored. *)
Theorem class_counter_runs_ahead (uri : json) (item : list (string * json))
    (label : json) (p : processor) :
  hashable uri = true ->
  is_text uri = false ->
  jget uri (classes (entity_mapping p)) = None ->
  truthy label = false ->
  exists p1,
    _process_class uri item label p = (Raise AttributeError, p1)
    /\ class (entity_counts p1) = S (class (entity_counts p))
    /\ entity_mapping p1 = entity_mapping p.
Proof.
  intros Hh Hs Hg Hl. unfold _process_class.
  unfold mbind, M_bind, bind, get, put, mret, M_ret, ret, raise.
  rewrite Hh, Hg, Hl. cbn [negb].
  destruct uri; try discriminate; eexists; repeat split; reflexivity.
Qed.

Lemma class_counter_runs_ahead_witness :
  exists p1,
    _process_class (JNum 7) [] JNull init = (Raise AttributeError, p1)
    /\ class (entity_counts p1) = S (class (entity_counts init))
    /\ entity_mapping p1 = entity_mapping init.
Proof.
  apply (class_counter_runs_ahead (JNum 7) [] JNull init); reflexivity.
Defined.

(** X20: on a URI that is a string [_process_class] always returns, and
    it keeps the classes numbered: if the class records carry the
    identifiers [class_0], [class_1], ... up to the class counter, they
    still do afterwards, the identifier returned is the one on record for
    the URI, and the identifiers are pairwise distinct. *)
Theorem class_ids_are_numbered (u : string) (item : list (string * json))
    (label : json) (p : processor) :
  classes_numbered p ->
  exists i p1 info,
    _process_class (JStr u) item label p = (Ok i, p1)
    /\ classes_numbered p1
    /\ jget (JStr u) (classes (entity_mapping p1)) = Some info
    /\ TBox.id info = i
    /\ List.NoDup (map (fun kv : json * node_info => TBox.id (snd kv))
                       (classes (entity_mapping p1))).
Proof.
  intros H.
  assert (Hret : exists i p1,
            _process_class (JStr u) item label p = (Ok i, p1)).
  { unfold _process_class.
    unfold mbind, M_bind, bind, get, put, mret, M_ret, ret, raise.
    cbn [hashable negb].
    destruct (jget _ _); [eauto|]. destruct (truthy label); eauto. }
  destruct Hret as (i & p1 & E). exists i, p1.
  destruct (jget (JStr u) (classes (entity_mapping p))) as [info|] eqn:G.
  - pose proof (process_class_present (JStr u) item label p info eq_refl G)
      as E'.
    rewrite E' in E. injection E as <- <-. exists info.
    repeat split; auto. unfold classes_numbered in H. rewrite H.
    apply numbered_ids_distinct.
  - destruct (process_class_new (JStr u) item label p i p1 G E)
      as (info & Hi & Hi' & Hc & Hn & _).
    exists info.
    assert (N1 : classes_numbered p1).
    { unfold classes_numbered in *.
      rewrite Hc, Hn, map_app, H, seq_S, map_app.
      cbn [map snd Nat.add]. now rewrite Hi, Hi'. }
    repeat split; auto.
    + rewrite Hc, <- (jset_new (JStr u) info) by exact G.
      now apply jget_jset_eq.
    + unfold classes_numbered in N1. rewrite N1.
      apply numbered_ids_distinct.
Qed.

Lemma class_ids_are_numbered_witness :
  exists i p1 info,
    _process_class (JStr "http://ex/Brand") [] JNull init = (Ok i, p1)
    /\ classes_numbered p1
    /\ jget (JStr "http://ex/Brand") (classes (entity_mapping p1))
       = Some info
    /\ TBox.id info = i
    /\ List.NoDup (map (fun kv : json * node_info => TBox.id (snd kv))
                       (classes (entity_mapping p1))).
Proof.
  apply (class_ids_are_numbered "http://ex/Brand" [] JNull init).
  reflexivity.
Defined.

(** X21: the files that [_save_to_csv] writes are rectangular: every row
    of a file has as many fields as the file's header (six for classes
    and concepts, seven for properties, four for relationships); and the
    dictionary returned lists the files written, in order. *)
Theorem csv_files_are_rectangular (output_dir : string) (p : processor) :
  Forall rectangular (fst (_save_to_csv output_dir p))
  /\ map snd (snd (_save_to_csv output_dir p))
     = map fst (fst (_save_to_csv output_dir p)).
Proof.
  split.
  - unfold _save_to_csv.
    set (w3 := save_nodes _ "tbox_properties.csv" _ _ _ _ _).
    assert (H3 : Forall rectangular (fst w3)).
    { unfold w3. repeat apply save_nodes_rectangular. constructor. }
    destruct (relationships p) as [|r l]; [exact H3|].
    cbn [fst]. apply Forall_app. split; [exact H3|].
    constructor; [|constructor].
    unfold rectangular. cbn [snd hd]. constructor; [reflexivity|].
    apply List.Forall_forall. intros row Hr.
    apply in_map_iff in Hr. destruct Hr as (rel & <- & _). reflexivity.
  - unfold _save_to_csv, save_nodes.
    destruct (classes _), (concepts _), (properties _), (relationships p);
      reflexivity.
Qed.

End TBoxExtras.

Module ArchiveExtras.

Import Vocabulary SamplingFacts Rar RarFacts.
Local Open Scope list_scope.

(** X22: the stand-in [RarProcessor] of [process_large_rar.py] extracts
    what the utility class extracts, as long as no extraction fails: for
    every archive and every request (no list, an empty list, a list of
    names of which some may not be in the archive), both extract the same
    files in the same order. *)
Theorem fallback_agrees_when_nothing_fails (namelist : list string)
    (extract_ok : string -> bool) (specific_files : option (list string)) :
  forallb extract_ok namelist = true ->
  fallback_extract_rar namelist extract_ok specific_files
  = Some (extract_rar namelist extract_ok specific_files).
Proof.
  intros H. rewrite forallb_forall in H.
  unfold fallback_extract_rar, extract_rar, files_to_extract.
  cbv zeta.
  assert (Hsel : forall l,
    extract_each extract_ok (List.filter (fun f => mem f namelist) l)
    = Some (List.filter extract_ok
              (List.filter (fun f => mem f namelist) l))).
  { intros l.
    destruct (extract_each_all extract_ok
                (List.filter (fun f => mem f namelist) l)) as [-> ->];
      [|reflexivity].
    intros f Hf. apply List.filter_In in Hf. destruct Hf as [_ Hm].
    apply H. now apply mem_true_iff. }
  destruct specific_files as [[|x l]|].
  - rewrite <- (filter_mem_self namelist) at 1. apply Hsel.
  - apply Hsel.
  - rewrite <- (filter_mem_self namelist) at 1. apply Hsel.
Qed.

Lemma fallback_agrees_when_nothing_fails_witness :
  fallback_extract_rar ["a.nt"; "b.nt"]%string (fun _ => true)
                       (Some ["b.nt"; "c.nt"]%string)
  = Some (extract_rar ["a.nt"; "b.nt"]%string (fun _ => true)
                      (Some ["b.nt"; "c.nt"]%string)).
Proof.
  apply (fallback_agrees_when_nothing_fails ["a.nt"; "b.nt"]%string
           (fun _ => true) (Some ["b.nt"; "c.nt"]%string)).
  reflexivity.
Defined.

(** X23: where the two differ.  When the extraction of a selected file
    fails, the stand-in class raises (it catches nothing), while the
    utility class goes on: it leaves that file out and still extracts
    every other selected file whose extraction succeeds. *)
Theorem fallback_stops_at_a_failure (namelist : list string)
    (extract_ok : string -> bool) (specific_files : option (list string))
    (f : string) :
  mem f (files_to_extract namelist specific_files) = true ->
  extract_ok f = false ->
  fallback_extract_rar namelist extract_ok specific_files = None
  /\ mem f (extract_rar namelist extract_ok specific_files) = false
  /\ forallb (fun g => implb (extract_ok g)
                (mem g (extract_rar namelist extract_ok specific_files)))
             (files_to_extract namelist specific_files) = true.
Proof.
  intros Hf Hbad. apply mem_true_iff in Hf.
  unfold extract_rar. repeat split.
  - unfold fallback_extract_rar, files_to_extract in *. cbv zeta in Hf.
    destruct specific_files as [[|x l]|];
      apply (extract_each_fails extract_ok f); auto;
      rewrite filter_mem_self in Hf; exact Hf.
  - apply mem_false_iff. intros Hin. apply List.filter_In in Hin.
    destruct Hin as [_ Hok]. congruence.
  - apply forallb_forall. intros g Hg.
    destruct (extract_ok g) eqn:Eg; [|reflexivity]. cbn [implb].
    apply mem_true_iff, List.filter_In. now split.
Qed.

Lemma fallback_stops_at_a_failure_witness :
  fallback_extract_rar ["a.nt"; "b.nt"]%string
    (fun g => negb (String.eqb g "a.nt")) None = None
  /\ mem "a.nt"
       (extract_rar ["a.nt"; "b.nt"]%string
          (fun g => negb (String.eqb g "a.nt")) None) = false
  /\ forallb (fun g => implb (negb (String.eqb g "a.nt"))
                (mem g (extract_rar ["a.nt"; "b.nt"]%string
                          (fun g => negb (String.eqb g "a.nt")) None)))
             (files_to_extract ["a.nt"; "b.nt"]%string None) = true.
Proof.
  apply (fallback_stops_at_a_failure ["a.nt"; "b.nt"]%string
           (fun g => negb (String.eqb g "a.nt")) None "a.nt"%string);
    reflexivity.
Defined.

End ArchiveExtras.
